(** * The InnoDB wait array (sync/sync0arr.cc) and the buffer-pool
      declarations of include/buf0buf.h, as a shallow embedding.

    Pointers are addresses in [Z] with [NULL = 0]; [ulint] is an unsigned
    machine word whose width is a parameter of the development; the objects
    that wait cells point to (mutexes and rw-locks) live in a heap indexed by
    address.  A function whose C body can stop on [ut_a]/[ut_ad]/[ut_error],
    touch an invalid object, wait for the array mutex or wait for an event
    returns an [outcome]. *)

From stdpp Require Import base numbers option list gmap relations.

Local Open Scope Z_scope.

(** ** Outcomes of a call *)

Inductive outcome (A : Type) : Type :=
| Ret (a : A)      (* the call returns *)
| Abort            (* ut_a, ut_ad or ut_error stopped the server *)
| Fault            (* a pointer was used as an object it is not, or memory
                      was touched behind what had been allocated *)
| Blocked.         (* the thread waits: os_mutex_enter on a mutex that is
                      held, os_event_wait_low on an event not signalled *)

Arguments Ret {A} a.
Arguments Abort {A}.
Arguments Fault {A}.
Arguments Blocked {A}.

#[global] Instance outcome_ret : MRet outcome := fun A a => Ret a.

#[global] Instance outcome_bind : MBind outcome := fun A B f m =>
  match m with
  | Ret a => f a
  | Abort => Abort
  | Fault => Fault
  | Blocked => Blocked
  end.

(** [ut_a(cond)]: continue only when the condition holds. *)
Definition ut_a (cond : bool) : outcome unit :=
  if cond then Ret tt else Abort.

(** The call returned. *)
Definition is_ret {A} (o : outcome A) : bool :=
  match o with Ret _ => true | _ => false end.

(** ** Builds *)

(** The debug macros that sync0arr.cc tests.  [ut_ad] is active in a build
    that defines UNIV_DEBUG, and the deadlock search exists in a build that
    defines UNIV_SYNC_DEBUG.  A build with UNIV_SYNC_DEBUG but without
    UNIV_DEBUG, in which no active assertion bounds the recursion of the
    search, is not covered. *)
Inductive build : Type :=
| RELEASE        (* neither macro *)
| DEBUG          (* UNIV_DEBUG *)
| SYNC_DEBUG.    (* UNIV_DEBUG and UNIV_SYNC_DEBUG *)

Definition UNIV_DEBUG (b : build) : bool :=
  match b with RELEASE => false | _ => true end.

Definition UNIV_SYNC_DEBUG (b : build) : bool :=
  match b with SYNC_DEBUG => true | _ => false end.

(** [ut_ad(cond)]: [ut_a(cond)] with UNIV_DEBUG, nothing without. *)
Definition ut_ad (b : build) (cond : bool) : outcome unit :=
  if UNIV_DEBUG b then ut_a cond else Ret tt.

(** ** Machine integers *)

(** Width of [ulint] (univ.i is not part of this tree, so the width stays a
    parameter: 32 or 64 on the supported targets). *)
Class ulint_width := ulint_bits : positive.

Section Ulint.
Context `{W : ulint_width}.

Definition ULINT_MODULUS : Z := 2 ^ Z.pos ulint_bits.
Definition ULINT_MAX : Z := ULINT_MODULUS - 1.

Definition ulint_wrap (z : Z) : Z := z mod ULINT_MODULUS.

(** [x++] and [x--] on a [ulint]. *)
Definition ulint_incr (x : Z) : Z := ulint_wrap (x + 1).
Definition ulint_decr (x : Z) : Z := ulint_wrap (x - 1).

End Ulint.

Definition NULL : Z := 0.

(** ** Memory from [ut_malloc] *)

(** What the start-up code takes from outside this tree: the sizes of the
    structures, whose fields have types that other headers declare, and
    [ut_malloc] (ut0mem.cc).  [ut_malloc m n] is a request for [n] bytes
    made with the allocator in state [m]: [Ret] with the next state when a
    block of [n] bytes is handed out, any other outcome when the call does
    not return one. *)
Class allocator := {
  alloc_state : Type;
  ut_malloc : alloc_state -> Z -> outcome alloc_state;
  sizeof_sync_array_t : positive;
  sizeof_sync_cell_t : positive;
  sizeof_pointer : positive      (* one element of [sync_wait_array] *)
}.

(** Requests to [ut_malloc], one after the other. *)
Fixpoint ut_malloc_all `{M : allocator} (m : alloc_state) (sizes : list Z)
  : outcome alloc_state :=
  match sizes with
  | [] => Ret m
  | n :: sizes' => m' ← ut_malloc m n; ut_malloc_all m' sizes'
  end.

(** ** Lock request codes *)

(** Modelled from the spec: the macros SYNC_MUTEX, RW_LOCK_SHARED, RW_LOCK_EX
    and RW_LOCK_WAIT_EX are defined in headers that are not in this tree; the
    spec lists the four request types.  [request_type] is a [ulint] in the
    source, and [LOCK_CODE n] stands for every other value of it (a zeroed
    cell holds 0). *)
Inductive lock_code : Type :=
| SYNC_MUTEX
| RW_LOCK_SHARED
| RW_LOCK_EX
| RW_LOCK_WAIT_EX
| LOCK_CODE (n : Z).

#[global] Instance lock_code_eq_dec : EqDecision lock_code.
Proof. solve_decision. Defined.

(** ** Events, mutexes and rw-locks (the objects cells wait for) *)

(** Modelled from the spec: os_event (os0sync.cc is not in this tree).
    "event_t: reset() -> generation, set(), wait(generation): wait returns
    immediately if the event has been set since generation was observed." *)
Record os_event_struct : Type := mk_event {
  is_set : bool;
  ev_signal_count : Z   (* the generation *)
}.

(** [ib_mutex_t] (sync0sync.h is not in this tree): the fields that
    sync0arr.cc reads. *)
Record ib_mutex_t : Type := mk_mutex {
  m_event : os_event_struct;
  m_lock_word : Z;
  m_thread_id : Z       (* the thread that holds the mutex *)
}.

(** [rw_lock_debug_t], one entry of [rw_lock_t::debug_list] (sync0rw.h is
    not in this tree): the fields that sync0arr.cc reads. *)
Record rw_lock_debug_t : Type := mk_debug {
  d_thread_id : Z;
  d_pass : Z;
  d_lock_type : lock_code
}.

(** [rw_lock_t]: the fields that sync0arr.cc reads. *)
Record rw_lock_t : Type := mk_rw_lock {
  l_lock_word : Z;
  l_event : os_event_struct;
  l_wait_ex_event : os_event_struct;
  l_debug_list : list rw_lock_debug_t
}.

Inductive sync_object : Type :=
| Mutex (m : ib_mutex_t)
| RwLock (l : rw_lock_t).

(** The memory the wait objects live in: address to object. *)
Abbreviation heap := (gmap Z sync_object).

(** [(ib_mutex_t* ) p] followed by a field access. *)
Definition as_mutex (h : heap) (p : Z) : outcome ib_mutex_t :=
  match h !! p with
  | Some (Mutex m) => Ret m
  | _ => Fault
  end.

(** [(rw_lock_t* ) p] followed by a field access. *)
Definition as_rw_lock (h : heap) (p : Z) : outcome rw_lock_t :=
  match h !! p with
  | Some (RwLock l) => Ret l
  | _ => Fault
  end.

(** An [os_event_t] handle: the object that embeds the event and which of
    its events it is. *)
Inductive event_field : Type :=
| MUTEX_EVENT          (* ib_mutex_t::event *)
| RW_EVENT             (* rw_lock_t::event *)
| RW_WAIT_EX_EVENT.    (* rw_lock_t::wait_ex_event *)

#[global] Instance event_field_eq_dec : EqDecision event_field.
Proof. solve_decision. Defined.

Definition os_event_t : Type := Z * event_field.

Definition event_load (h : heap) (e : os_event_t) : outcome os_event_struct :=
  match e.2 with
  | MUTEX_EVENT => m ← as_mutex h e.1; Ret (m_event m)
  | RW_EVENT => l ← as_rw_lock h e.1; Ret (l_event l)
  | RW_WAIT_EX_EVENT => l ← as_rw_lock h e.1; Ret (l_wait_ex_event l)
  end.

Definition event_store (h : heap) (e : os_event_t) (v : os_event_struct)
  : outcome heap :=
  match e.2 with
  | MUTEX_EVENT =>
      m ← as_mutex h e.1;
      Ret (<[e.1 := Mutex (mk_mutex v (m_lock_word m) (m_thread_id m))]> h)
  | RW_EVENT =>
      l ← as_rw_lock h e.1;
      Ret (<[e.1 := RwLock (mk_rw_lock (l_lock_word l) v (l_wait_ex_event l)
                                       (l_debug_list l))]> h)
  | RW_WAIT_EX_EVENT =>
      l ← as_rw_lock h e.1;
      Ret (<[e.1 := RwLock (mk_rw_lock (l_lock_word l) (l_event l) v
                                       (l_debug_list l))]> h)
  end.

(** Modelled from the spec: [reset() -> generation]. The event becomes
    non-signalled and the current generation is returned. *)
Definition os_event_reset (h : heap) (e : os_event_t) : outcome (heap * Z) :=
  v ← event_load h e;
  h' ← event_store h e (mk_event false (ev_signal_count v));
  Ret (h', ev_signal_count v).

(** Modelled from the spec: [set()]. The event becomes signalled; a set that
    changes the state starts a new generation. *)
Definition os_event_set (h : heap) (e : os_event_t) : outcome heap :=
  v ← event_load h e;
  event_store h e
    (mk_event true
       (if is_set v then ev_signal_count v else ev_signal_count v + 1)).

(** Modelled from the spec: [os_event_wait_low], "wait(generation): wait
    returns immediately if the event has been set since generation was
    observed"; as long as it has not, the thread sleeps. *)
Definition os_event_wait_low (h : heap) (e : os_event_t)
    (reset_sig_count : Z) : outcome unit :=
  v ← event_load h e;
  if is_set v || negb (ev_signal_count v =? reset_sig_count)
  then Ret tt else Blocked.

(** ** Cells and arrays *)

Record sync_cell_t : Type := mk_cell {
  wait_object : Z;        (* NULL: the cell is free *)
  old_wait_mutex : Z;
  old_wait_rw_lock : Z;
  request_type : lock_code;
  file : Z;               (* const char* *)
  line : Z;
  thread : Z;             (* os_thread_id_t *)
  waiting : bool;
  signal_count : Z;
  reservation_time : Z    (* time_t *)
}.

Record sync_array_t : Type := mk_array {
  n_reserved : Z;
  n_cells : Z;
  array : list sync_cell_t;
  os_mutex : bool;        (* true: some thread is inside the array *)
  res_count : Z
}.

(** A wait array together with the objects its cells point to. *)
Record sync_state : Type := mk_state {
  arr : sync_array_t;
  objects : heap
}.

(** A cell after [memset(.., 0x0, ..)]. *)
Definition zero_cell : sync_cell_t :=
  mk_cell NULL NULL NULL (LOCK_CODE 0) NULL 0 0 false 0 0.

Definition set_array (a : sync_array_t) (cells : list sync_cell_t)
  : sync_array_t :=
  mk_array (n_reserved a) (n_cells a) cells (os_mutex a) (res_count a).

Definition set_n_reserved (a : sync_array_t) (n : Z) : sync_array_t :=
  mk_array n (n_cells a) (array a) (os_mutex a) (res_count a).

Definition set_res_count (a : sync_array_t) (n : Z) : sync_array_t :=
  mk_array (n_reserved a) (n_cells a) (array a) (os_mutex a) n.

Definition set_os_mutex (a : sync_array_t) (b : bool) : sync_array_t :=
  mk_array (n_reserved a) (n_cells a) (array a) b (res_count a).

(** [arr->array[i] = c] through the pointer [sync_array_get_nth_cell]
    returned. *)
Definition store_cell (a : sync_array_t) (i : Z) (c : sync_cell_t)
  : sync_array_t :=
  set_array a (<[Z.to_nat i := c]> (array a)).

(** The cell behind a [sync_cell_t*] that points at slot [i] of the array. *)
Definition cell_at (a : sync_array_t) (i : Z) : outcome sync_cell_t :=
  match array a !! Z.to_nat i with
  | Some c => if 0 <=? i then Ret c else Fault
  | None => Fault
  end.

(** [sync_array_get_nth_cell]: [ut_a(n < arr->n_cells)], then the cell at
    [arr->array + n]. *)
Definition sync_array_get_nth_cell (a : sync_array_t) (n : Z)
  : outcome sync_cell_t :=
  _ ← ut_a (n <? n_cells a);
  cell_at a n.

(** [sync_array_enter]: take the OS mutex of the array. *)
Definition sync_array_enter (a : sync_array_t) : outcome sync_array_t :=
  if os_mutex a then Blocked else Ret (set_os_mutex a true).

(** [sync_array_exit]: release it. *)
Definition sync_array_exit (a : sync_array_t) : sync_array_t :=
  set_os_mutex a false.

(** [cell->wait_object != NULL]. *)
Definition cell_reserved (c : sync_cell_t) : bool :=
  negb (wait_object c =? NULL).

(** Number of cells with [wait_object != NULL]. *)
Fixpoint count_reserved (cells : list sync_cell_t) : Z :=
  match cells with
  | [] => 0
  | c :: cells' =>
      (if cell_reserved c then 1 else 0) + count_reserved cells'
  end.

(** The loops [for (i = 0; i < arr->n_cells; i++)] recurse on the number
    [rem] of cells that remain from index [i]; the index stays below
    [n_cells], so [i++] never wraps and is written [i + 1]. *)

(** [sync_array_find_thread]: the first reserved cell of the thread, as its
    index ([None] for the NULL result). *)
Fixpoint find_thread_loop (rem : nat) (a : sync_array_t) (i : Z) (thr : Z)
  : outcome (option Z) :=
  match rem with
  | O => Ret None
  | S rem' =>
      cell ← sync_array_get_nth_cell a i;
      if cell_reserved cell && (thread cell =? thr)
      then Ret (Some i)
      else find_thread_loop rem' a (i + 1) thr
  end.

Definition sync_array_find_thread (a : sync_array_t) (thr : Z)
  : outcome (option Z) :=
  find_thread_loop (Z.to_nat (n_cells a)) a 0 thr.

(** [sync_cell_get_event]: the event the owner of the cell waits for; the
    event pointer is read out of the wait object. *)
Definition sync_cell_get_event (h : heap) (cell : sync_cell_t)
  : outcome os_event_t :=
  match request_type cell with
  | SYNC_MUTEX =>
      _ ← as_mutex h (wait_object cell); Ret (wait_object cell, MUTEX_EVENT)
  | RW_LOCK_WAIT_EX =>
      _ ← as_rw_lock h (wait_object cell);
      Ret (wait_object cell, RW_WAIT_EX_EVENT)
  | _ =>
      _ ← as_rw_lock h (wait_object cell); Ret (wait_object cell, RW_EVENT)
  end.

(** [sync_arr_cell_can_wake_up]; [mutex_get_lock_word] reads
    [mutex->lock_word]. *)
Definition sync_arr_cell_can_wake_up (h : heap) (cell : sync_cell_t)
  : outcome bool :=
  match request_type cell with
  | SYNC_MUTEX =>
      mutex ← as_mutex h (wait_object cell);
      Ret (m_lock_word mutex =? 0)
  | RW_LOCK_EX =>
      lock ← as_rw_lock h (wait_object cell);
      Ret (0 <? l_lock_word lock)
  | RW_LOCK_WAIT_EX =>
      lock ← as_rw_lock h (wait_object cell);
      Ret (l_lock_word lock =? 0)
  | RW_LOCK_SHARED =>
      lock ← as_rw_lock h (wait_object cell);
      Ret (0 <? l_lock_word lock)
  | LOCK_CODE _ => Ret false
  end.

Section WaitArray.
Context `{W : ulint_width} `{M : allocator}.

(** [sync_array_create]: [ut_a(n_cells > 0)], a zeroed header, and
    [sz = sizeof(sync_cell_t) * n_cells] zeroed bytes for the cells.  The
    product is a [ulint] and wraps; the cells the array has are the whole
    cells among the [sz] bytes that were asked for, while [n_cells] is set
    to [n] whatever [sz] came to.  [m] is the state of the allocator, which
    is returned with the array. *)
Definition sync_array_create (m : alloc_state) (n : Z)
  : outcome (alloc_state * sync_array_t) :=
  _ ← ut_a (0 <? n);
  m1 ← ut_malloc m (Z.pos sizeof_sync_array_t);
  let sz := ulint_wrap (Z.pos sizeof_sync_cell_t * n) in
  m2 ← ut_malloc m1 sz;
  Ret (m2,
       mk_array 0 n
         (replicate (Z.to_nat (sz / Z.pos sizeof_sync_cell_t)) zero_cell)
         false 0).

(** The counting loop of [sync_array_validate]. *)
Fixpoint validate_loop (rem : nat) (a : sync_array_t) (i count : Z)
  : outcome Z :=
  match rem with
  | O => Ret count
  | S rem' =>
      cell ← sync_array_get_nth_cell a i;
      validate_loop rem' a (i + 1)
        (if cell_reserved cell then ulint_incr count else count)
  end.

(** [sync_array_validate]: [ut_a(count == arr->n_reserved)] under the array
    mutex. *)
Definition sync_array_validate (a : sync_array_t) : outcome sync_array_t :=
  a1 ← sync_array_enter a;
  count ← validate_loop (Z.to_nat (n_cells a1)) a1 0 0;
  _ ← ut_a (count =? n_reserved a1);
  Ret (sync_array_exit a1).

(** The scan of [sync_array_reserve_cell] for a cell with
    [wait_object == NULL]: the index of the first one, if any. *)
Fixpoint reserve_loop (rem : nat) (a : sync_array_t) (i : Z)
  : outcome (option Z) :=
  match rem with
  | O => Ret None
  | S rem' =>
      cell ← sync_array_get_nth_cell a i;
      if wait_object cell =? NULL
      then Ret (Some i)
      else reserve_loop rem' a (i + 1)
  end.

(** What the reserving branch writes into the free cell while it owns the
    array mutex. *)
Definition reserve_fill (cell : sync_cell_t) (object : Z) (type : lock_code)
    (file line : Z) : sync_cell_t :=
  mk_cell object
    (if decide (type = SYNC_MUTEX) then object else old_wait_mutex cell)
    (if decide (type = SYNC_MUTEX) then old_wait_rw_lock cell else object)
    type file line (thread cell) false (signal_count cell)
    (reservation_time cell).

(** The fields it writes after it has left the mutex. *)
Definition set_signal_count (cell : sync_cell_t) (sig : Z) : sync_cell_t :=
  mk_cell (wait_object cell) (old_wait_mutex cell) (old_wait_rw_lock cell)
    (request_type cell) (file cell) (line cell) (thread cell) (waiting cell)
    sig (reservation_time cell).

Definition set_reservation_time (cell : sync_cell_t) (now : Z)
  : sync_cell_t :=
  mk_cell (wait_object cell) (old_wait_mutex cell) (old_wait_rw_lock cell)
    (request_type cell) (file cell) (line cell) (thread cell) (waiting cell)
    (signal_count cell) now.

Definition set_thread (cell : sync_cell_t) (self : Z) : sync_cell_t :=
  mk_cell (wait_object cell) (old_wait_mutex cell) (old_wait_rw_lock cell)
    (request_type cell) (file cell) (line cell) self (waiting cell)
    (signal_count cell) (reservation_time cell).

(** The three of them together. *)
Definition reserve_stamp (cell : sync_cell_t) (sig : Z) (now self : Z)
  : sync_cell_t :=
  mk_cell (wait_object cell) (old_wait_mutex cell) (old_wait_rw_lock cell)
    (request_type cell) (file cell) (line cell) self (waiting cell) sig now.

(** [sync_array_reserve_cell] from its entry to the [sync_array_exit] of the
    reserving branch, or to the [return false], which is reached without
    [sync_array_exit].  The result [Some i] stands for [*index = i]. *)
Definition reserve_cell_locked (s : sync_state) (object : Z)
    (type : lock_code) (file line : Z) : outcome (sync_state * option Z) :=
  _ ← ut_a (negb (object =? NULL));
  a1 ← sync_array_enter (arr s);
  let a2 := set_res_count a1 (ulint_incr (res_count a1)) in
  found ← reserve_loop (Z.to_nat (n_cells a2)) a2 0;
  match found with
  | Some i =>
      cell ← sync_array_get_nth_cell a2 i;
      let cell1 := reserve_fill cell object type file line in
      let a3 := set_n_reserved (store_cell a2 i cell1)
                  (ulint_incr (n_reserved a2)) in
      Ret (mk_state (sync_array_exit a3) (objects s), Some i)
  | None =>
      Ret (mk_state a2 (objects s), None)
  end.

(** The statements after [sync_array_exit], which run without the mutex and
    reach the cell through the pointer the thread kept:
    [cell->signal_count = os_event_reset(event)], *)
Definition reserve_cell_signal_count (s : sync_state) (i : Z)
  : outcome sync_state :=
  cell ← cell_at (arr s) i;
  event ← sync_cell_get_event (objects s) cell;
  '(h', sig) ← os_event_reset (objects s) event;
  Ret (mk_state (store_cell (arr s) i (set_signal_count cell sig)) h').

(** [cell->reservation_time = time(NULL)], *)
Definition reserve_cell_reservation_time (s : sync_state) (i : Z) (now : Z)
  : outcome sync_state :=
  cell ← cell_at (arr s) i;
  Ret (mk_state (store_cell (arr s) i (set_reservation_time cell now))
         (objects s)).

(** and [cell->thread = os_thread_get_curr_id()]. *)
Definition reserve_cell_thread (s : sync_state) (i : Z) (self : Z)
  : outcome sync_state :=
  cell ← cell_at (arr s) i;
  Ret (mk_state (store_cell (arr s) i (set_thread cell self)) (objects s)).

(** [sync_array_reserve_cell] when no other thread runs between its
    statements.  [self] is [os_thread_get_curr_id()] and [now] is
    [time(NULL)].  The result [Some i] stands for [true] with [*index = i];
    [None] stands for [false], with [*index] untouched. *)
Definition sync_array_reserve_cell (s : sync_state) (object : Z)
    (type : lock_code) (file line : Z) (self now : Z)
  : outcome (sync_state * option Z) :=
  '(s1, found) ← reserve_cell_locked s object type file line;
  match found with
  | Some i =>
      s2 ← reserve_cell_signal_count s1 i;
      s3 ← reserve_cell_reservation_time s2 i now;
      s4 ← reserve_cell_thread s3 i self;
      Ret (s4, Some i)
  | None => Ret (s1, None)
  end.

(** What [sync_array_free_cell] leaves in the cell: [waiting = FALSE],
    [wait_object = NULL], [signal_count = 0]. *)
Definition free_fill (cell : sync_cell_t) : sync_cell_t :=
  mk_cell NULL (old_wait_mutex cell) (old_wait_rw_lock cell)
    (request_type cell) (file cell) (line cell) (thread cell) false 0
    (reservation_time cell).

(** [sync_array_free_cell]. *)
Definition sync_array_free_cell (s : sync_state) (index : Z)
  : outcome sync_state :=
  a1 ← sync_array_enter (arr s);
  cell ← sync_array_get_nth_cell a1 index;
  _ ← ut_a (negb (wait_object cell =? NULL));
  let a2 := store_cell a1 index (free_fill cell) in
  _ ← ut_a (0 <? n_reserved a2);
  let a3 := set_n_reserved a2 (ulint_decr (n_reserved a2)) in
  Ret (mk_state (sync_array_exit a3) (objects s)).

(** The loops of [sync_array_detect_deadlock] over [lock->debug_list]:
    [step] is called on the entries that pass [visit]; the first TRUE ends
    the loop (the [print:] label), as does a step that does not return. *)
Fixpoint debug_list_loop (visit : rw_lock_debug_t -> bool)
    (step : rw_lock_debug_t -> option (outcome bool))
    (l : list rw_lock_debug_t) : option (outcome bool) :=
  match l with
  | [] => Some (Ret false)
  | debug :: l' =>
      if visit debug then
        match step debug with
        | Some (Ret false) => debug_list_loop visit step l'
        | r => r
        end
      else debug_list_loop visit step l'
  end.

(** The entries an x-lock or wait-x-lock request follows. *)
Definition visit_for_ex (cell : sync_cell_t) (debug : rw_lock_debug_t) : bool :=
  (bool_decide (d_lock_type debug = RW_LOCK_EX)
     && negb (d_thread_id debug =? thread cell))
  || (bool_decide (d_lock_type debug = RW_LOCK_WAIT_EX)
        && negb (d_thread_id debug =? thread cell))
  || bool_decide (d_lock_type debug = RW_LOCK_SHARED).

(** The entries an s-lock request follows. *)
Definition visit_for_shared (debug : rw_lock_debug_t) : bool :=
  bool_decide (d_lock_type debug = RW_LOCK_EX)
  || bool_decide (d_lock_type debug = RW_LOCK_WAIT_EX).

(** [sync_array_deadlock_step].  [detect] is the recursive call to
    [sync_array_detect_deadlock] on another cell; cells are named by their
    index, so [new_cell == start] compares indices. *)
Definition sync_array_deadlock_step
    (detect : Z -> Z -> option (outcome bool)) (a : sync_array_t)
    (start : Z) (thr pass depth : Z) : option (outcome bool) :=
  if negb (pass =? 0) then Some (Ret false) else
  match sync_array_find_thread a thr with
  | Ret (Some new_cell) =>
      if new_cell =? start then Some (Ret true)
      else detect new_cell (depth + 1)
  | Ret None => Some (Ret false)
  | Abort => Some Abort
  | Fault => Some Fault
  | Blocked => Some Blocked
  end.

(** [sync_array_detect_deadlock] (UNIV_SYNC_DEBUG builds, [ut_ad] active).
    [self] is [os_thread_get_curr_id()].  The printing on the TRUE paths is
    left out.  [depth] stays below 101 and is incremented without wrapping.
    [None]: the recursion budget [fuel] was too small. *)
Fixpoint detect_deadlock_fuel (fuel : nat) (s : sync_state) (self : Z)
    (start cell : Z) (depth : Z) : option (outcome bool) :=
  match fuel with
  | O => None
  | S fuel' =>
      let step thr pass depth :=
        sync_array_deadlock_step
          (fun new_cell depth' =>
             detect_deadlock_fuel fuel' s self start new_cell depth')
          (arr s) start thr pass depth in
      match cell_at (arr s) start, cell_at (arr s) cell with
      | Ret start_c, Ret c =>
          if negb (cell_reserved c) then Some Abort
          else if negb (self =? thread start_c) then Some Abort
          else if negb (depth <? 100) then Some Abort
          else
            let depth := depth + 1 in
            if negb (waiting c) then Some (Ret false)
            else
              match request_type c with
              | SYNC_MUTEX =>
                  match as_mutex (objects s) (wait_object c) with
                  | Ret mutex =>
                      if negb (m_lock_word mutex =? 0)
                      then step (m_thread_id mutex) 0 depth
                      else Some (Ret false)
                  | _ => Some Fault
                  end
              | RW_LOCK_EX | RW_LOCK_WAIT_EX =>
                  match as_rw_lock (objects s) (wait_object c) with
                  | Ret lock =>
                      debug_list_loop (visit_for_ex c)
                        (fun debug =>
                           step (d_thread_id debug) (d_pass debug) depth)
                        (l_debug_list lock)
                  | _ => Some Fault
                  end
              | RW_LOCK_SHARED =>
                  match as_rw_lock (objects s) (wait_object c) with
                  | Ret lock =>
                      debug_list_loop visit_for_shared
                        (fun debug =>
                           step (d_thread_id debug) (d_pass debug) depth)
                        (l_debug_list lock)
                  | _ => Some Fault
                  end
              | LOCK_CODE _ => Some Abort
              end
      | _, _ => Some Fault
      end
  end.

(** Each level adds 2 to [depth] and [ut_ad(depth < 100)] stops the
    recursion, so [100 - depth] levels (and one more) are a sufficient
    budget. *)
Definition sync_array_detect_deadlock (s : sync_state) (self : Z)
    (start cell : Z) (depth : Z) : outcome bool :=
  match detect_deadlock_fuel (S (Z.to_nat (100 - depth))) s self start cell
          depth with
  | Some r => r
  | None => Abort
  end.

(** [cell->waiting = TRUE]. *)
Definition set_waiting (cell : sync_cell_t) : sync_cell_t :=
  mk_cell (wait_object cell) (old_wait_mutex cell) (old_wait_rw_lock cell)
    (request_type cell) (file cell) (line cell) (thread cell) true
    (signal_count cell) (reservation_time cell).

(** [sync_array_wait_event] up to its [sync_array_exit]: the cell is marked
    as waiting and, with UNIV_SYNC_DEBUG, the deadlock search runs and
    [ut_error] stops the server when it reports TRUE.  Returns the event to
    wait for. *)
Definition sync_array_wait_event_enter (b : build) (s : sync_state)
    (index : Z) (self : Z) : outcome (sync_state * os_event_t) :=
  a1 ← sync_array_enter (arr s);
  cell ← sync_array_get_nth_cell a1 index;
  _ ← ut_a (negb (wait_object cell =? NULL));
  _ ← ut_a (negb (waiting cell));
  _ ← ut_ad b (self =? thread cell);
  event ← sync_cell_get_event (objects s) cell;
  let cell1 := set_waiting cell in
  let a2 := store_cell a1 index cell1 in
  dead ← (if UNIV_SYNC_DEBUG b
          then sync_array_detect_deadlock (mk_state a2 (objects s)) self
                 index index 0
          else Ret false);
  _ ← ut_a (negb dead);
  Ret (mk_state (sync_array_exit a2) (objects s), event).

(** The argument [cell->signal_count] of [os_event_wait_low], which is read
    after [sync_array_exit], through the pointer the thread kept. *)
Definition wait_event_signal_count (s : sync_state) (index : Z) : outcome Z :=
  cell ← cell_at (arr s) index;
  Ret (signal_count cell).

(** [sync_array_wait_event] from [os_event_wait_low] on, in the state [s] in
    which the thread looks at the event: it goes on to free the cell when the
    event has been signalled, and sleeps when it has not. *)
Definition sync_array_wait_event_wake (s : sync_state) (index : Z)
    (event : os_event_t) (signal_count : Z) : outcome sync_state :=
  _ ← os_event_wait_low (objects s) event signal_count;
  sync_array_free_cell s index.

(** [sync_array_wait_event] when no other thread runs between its two
    halves: the call returns only when the event has been signalled since
    the reservation, and is [Blocked], in the state that
    [sync_array_wait_event_enter] leaves, when it has not. *)
Definition sync_array_wait_event (b : build) (s : sync_state)
    (index : Z) (self : Z) : outcome sync_state :=
  '(s1, event) ← sync_array_wait_event_enter b s index self;
  signal_count ← wait_event_signal_count s1 index;
  sync_array_wait_event_wake s1 index event signal_count.

(** The loop of [sync_array_wake_threads_if_sema_free_low]:
    [for (count = 0; count < arr->n_reserved; ++i)].  [signalled] collects
    the events given to [os_event_set], in order. *)
Fixpoint wake_loop (rem : nat) (a : sync_array_t) (i count : Z) (h : heap)
    (signalled : list os_event_t) : outcome (heap * list os_event_t) :=
  if count <? n_reserved a then
    match rem with
    | O => Abort  (* i = n_cells: ut_a(n < arr->n_cells) in get_nth_cell *)
    | S rem' =>
        cell ← sync_array_get_nth_cell a i;
        if cell_reserved cell then
          can ← sync_arr_cell_can_wake_up h cell;
          if (can : bool) then
            event ← sync_cell_get_event h cell;
            h' ← os_event_set h event;
            wake_loop rem' a (i + 1) (ulint_incr count) h'
              (signalled ++ [event])
          else wake_loop rem' a (i + 1) (ulint_incr count) h signalled
        else wake_loop rem' a (i + 1) count h signalled
    end
  else Ret (h, signalled).

(** [sync_array_wake_threads_if_sema_free_low]: the new state and the events
    that were set. *)
Definition sync_array_wake_threads_if_sema_free_low (s : sync_state)
  : outcome (sync_state * list os_event_t) :=
  a1 ← sync_array_enter (arr s);
  '(h', signalled) ← wake_loop (Z.to_nat (n_cells a1)) a1 0 0 (objects s) [];
  Ret (mk_state (sync_array_exit a1) h', signalled).

(** The creating loop of [sync_array_init]:
    [sync_wait_array[i] = sync_array_create(n_slots)].  The table has room
    for [slots] pointers; a store behind them is a [Fault]. *)
Fixpoint init_loop (rem : nat) (m : alloc_state) (slots : Z) (i : Z)
    (n_slots : Z) : outcome (alloc_state * list sync_array_t) :=
  match rem with
  | O => Ret (m, [])
  | S rem' =>
      '(m1, a) ← sync_array_create m n_slots;
      _ ← (if i <? slots then Ret tt else Fault);
      '(m2, rest) ← init_loop rem' m1 slots (i + 1) n_slots;
      Ret (m2, a :: rest)
  end.

(** [sync_array_init].  [sync_wait_array] is the global before the call
    ([None] for NULL), [srv_sync_array_size] the configured number of
    instances; the result is the new [sync_wait_array].  The size of the
    table, [sizeof( *sync_wait_array) * sync_array_size], is a [ulint] and
    wraps; the table holds the whole pointers among the bytes that were
    asked for. *)
Definition sync_array_init (m : alloc_state)
    (sync_wait_array : option (list sync_array_t))
    (srv_sync_array_size : Z) (n_threads : Z)
  : outcome (alloc_state * list sync_array_t) :=
  _ ← ut_a (bool_decide (sync_wait_array = None));
  _ ← ut_a (0 <? srv_sync_array_size);
  _ ← ut_a (0 <? n_threads);
  let sync_array_size := srv_sync_array_size in
  let sz := ulint_wrap (Z.pos sizeof_pointer * sync_array_size) in
  m1 ← ut_malloc m sz;
  let n_slots :=
    ulint_wrap (1 + ulint_wrap (n_threads - 1) / sync_array_size) in
  init_loop (Z.to_nat sync_array_size) m1 (sz / Z.pos sizeof_pointer) 0
    n_slots.

(** The requests [sync_array_init] makes to [ut_malloc] when the sizes do
    not wrap: the table, then a header and the cells for each instance. *)
Definition init_requests (sync_array_size : Z) (n_slots : Z) : list Z :=
  Z.pos sizeof_pointer * sync_array_size
  :: mjoin (replicate (Z.to_nat sync_array_size)
              [Z.pos sizeof_sync_array_t; Z.pos sizeof_sync_cell_t * n_slots]).

End WaitArray.

(** ** Scratch slots for encryption and compression (include/buf0buf.h) *)

Module buf_tmp_buffer_t.

Record t : Type := mk {
  reserved : Z;     (* int32: non-zero when the slot is reserved *)
  crypt_buf : Z;
  comp_buf : Z;
  out_buf : Z
}.

(** Modelled from the spec: [my_atomic_store32_explicit] (my_atomic.h is not
    in this tree); "release() clears the flag". *)
Definition my_atomic_store32_explicit (a : Z) (v : Z) : Z := v.

(** Modelled from the spec: [my_atomic_fas32_explicit] (my_atomic.h is not
    in this tree), the atomic fetch-and-store behind "acquire() performs a
    test-and-set": the new content of the word and the value it held. *)
Definition my_atomic_fas32_explicit (a : Z) (v : Z) : Z * Z := (v, a).

(** [release()]: store [false]. *)
Definition release (slot : t) : t :=
  mk (my_atomic_store32_explicit (reserved slot) 0)
     (crypt_buf slot) (comp_buf slot) (out_buf slot).

(** [acquire()]: [!my_atomic_fas32_explicit(&reserved, true, ..)]; the slot
    afterwards and the result. *)
Definition acquire (slot : t) : t * bool :=
  let '(now, before) := my_atomic_fas32_explicit (reserved slot) 1 in
  (mk now (crypt_buf slot) (comp_buf slot) (out_buf slot), before =? 0).

End buf_tmp_buffer_t.

(** ** Well-formed arrays, the counting invariant, reachable states *)

Section Invariant.
Context `{W : ulint_width} `{M : allocator}.

(** [array] has [n_cells] cells and [n_cells] is a positive [ulint]. *)
Definition sync_array_wf (a : sync_array_t) : Prop :=
  n_cells a = Z.of_nat (length (array a))
  /\ 0 < n_cells a /\ n_cells a <= ULINT_MAX.

(** What is left of that when the size of the cells wrapped: [array] has at
    most [n_cells] cells. *)
Definition sync_array_bounded (a : sync_array_t) : Prop :=
  Z.of_nat (length (array a)) <= n_cells a
  /\ 0 < n_cells a /\ n_cells a <= ULINT_MAX.

(** A cell without the fields that [sync_array_reserve_cell] writes after
    it has left the mutex, and an array of such cells. *)
Definition locked_fields (c : sync_cell_t) : sync_cell_t :=
  reserve_stamp c 0 0 0.

Definition locked_part (a : sync_array_t) : sync_array_t :=
  set_array a (locked_fields <$> array a).

(** The condition [sync_array_validate] asserts, on an array that may have
    fewer than [n_cells] cells. *)
Definition sync_array_counted (a : sync_array_t) : Prop :=
  sync_array_bounded a /\ count_reserved (array a) = n_reserved a.

(** A write to one cell that leaves the fields alone which are written
    under the mutex. *)
Definition stamped (a a' : sync_array_t) : Prop :=
  exists i c c',
    array a !! i = Some c /\ locked_fields c' = locked_fields c
    /\ a' = set_array a (<[i := c']> (array a)).

(** The condition [sync_array_validate] asserts. *)
Definition sync_array_inv (a : sync_array_t) : Prop :=
  sync_array_wf a /\ count_reserved (array a) = n_reserved a.

(** The write a thread makes next that has left the mutex inside
    [sync_array_reserve_cell] and has not returned yet. *)
Inductive stamp_phase : Type :=
| STAMP_SIGNAL_COUNT
| STAMP_RESERVATION_TIME
| STAMP_THREAD.

(** The array and its objects as all threads see them, and the threads that
    are inside [sync_array_reserve_cell] behind its [sync_array_exit], each
    with the cell it reserved and the write it makes next. *)
Record sync_system : Type := mk_system {
  shared : sync_state;
  stamping : gmap Z (Z * stamp_phase)
}.

(** One step of one thread: a critical section of the wait array, which the
    array mutex keeps in one piece; one of the writes a reserving thread
    makes after it has left the mutex; or a change that code outside the
    array makes to the waited-for objects.  A thread that sleeps in
    [os_event_wait_low] takes no step; [sync_array_free_cell], with which
    its wait ends, is also what a thread calls instead of waiting, so it is
    a step on its own. *)
Inductive sync_step : sync_system -> sync_system -> Prop :=
| step_reserve_locked sys object type file line self s' found :
    stamping sys !! self = None ->
    reserve_cell_locked (shared sys) object type file line
    = Ret (s', found) ->
    sync_step sys
      (mk_system s'
         (match found with
          | Some i => <[self := (i, STAMP_SIGNAL_COUNT)]> (stamping sys)
          | None => stamping sys
          end))
| step_reserve_signal_count sys self i s' :
    stamping sys !! self = Some (i, STAMP_SIGNAL_COUNT) ->
    reserve_cell_signal_count (shared sys) i = Ret s' ->
    sync_step sys
      (mk_system s' (<[self := (i, STAMP_RESERVATION_TIME)]> (stamping sys)))
| step_reserve_reservation_time sys self i now s' :
    stamping sys !! self = Some (i, STAMP_RESERVATION_TIME) ->
    reserve_cell_reservation_time (shared sys) i now = Ret s' ->
    sync_step sys
      (mk_system s' (<[self := (i, STAMP_THREAD)]> (stamping sys)))
| step_reserve_thread sys self i s' :
    stamping sys !! self = Some (i, STAMP_THREAD) ->
    reserve_cell_thread (shared sys) i self = Ret s' ->
    sync_step sys (mk_system s' (delete self (stamping sys)))
| step_wait_enter b sys index self s' ev :
    stamping sys !! self = None ->
    sync_array_wait_event_enter b (shared sys) index self = Ret (s', ev) ->
    sync_step sys (mk_system s' (stamping sys))
| step_free_cell sys index s' :
    sync_array_free_cell (shared sys) index = Ret s' ->
    sync_step sys (mk_system s' (stamping sys))
| step_wake sys s' signalled :
    sync_array_wake_threads_if_sema_free_low (shared sys)
    = Ret (s', signalled) ->
    sync_step sys (mk_system s' (stamping sys))
| step_validate sys a' :
    sync_array_validate (arr (shared sys)) = Ret a' ->
    sync_step sys (mk_system (mk_state a' (objects (shared sys)))
                     (stamping sys))
| step_objects sys h' :
    sync_step sys (mk_system (mk_state (arr (shared sys)) h')
                     (stamping sys)).

(** What a scan for the first cell that satisfies [P] returns. *)
Definition first_from (P : sync_cell_t -> bool) (a : sync_array_t) (i : Z)
    (r : option Z) : Prop :=
  match r with
  | Some j =>
      i <= j < n_cells a
      /\ (exists c, array a !! Z.to_nat j = Some c /\ P c = true)
      /\ (forall k c, i <= k < j -> array a !! Z.to_nat k = Some c ->
                      P c = false)
  | None =>
      forall k c, i <= k -> array a !! Z.to_nat k = Some c -> P c = false
  end.

(** The states a wait array of [n] cells can be in: those that steps of
    threads lead to from a new array, on which no thread is at work. *)
Definition reachable (n : Z) (s : sync_state) : Prop :=
  exists m m' a0 h0 sys,
    sync_array_create m n = Ret (m', a0)
    /\ rtc sync_step (mk_system (mk_state a0 h0) ∅) sys
    /\ shared sys = s.

End Invariant.

(** ** The release predicate of the unstick sweep, as the spec words it *)

(** The event a cell waits on, by request type. *)
Definition cell_event (c : sync_cell_t) : os_event_t :=
  match request_type c with
  | SYNC_MUTEX => (wait_object c, MUTEX_EVENT)
  | RW_LOCK_WAIT_EX => (wait_object c, RW_WAIT_EX_EVENT)
  | _ => (wait_object c, RW_EVENT)
  end.

(** "For a MUTEX request, the mutex's lock_word equals 0; for an RWL_SHARED
    request, the rw-lock's lock_word is greater than 0; for an RWL_EXCLUSIVE
    request, the rw-lock's lock_word is greater than 0; for an
    RWL_WAIT_EXCLUSIVE request, the rw-lock's lock_word equals 0." *)
Definition release_predicate (h : heap) (c : sync_cell_t) : Prop :=
  match request_type c with
  | SYNC_MUTEX =>
      exists m, h !! wait_object c = Some (Mutex m) /\ m_lock_word m = 0
  | RW_LOCK_SHARED =>
      exists l, h !! wait_object c = Some (RwLock l) /\ l_lock_word l > 0
  | RW_LOCK_EX =>
      exists l, h !! wait_object c = Some (RwLock l) /\ l_lock_word l > 0
  | RW_LOCK_WAIT_EX =>
      exists l, h !! wait_object c = Some (RwLock l) /\ l_lock_word l = 0
  | LOCK_CODE _ => False
  end.

(** The wait object of the cell is an object of the kind its request type
    says. *)
Definition cell_typed (h : heap) (c : sync_cell_t) : Prop :=
  match request_type c with
  | SYNC_MUTEX => exists m, h !! wait_object c = Some (Mutex m)
  | LOCK_CODE _ => True
  | _ => exists l, h !! wait_object c = Some (RwLock l)
  end.

Definition cells_typed (h : heap) (a : sync_array_t) : Prop :=
  forall k c, array a !! k = Some c -> cell_reserved c = true ->
              cell_typed h c.

(** The event the sweep sets for a cell, if it sets one. *)
Definition wake_up_event (h : heap) (c : sync_cell_t) : option os_event_t :=
  if cell_reserved c then
    match sync_arr_cell_can_wake_up h c with
    | Ret true => Some (cell_event c)
    | _ => None
    end
  else None.

(** [os_event_set] on each event of a list, in order. *)
Fixpoint set_events (h : heap) (evs : list os_event_t) : outcome heap :=
  match evs with
  | [] => Ret h
  | e :: evs' => h' ← os_event_set h e; set_events h' evs'
  end.

(** Two heaps that differ in the state of events only. *)
Definition same_locks (h h' : heap) : Prop :=
  forall p,
    match h !! p, h' !! p with
    | Some (Mutex m), Some (Mutex m') =>
        m_lock_word m = m_lock_word m' /\ m_thread_id m = m_thread_id m'
    | Some (RwLock l), Some (RwLock l') =>
        l_lock_word l = l_lock_word l' /\ l_debug_list l = l_debug_list l'
    | None, None => True
    | _, _ => False
    end.

(** The object handed to [sync_array_reserve_cell] is what the request type
    says: a mutex for SYNC_MUTEX, an rw-lock otherwise. *)
Definition object_typed (h : heap) (object : Z) (type : lock_code) : Prop :=
  match type with
  | SYNC_MUTEX => exists m, h !! object = Some (Mutex m)
  | _ => exists l, h !! object = Some (RwLock l)
  end.

(** ** The waits-for relation the deadlock search follows *)

(** "For an exclusive request, every holder (reader or writer) whose thread
    differs from the requester": the entries of the debug list an exclusive
    request follows according to the spec. *)
Definition spec_visit_for_ex (cell : sync_cell_t) (debug : rw_lock_debug_t)
  : bool :=
  (bool_decide (d_lock_type debug = RW_LOCK_EX)
   || bool_decide (d_lock_type debug = RW_LOCK_WAIT_EX)
   || bool_decide (d_lock_type debug = RW_LOCK_SHARED))
  && negb (d_thread_id debug =? thread cell).

(** Thread [thr] holds what the owner of cell [c] waits for: the owner of a
    locked mutex, or the thread of an entry of the rw-lock's debug list that
    the request follows ([ex_rule] for an exclusive request) and that names
    its thread ([pass = 0]). *)
Definition holder_of (ex_rule : sync_cell_t -> rw_lock_debug_t -> bool)
    (h : heap) (c : sync_cell_t) (thr : Z) : Prop :=
  match request_type c with
  | SYNC_MUTEX =>
      exists m, as_mutex h (wait_object c) = Ret m
                /\ m_lock_word m <> 0 /\ thr = m_thread_id m
  | RW_LOCK_EX | RW_LOCK_WAIT_EX =>
      exists l debug, as_rw_lock h (wait_object c) = Ret l
                      /\ debug ∈ l_debug_list l
                      /\ ex_rule c debug = true
                      /\ d_pass debug = 0 /\ thr = d_thread_id debug
  | RW_LOCK_SHARED =>
      exists l debug, as_rw_lock h (wait_object c) = Ret l
                      /\ debug ∈ l_debug_list l
                      /\ visit_for_shared debug = true
                      /\ d_pass debug = 0 /\ thr = d_thread_id debug
  | LOCK_CODE _ => False
  end.

(** From cell [cell], following wait object, holder thread and the holder's
    cell through waiting cells leads back to cell [start]. *)
Inductive wait_chain (ex_rule : sync_cell_t -> rw_lock_debug_t -> bool)
    (s : sync_state) (start : Z) : Z -> Prop :=
| chain_back cell c thr :
    cell_at (arr s) cell = Ret c -> waiting c = true ->
    holder_of ex_rule (objects s) c thr ->
    sync_array_find_thread (arr s) thr = Ret (Some start) ->
    wait_chain ex_rule s start cell
| chain_next cell c thr next :
    cell_at (arr s) cell = Ret c -> waiting c = true ->
    holder_of ex_rule (objects s) c thr ->
    sync_array_find_thread (arr s) thr = Ret (Some next) ->
    next <> start ->
    wait_chain ex_rule s start next ->
    wait_chain ex_rule s start cell.

(** ** Shutdown, the set of instances and the round robin over them *)

Section WaitArrayInstances.
Context `{W : ulint_width}.

(** [sync_array_free]: [ut_a(arr->n_reserved == 0)] and the validation; the
    OS mutex and the memory are given back afterwards. *)
Definition sync_array_free (a : sync_array_t) : outcome unit :=
  _ ← ut_a (n_reserved a =? 0);
  _ ← sync_array_validate a;
  Ret tt.

(** [sync_wait_array[i]].  The global is [None] while it is NULL; reading
    through NULL or behind the allocated pointers is a [Fault]. *)
Definition nth_instance (sync_wait_array : option (list sync_array_t)) (i : Z)
  : outcome sync_array_t :=
  match sync_wait_array with
  | Some arrs =>
      match arrs !! Z.to_nat i with
      | Some a => if 0 <=? i then Ret a else Fault
      | None => Fault
      end
  | None => Fault
  end.

(** [sync_wait_array[i]] after a call that changed the instance in place. *)
Definition store_instance (sync_wait_array : option (list sync_array_t))
    (i : Z) (a : sync_array_t) : option (list sync_array_t) :=
  (fun arrs => <[Z.to_nat i := a]> arrs) <$> sync_wait_array.

(** The loop of [sync_array_close]:
    [for (i = 0; i < sync_array_size; ++i) sync_array_free(sync_wait_array[i])]. *)
Fixpoint close_loop (rem : nat) (sync_wait_array : option (list sync_array_t))
    (i : Z) : outcome unit :=
  match rem with
  | O => Ret tt
  | S rem' =>
      a ← nth_instance sync_wait_array i;
      _ ← sync_array_free a;
      close_loop rem' sync_wait_array (i + 1)
  end.

(** [sync_array_close]: every instance is freed, then [sync_wait_array] is
    set to NULL; the result is the new value of the global. *)
Definition sync_array_close (sync_array_size : Z)
    (sync_wait_array : option (list sync_array_t))
  : outcome (option (list sync_array_t)) :=
  _ ← close_loop (Z.to_nat sync_array_size) sync_wait_array 0;
  Ret None.

(** The loop of [sync_arr_wake_threads_if_sema_free]; the instances share
    the memory [h] their wait objects live in.  The loop can come to a halt
    in front of an instance whose mutex is held, after it has swept others,
    so the result is the memory and the events set up to the instance at
    which the loop ends or halts, and how it ended: [Ret] with the
    instances, or [Blocked] while it waits for the mutex of that instance.
    (After [Abort] and [Fault] no thread runs any more; what the sweep did
    inside the instance at which it stopped is then left out.) *)
Fixpoint wake_all_loop (rem : nat)
    (sync_wait_array : option (list sync_array_t)) (i : Z) (h : heap)
    (signalled : list os_event_t)
  : heap * list os_event_t * outcome (option (list sync_array_t)) :=
  match rem with
  | O => (h, signalled, Ret sync_wait_array)
  | S rem' =>
      match a ← nth_instance sync_wait_array i;
            sync_array_wake_threads_if_sema_free_low (mk_state a h) with
      | Ret (s', evs) =>
          wake_all_loop rem' (store_instance sync_wait_array i (arr s'))
            (i + 1) (objects s') (signalled ++ evs)
      | Abort => (h, signalled, Abort)
      | Fault => (h, signalled, Fault)
      | Blocked => (h, signalled, Blocked)
      end
  end.

(** [sync_arr_wake_threads_if_sema_free]: the sweep over each instance in
    turn.  The result is the memory, the events that were set, and the
    instances when the call returns. *)
Definition sync_arr_wake_threads_if_sema_free (sync_array_size : Z)
    (sync_wait_array : option (list sync_array_t)) (h : heap)
  : heap * list os_event_t * outcome (option (list sync_array_t)) :=
  wake_all_loop (Z.to_nat sync_array_size) sync_wait_array 0 h [].

(** [sync_array_get].  [count] is the function's static counter.  With
    HAVE_ATOMIC_BUILTINS the index is taken from the value that
    [os_atomic_increment_ulint] returns, the incremented counter; without,
    [i = count++] takes the counter before the increment.  The result is the
    new counter and the instance, named by its position in
    [sync_wait_array].  [i % 0] is undefined: a [Fault]. *)
Definition sync_array_get (HAVE_ATOMIC_BUILTINS : bool) (sync_array_size : Z)
    (sync_wait_array : option (list sync_array_t)) (count : Z)
  : outcome (Z * Z) :=
  let count' := ulint_incr count in
  let i := if HAVE_ATOMIC_BUILTINS then count' else count in
  if sync_array_size =? 0 then Fault
  else
    _ ← nth_instance sync_wait_array (i mod sync_array_size);
    Ret (count', i mod sync_array_size).

(** The instances that [n] calls of [sync_array_get] in a row return. *)
Fixpoint sync_array_get_calls (HAVE_ATOMIC_BUILTINS : bool)
    (sync_array_size : Z) (sync_wait_array : option (list sync_array_t))
    (n : nat) (count : Z) : outcome (Z * list Z) :=
  match n with
  | O => Ret (count, [])
  | S n' =>
      '(count1, k) ← sync_array_get HAVE_ATOMIC_BUILTINS sync_array_size
                       sync_wait_array count;
      '(count2, ks) ← sync_array_get_calls HAVE_ATOMIC_BUILTINS
                        sync_array_size sync_wait_array n' count1;
      Ret (count2, k :: ks)
  end.

(** [sync_arr_get_n_items]: the number of cells of the instance that
    [sync_array_get] hands out, and the new counter. *)
Definition sync_arr_get_n_items (HAVE_ATOMIC_BUILTINS : bool)
    (sync_array_size : Z) (sync_wait_array : option (list sync_array_t))
    (count : Z) : outcome (Z * Z) :=
  '(count', k) ← sync_array_get HAVE_ATOMIC_BUILTINS sync_array_size
                   sync_wait_array count;
  sync_arr ← nth_instance sync_wait_array k;
  Ret (count', n_cells sync_arr).

(** [sync_arr_get_item].  [Some (k, i)] stands for TRUE with [*cell]
    pointing at cell [i] of instance [k]; [None] for FALSE with [*cell]
    untouched.  The pointer [wait_cell] is [arr->array + i], never NULL, so
    the test [if (wait_cell)] always passes. *)
Definition sync_arr_get_item (HAVE_ATOMIC_BUILTINS : bool)
    (sync_array_size : Z) (sync_wait_array : option (list sync_array_t))
    (count : Z) (i : Z) : outcome (Z * option (Z * Z)) :=
  '(count', k) ← sync_array_get HAVE_ATOMIC_BUILTINS sync_array_size
                   sync_wait_array count;
  sync_arr ← nth_instance sync_wait_array k;
  wait_cell ← sync_array_get_nth_cell sync_arr i;
  if negb (wait_object wait_cell =? NULL) && waiting wait_cell
  then Ret (count', Some (k, i))
  else Ret (count', None).

End WaitArrayInstances.

(** ** Reports of long semaphore waits *)

(** What the reporting functions take from outside this tree. *)
Class diagnostics_env := {
  (* [rwlock->writer_thread] when [rw_lock_get_writer(rwlock)] is neither 0
     nor RW_LOCK_NOT_LOCKED, nothing otherwise (sync0rw.h, sync0rw.ic) *)
  rw_lock_writer : rw_lock_t -> option Z;
  (* univ.i *)
  ULINT_UNDEFINED : Z;
  (* srv0srv.h *)
  SRV_SEMAPHORE_WAIT_EXTENSION : Z;
  (* whether the build defines UNIV_DEBUG_VALGRIND *)
  UNIV_DEBUG_VALGRIND : bool;
  (* [difftime(t1, t0)] of the C library: the seconds from [t0] to [t1] as a
     [double].  Times count whole seconds, so the value is a whole number,
     the difference [t1 - t0] or, when that does not fit the 53 bits of a
     [double], what the library rounds it to *)
  difftime : Z -> Z -> Z;
  (* the [double] a [ulint] is converted to when it is compared with one:
     the number itself or, above 2^53, what the target rounds it to *)
  ulint_to_double : Z -> Z
}.

(** The locals and out-parameters of [sync_array_print_long_waits_low].
    A [double] that holds a whole number is represented by that number. *)
Record long_waits : Type := mk_long_waits {
  lw_fatal : bool;
  lw_longest_diff : Z;    (* double *)
  lw_waiter : Z;          (* *waiter *)
  lw_sema : Z;            (* *sema *)
  lw_noticed : bool       (* *noticed *)
}.

(** A call that may stop, followed by code that may run out of budget. *)
Definition obind {A B} (m : outcome A) (k : A -> option (outcome B))
  : option (outcome B) :=
  match m with
  | Ret a => k a
  | Abort => Some Abort
  | Fault => Some Fault
  | Blocked => Some Blocked
  end.

(** Two pieces of such code in a row. *)
Definition othen {A B} (m : option (outcome A))
    (k : A -> option (outcome B)) : option (outcome B) :=
  match m with
  | Some r => obind r k
  | None => None
  end.

Section Diagnostics.
Context `{W : ulint_width} `{E : diagnostics_env}.

Definition SYNC_ARRAY_TIMEOUT : Z :=
  if UNIV_DEBUG_VALGRIND then 2400 else 240.

(** [sync_array_cell_print] without the text it writes: the objects it
    reads, its [ut_error], and what [*reserver] holds afterwards. *)
Definition sync_array_cell_print (h : heap) (cell : sync_cell_t)
    (reserver : Z) : outcome Z :=
  match request_type cell with
  | SYNC_MUTEX =>
      if negb (old_wait_mutex cell =? NULL)
      then _ ← as_mutex h (old_wait_mutex cell); Ret reserver
      else Ret reserver
  | RW_LOCK_EX | RW_LOCK_WAIT_EX | RW_LOCK_SHARED =>
      if negb (old_wait_rw_lock cell =? NULL)
      then
        rwlock ← as_rw_lock h (old_wait_rw_lock cell);
        Ret (match rw_lock_writer rwlock with
             | Some writer_thread => writer_thread
             | None => reserver
             end)
      else Ret reserver
  | LOCK_CODE _ => Abort
  end.

(** The first loop of [sync_array_print_long_waits_low].  [now] is what
    [time(NULL)] returns while the function runs.  [diff] and
    [longest_diff] are [double]s; SYNC_ARRAY_TIMEOUT converts to a [double]
    as it is and [fatal_timeout], a [ulint], through [ulint_to_double]. *)
Fixpoint long_waits_loop (rem : nat) (a : sync_array_t) (h : heap)
    (now fatal_timeout : Z) (i : Z) (r : long_waits) : outcome long_waits :=
  match rem with
  | O => Ret r
  | S rem' =>
      cell ← sync_array_get_nth_cell a i;
      if (wait_object cell =? NULL) || negb (waiting cell)
      then long_waits_loop rem' a h now fatal_timeout (i + 1) r
      else
        let diff := difftime now (reservation_time cell) in
        r1 ← (if SYNC_ARRAY_TIMEOUT <? diff
              then
                _ ← sync_array_cell_print h cell 0;
                Ret (mk_long_waits (lw_fatal r) (lw_longest_diff r)
                       (lw_waiter r) (lw_sema r) true)
              else Ret r);
        let r2 :=
          if ulint_to_double fatal_timeout <? diff
          then mk_long_waits true (lw_longest_diff r1) (lw_waiter r1)
                 (lw_sema r1) (lw_noticed r1)
          else r1 in
        let r3 :=
          if lw_longest_diff r2 <? diff
          then mk_long_waits (lw_fatal r2) diff (thread cell)
                 (wait_object cell) (lw_noticed r2)
          else r2 in
        long_waits_loop rem' a h now fatal_timeout (i + 1) r3
  end.


(** The loop [while (reserver != ULINT_UNDEFINED)] of
    [sync_array_print_long_waits_low], which follows the writer of the
    rw-lock a cell waits for to the cell that writer waits in.  [None]: the
    budget [fuel] was too small. *)
Fixpoint writer_chain_low (fuel : nat) (a : sync_array_t) (h : heap)
    (reserver loop : Z) : option (outcome unit) :=
  if reserver =? ULINT_UNDEFINED then Some (Ret tt)
  else
    match fuel with
    | O => None
    | S fuel' =>
        (* [if (loop > 100) break;] and back to the loop condition *)
        let next reserver loop :=
          if 100 <? loop then Some (Ret tt)
          else writer_chain_low fuel' a h reserver loop in
        obind (sync_array_find_thread a reserver) (fun found =>
          match found with
          | Some j =>
              obind (cell_at a j) (fun reserver_wait =>
                if negb (wait_object reserver_wait =? NULL)
                   && waiting reserver_wait
                then
                  obind (sync_array_cell_print h reserver_wait
                           ULINT_UNDEFINED)
                    (fun reserver1 =>
                       let loop1 := ulint_incr loop in
                       if thread reserver_wait =? reserver1
                       then next ULINT_UNDEFINED loop1
                       else next reserver1 loop1)
                else next ULINT_UNDEFINED loop)
          | None => next ULINT_UNDEFINED loop
          end)
    end.

(** The second loop of [sync_array_print_long_waits_low], entered when a
    long wait was noticed. *)
Fixpoint semaphore_waits_loop (fuel : nat) (rem : nat) (a : sync_array_t)
    (h : heap) (i : Z) : option (outcome unit) :=
  match rem with
  | O => Some (Ret tt)
  | S rem' =>
      obind (sync_array_get_nth_cell a i) (fun cell =>
        if (wait_object cell =? NULL) || negb (waiting cell)
        then semaphore_waits_loop fuel rem' a h (i + 1)
        else
          obind (sync_array_cell_print h cell ULINT_UNDEFINED)
            (fun reserver =>
               othen (writer_chain_low fuel a h reserver 0)
                 (fun _ => semaphore_waits_loop fuel rem' a h (i + 1))))
  end.

(** [sync_array_print_long_waits_low] with a budget for the loops that
    follow writers.  [threshold] is [srv_fatal_semaphore_wait_threshold];
    [waiter], [sema] and [noticed] are the out-parameters as the caller
    passes them.  The result is the return value with the out-parameters
    as the function leaves them, in a [long_waits]. *)
Definition sync_array_print_long_waits_low_fuel (fuel : nat)
    (a : sync_array_t) (h : heap) (now threshold : Z) (waiter sema : Z)
    (noticed : bool) : option (outcome long_waits) :=
  let fatal_timeout := threshold in
  if SRV_SEMAPHORE_WAIT_EXTENSION <? fatal_timeout
  then Some (Ret (mk_long_waits false 0 waiter sema noticed))
  else
    let fatal_timeout :=
      if UNIV_DEBUG_VALGRIND then ulint_wrap (fatal_timeout * 10)
      else fatal_timeout in
    obind (long_waits_loop (Z.to_nat (n_cells a)) a h now fatal_timeout 0
             (mk_long_waits false 0 waiter sema noticed))
      (fun r =>
         othen (if lw_noticed r
                then semaphore_waits_loop fuel (Z.to_nat (n_cells a)) a h 0
                else Some (Ret tt))
           (fun _ => Some (Ret r))).

(** Every round of the writer loop but the last increments [loop], and the
    loop is left when [loop] exceeds 100: 103 rounds are a sufficient
    budget. *)
Definition sync_array_print_long_waits_low (a : sync_array_t) (h : heap)
    (now threshold : Z) (waiter sema : Z) (noticed : bool)
  : outcome long_waits :=
  match sync_array_print_long_waits_low_fuel 103 a h now threshold waiter
          sema noticed with
  | Some r => r
  | None => Abort
  end.



(** The loop [while (reserver != ULINT_UNDEFINED)] of
    [sync_array_print_innodb]: [loop] is tested but never incremented, and
    [reserver] is not reset before the cell is printed. *)
Fixpoint writer_chain_innodb (fuel : nat) (a : sync_array_t) (h : heap)
    (reserver loop : Z) : option (outcome unit) :=
  if reserver =? ULINT_UNDEFINED then Some (Ret tt)
  else
    match fuel with
    | O => None
    | S fuel' =>
        let next reserver :=
          if 100 <? loop then Some (Ret tt)
          else writer_chain_innodb fuel' a h reserver loop in
        obind (sync_array_find_thread a reserver) (fun found =>
          match found with
          | Some j =>
              obind (cell_at a j) (fun reserver_wait =>
                if negb (wait_object reserver_wait =? NULL)
                   && waiting reserver_wait
                then
                  obind (sync_array_cell_print h reserver_wait reserver)
                    (fun reserver1 =>
                       if thread reserver_wait =? reserver1
                       then next ULINT_UNDEFINED
                       else next reserver1)
                else next ULINT_UNDEFINED)
          | None => next ULINT_UNDEFINED
          end)
    end.

(** The loop of [sync_array_print_innodb] over the cells. *)
Fixpoint print_innodb_loop (fuel : nat) (rem : nat) (a : sync_array_t)
    (h : heap) (i : Z) : option (outcome unit) :=
  match rem with
  | O => Some (Ret tt)
  | S rem' =>
      obind (sync_array_get_nth_cell a i) (fun cell =>
        if (wait_object cell =? NULL) || negb (waiting cell)
        then print_innodb_loop fuel rem' a h (i + 1)
        else
          obind (sync_array_cell_print h cell ULINT_UNDEFINED)
            (fun reserver =>
               othen (writer_chain_innodb fuel a h reserver 0)
                 (fun _ => print_innodb_loop fuel rem' a h (i + 1))))
  end.

(** [sync_array_print_innodb], which takes no mutex, with a budget for its
    writer loops: the new counter of [sync_array_get]. *)
Definition sync_array_print_innodb (fuel : nat) (HAVE_ATOMIC_BUILTINS : bool)
    (sync_array_size : Z) (sync_wait_array : option (list sync_array_t))
    (count : Z) (h : heap) : option (outcome Z) :=
  obind (sync_array_get HAVE_ATOMIC_BUILTINS sync_array_size sync_wait_array
           count)
    (fun '(count', k) =>
       obind (nth_instance sync_wait_array k) (fun a =>
         othen (print_innodb_loop fuel (Z.to_nat (n_cells a)) a h 0)
           (fun _ => Some (Ret count')))).


End Diagnostics.

(** A cell the reports look at: reserved and marked waiting. *)
Definition cell_waits (c : sync_cell_t) : Prop :=
  wait_object c <> NULL /\ waiting c = true.



(** Number of cells of all instances together. *)
Definition total_cells (arrs : list sync_array_t) : Z :=
  foldr (fun a n => n_cells a + n) 0 arrs.

(** [k] waits for mutexes in a row, none of whose holders waits in the cell
    [start]: the owner of [cell] waits for a locked mutex, the holder of the
    mutex waits in another cell for the next mutex, and so on, [k] times;
    the last cell is only required to exist. *)
Inductive mutex_path (s : sync_state) (start : Z) : nat -> Z -> Prop :=
| path_end cell c :
    cell_at (arr s) cell = Ret c ->
    mutex_path s start 0 cell
| path_hop k cell c m next :
    cell_at (arr s) cell = Ret c ->
    cell_reserved c = true -> waiting c = true ->
    request_type c = SYNC_MUTEX ->
    as_mutex (objects s) (wait_object c) = Ret m ->
    m_lock_word m <> 0 ->
    sync_array_find_thread (arr s) (m_thread_id m) = Ret (Some next) ->
    next <> start ->
    mutex_path s start k next ->
    mutex_path s start (S k) cell.

(** ** The states of a control block (include/buf0buf.h) *)

Module BufState.

(** [enum buf_page_state]. *)
Inductive buf_page_state : Type :=
| BUF_BLOCK_POOL_WATCH
| BUF_BLOCK_ZIP_PAGE
| BUF_BLOCK_ZIP_DIRTY
| BUF_BLOCK_NOT_USED
| BUF_BLOCK_READY_FOR_USE
| BUF_BLOCK_FILE_PAGE
| BUF_BLOCK_MEMORY
| BUF_BLOCK_REMOVE_HASH.

#[global] Instance buf_page_state_eq_dec : EqDecision buf_page_state.
Proof. solve_decision. Defined.

(** The values of [enum buf_page_state], numbered from 0 in the order of
    the declaration. *)
Definition buf_page_state_code (st : buf_page_state) : Z :=
  match st with
  | BUF_BLOCK_POOL_WATCH => 0
  | BUF_BLOCK_ZIP_PAGE => 1
  | BUF_BLOCK_ZIP_DIRTY => 2
  | BUF_BLOCK_NOT_USED => 3
  | BUF_BLOCK_READY_FOR_USE => 4
  | BUF_BLOCK_FILE_PAGE => 5
  | BUF_BLOCK_MEMORY => 6
  | BUF_BLOCK_REMOVE_HASH => 7
  end.

Definition BUF_PAGE_STATE_BITS : Z := 3.

Definition MAX_BUFFER_POOLS_BITS : Z := 6.

(** [(1 << MAX_BUFFER_POOLS_BITS)]. *)
Definition MAX_BUFFER_POOLS : Z := Z.shiftl 1 MAX_BUFFER_POOLS_BITS.

(** What an unsigned bit-field of [bits] bits holds after [v] is assigned to
    it. *)
Definition bit_field_store (bits : Z) (v : Z) : Z := v mod 2 ^ bits.

(** [buf_block_state_valid], on the state that [buf_block_get_state] reads
    from the block. *)
Definition buf_block_state_valid (st : buf_page_state) : bool :=
  (buf_page_state_code BUF_BLOCK_NOT_USED <=? buf_page_state_code st)
  && (buf_page_state_code st <=? buf_page_state_code BUF_BLOCK_REMOVE_HASH).

End BufState.

(** ** States used in the examples (64-bit [ulint]) *)

Definition lp64 : ulint_width := 64%positive.

(** An allocator with a budget of bytes, which hands out a block as long as
    the budget covers it, and sizes as a 64-bit build may have them. *)
Definition demo_allocator : allocator :=
  {| alloc_state := Z;
     ut_malloc := fun m n => if n <=? m then Ret (m - n) else Abort;
     sizeof_sync_array_t := 96;
     sizeof_sync_cell_t := 80;
     sizeof_pointer := 8 |}.

(** Its state with 65536 bytes left. *)
Definition demo_memory : @alloc_state demo_allocator := 65536.

(** A locked mutex at address 16 whose event was signalled five times and an
    idle rw-lock at address 32. *)
Definition demo_heap : heap :=
  {[ 16 := Mutex (mk_mutex (mk_event true 5) 1 9);
     32 := RwLock (mk_rw_lock 0 (mk_event false 3) (mk_event false 0) []) ]}.

(** A new array of two cells. *)
Definition demo_fresh : sync_state :=
  mk_state (mk_array 0 2 [zero_cell; zero_cell] false 0) demo_heap.

(** After thread 7 reserved a cell for the mutex at time 100. *)
Definition demo_reserved : sync_state :=
  mk_state
    (mk_array 1 2
       [mk_cell 16 16 0 SYNC_MUTEX 11 12 7 false 5 100; zero_cell] false 1)
    (<[16 := Mutex (mk_mutex (mk_event false 5) 1 9)]> demo_heap).

(** The same after the holder of the mutex has released it and set its
    event. *)
Definition demo_signalled : sync_state :=
  mk_state (arr demo_reserved)
    (<[16 := Mutex (mk_mutex (mk_event true 6) 0 0)]> demo_heap).

(** Four cells: a waiter for a free mutex, a free cell, an x-lock waiter and
    a wait-x waiter for an rw-lock whose lock word is 0. *)
Definition sweep_state : sync_state :=
  mk_state
    (mk_array 3 4
       [mk_cell 16 16 0 SYNC_MUTEX 0 0 7 true 5 0;
        zero_cell;
        mk_cell 32 0 32 RW_LOCK_EX 0 0 8 true 3 0;
        mk_cell 32 0 32 RW_LOCK_WAIT_EX 0 0 9 true 1 0]
       false 3)
    {[ 16 := Mutex (mk_mutex (mk_event false 5) 0 0);
       32 := RwLock (mk_rw_lock 0 (mk_event false 3) (mk_event false 1) []) ]}.

(** Thread 1 holds the rw-lock at 32 in x-mode and waits for an s-lock on the
    rw-lock at 48; thread 2 holds 48 in x-mode and waits for an x-lock on
    32. *)
Definition deadlock_state : sync_state :=
  mk_state
    (mk_array 2 2
       [mk_cell 48 0 48 RW_LOCK_SHARED 0 0 1 true 0 0;
        mk_cell 32 0 32 RW_LOCK_EX 0 0 2 true 0 0]
       false 2)
    {[ 32 := RwLock (mk_rw_lock 0 (mk_event false 0) (mk_event false 0)
                       [mk_debug 1 0 RW_LOCK_EX]);
       48 := RwLock (mk_rw_lock 0 (mk_event false 0) (mk_event false 0)
                       [mk_debug 2 0 RW_LOCK_EX]) ]}.

(** Thread 7 holds an s-lock on the rw-lock at 32 and has reserved a cell to
    wait for an x-lock on it. *)
Definition upgrade_reserved : sync_state :=
  mk_state
    (mk_array 1 1 [mk_cell 32 0 32 RW_LOCK_EX 0 0 7 false 0 0] false 1)
    {[ 32 := RwLock (mk_rw_lock 99 (mk_event false 0) (mk_event false 0)
                       [mk_debug 7 0 RW_LOCK_SHARED]) ]}.

(** The same once the cell is marked waiting. *)
Definition upgrade_state : sync_state :=
  mk_state
    (mk_array 1 1 [mk_cell 32 0 32 RW_LOCK_EX 0 0 7 true 0 0] true 1)
    (objects upgrade_reserved).

(** An array of one cell that thread 7 reserves for the mutex at 16 and
    frees again, over and over; [n] is the reservation total. *)
Definition wrap_heap : heap :=
  {[ 16 := Mutex (mk_mutex (mk_event false 0) 1 9) ]}.

Definition wrap_state (n : Z) : sync_state :=
  mk_state
    (mk_array 0 1 [mk_cell NULL 16 0 SYNC_MUTEX 0 0 7 false 0 0] false n)
    wrap_heap.

Definition held_state (n : Z) : sync_state :=
  mk_state
    (mk_array 1 1 [mk_cell 16 16 0 SYNC_MUTEX 0 0 7 false 0 0] false n)
    wrap_heap.

(** ** More states of the wait array used in the examples *)

(** Two cells of which one is reserved, while [n_reserved] says two. *)
Definition miscounted_state : sync_state :=
  mk_state
    (mk_array 2 2
       [mk_cell 16 16 0 SYNC_MUTEX 0 0 7 true 5 0; zero_cell] false 1)
    demo_heap.

(** Threads that wait in a row: thread [i + 1] waits in cell [i] for the
    mutex at address [i + 1], which thread [i + 2] holds. *)
Definition chain_cell (waits : bool) (i : nat) : sync_cell_t :=
  mk_cell (Z.of_nat i + 1) (Z.of_nat i + 1) 0 SYNC_MUTEX 0 0
    (Z.of_nat i + 1) waits 0 0.

Definition chain_mutex (i : nat) : ib_mutex_t :=
  mk_mutex (mk_event false 0) 1 (Z.of_nat i + 2).

Definition chain_heap (n : nat) : heap :=
  list_to_map ((fun i => (Z.of_nat i + 1, Mutex (chain_mutex i))) <$> seq 0 n).

(** [n] such threads, seen by the first of them from inside its
    [sync_array_wait_event]. *)
Definition chain_state (n : nat) : sync_state :=
  mk_state
    (mk_array (Z.of_nat n) (Z.of_nat n) (chain_cell true <$> seq 0 n) true
       (Z.of_nat n))
    (chain_heap n).

(** The same just before the first thread calls [sync_array_wait_event]. *)
Definition chain_entry (n : nat) : sync_state :=
  mk_state
    (mk_array (Z.of_nat n) (Z.of_nat n)
       (chain_cell false 0 :: (chain_cell true <$> seq 1 (n - 1))) false
       (Z.of_nat n))
    (chain_heap n).

(** ** A build and states for the reports of long waits *)

(** The writer of an rw-lock, read off its debug list: the thread of the
    first entry, when that entry is an x-lock or a wait-x-lock. *)
Definition demo_writer (l : rw_lock_t) : option Z :=
  match l_debug_list l with
  | d :: _ => if visit_for_shared d then Some (d_thread_id d) else None
  | [] => None
  end.

(** A 64-bit build without Valgrind, with the extension of the fatal
    threshold at 7200 seconds, used with times and thresholds below 2^53,
    where [difftime] and the conversion to [double] are exact. *)
Definition demo_env : diagnostics_env :=
  {| rw_lock_writer := demo_writer;
     ULINT_UNDEFINED := 18446744073709551615;
     SRV_SEMAPHORE_WAIT_EXTENSION := 7200;
     UNIV_DEBUG_VALGRIND := false;
     difftime := fun t1 t0 => t1 - t0;
     ulint_to_double := fun n => n |}.





(** * Properties *)

Section WaitArrayFacts.
Context `{W : ulint_width} `{M : allocator}.

Lemma ULINT_MODULUS_pos : 0 < ULINT_MODULUS.
Proof. unfold ULINT_MODULUS. apply Z.pow_pos_nonneg; lia. Qed.

Lemma ulint_incr_small x : 0 <= x < ULINT_MAX -> ulint_incr x = x + 1.
Proof.
  intros H. unfold ulint_incr, ulint_wrap, ULINT_MAX in *.
  apply Z.mod_small. lia.
Qed.

Lemma ulint_decr_small x : 0 < x <= ULINT_MAX -> ulint_decr x = x - 1.
Proof.
  intros H. unfold ulint_decr, ulint_wrap, ULINT_MAX in *.
  apply Z.mod_small. lia.
Qed.

Lemma ulint_incr_max : ulint_incr ULINT_MAX = 0.
Proof.
  unfold ulint_incr, ulint_wrap, ULINT_MAX.
  replace (ULINT_MODULUS - 1 + 1) with (1 * ULINT_MODULUS) by lia.
  apply Z.mod_mul. pose proof ULINT_MODULUS_pos. lia.
Qed.

(** *** Counting reserved cells *)

Lemma count_reserved_nonneg cells : 0 <= count_reserved cells.
Proof. induction cells as [|c cells IH]; simpl; [lia|]. destruct (cell_reserved c); lia. Qed.

Lemma count_reserved_le_length cells :
  count_reserved cells <= Z.of_nat (length cells).
Proof.
  induction cells as [|c cells IH]; simpl; [lia|].
  destruct (cell_reserved c); lia.
Qed.

Lemma count_reserved_insert cells i c c' :
  cells !! i = Some c ->
  count_reserved (<[i := c']> cells)
  = count_reserved cells
    - (if cell_reserved c then 1 else 0) + (if cell_reserved c' then 1 else 0).
Proof.
  revert i. induction cells as [|x cells IH]; intros [|i] Hi; simpl in *;
    try discriminate.
  - injection Hi as ->. lia.
  - rewrite (IH i Hi). lia.
Qed.

Lemma count_reserved_replicate n :
  count_reserved (replicate n zero_cell) = 0.
Proof. induction n as [|n IH]; simpl; [reflexivity|]. rewrite IH. reflexivity. Qed.

Lemma count_reserved_drop cells i c :
  cells !! i = Some c ->
  count_reserved (drop i cells)
  = (if cell_reserved c then 1 else 0) + count_reserved (drop (S i) cells).
Proof.
  revert i. induction cells as [|x cells IH]; intros [|i] Hi; simpl in *;
    try discriminate.
  - injection Hi as ->. rewrite drop_0. reflexivity.
  - apply (IH i Hi).
Qed.

(** *** Reading cells *)

Lemma cell_at_ret a i c :
  cell_at a i = Ret c -> 0 <= i /\ array a !! Z.to_nat i = Some c.
Proof.
  unfold cell_at. destruct (array a !! Z.to_nat i) eqn:Hc; [|discriminate].
  destruct (0 <=? i) eqn:Hi; [|discriminate].
  intros [= ->]. split; [lia|reflexivity].
Qed.

Lemma cell_at_lookup a i c :
  0 <= i -> array a !! Z.to_nat i = Some c -> cell_at a i = Ret c.
Proof.
  intros Hi Hc. unfold cell_at. rewrite Hc.
  destruct (0 <=? i) eqn:Hi'; [reflexivity|lia].
Qed.

Lemma get_nth_cell_ret a i c :
  sync_array_get_nth_cell a i = Ret c ->
  0 <= i < n_cells a /\ array a !! Z.to_nat i = Some c.
Proof.
  unfold sync_array_get_nth_cell, ut_a.
  destruct (i <? n_cells a) eqn:Hlt; simpl; [|discriminate].
  intros H. apply cell_at_ret in H. split; [lia|tauto].
Qed.

Lemma get_nth_cell_wf a i :
  sync_array_wf a -> 0 <= i < n_cells a ->
  exists c, array a !! Z.to_nat i = Some c
            /\ sync_array_get_nth_cell a i = Ret c.
Proof.
  intros (Hlen & _) Hi.
  destruct (lookup_lt_is_Some_2 (array a) (Z.to_nat i)) as [c Hc]; [lia|].
  exists c. split; [exact Hc|].
  unfold sync_array_get_nth_cell, ut_a.
  destruct (i <? n_cells a) eqn:Hlt; [|lia]. simpl.
  apply cell_at_lookup; [lia|exact Hc].
Qed.

Lemma get_nth_cell_abort a i :
  n_cells a <= i -> sync_array_get_nth_cell a i = Abort.
Proof.
  intros Hi. unfold sync_array_get_nth_cell, ut_a.
  destruct (i <? n_cells a) eqn:Hlt; [lia|]. reflexivity.
Qed.

(** *** The loops over the cells *)

Lemma validate_loop_count a rem i count :
  sync_array_wf a -> 0 <= i -> i + Z.of_nat rem = n_cells a ->
  0 <= count ->
  count + count_reserved (drop (Z.to_nat i) (array a)) <= ULINT_MAX ->
  validate_loop rem a i count
  = Ret (count + count_reserved (drop (Z.to_nat i) (array a))).
Proof.
  intros Hwf. revert i count.
  induction rem as [|rem IH]; intros i count Hi Hrem Hc Hmax; simpl.
  - destruct Hwf as (Hlen & _).
    rewrite drop_ge by lia. simpl. f_equal. lia.
  - destruct (get_nth_cell_wf a i Hwf) as (c & Hc1 & ->); [lia|]. simpl.
    rewrite (count_reserved_drop _ _ _ Hc1) in Hmax |- *.
    replace (S (Z.to_nat i)) with (Z.to_nat (i + 1)) in * by lia.
    pose proof (count_reserved_nonneg (drop (Z.to_nat (i + 1)) (array a))).
    destruct (cell_reserved c).
    + rewrite ulint_incr_small by lia.
      rewrite IH by lia. f_equal. lia.
    + rewrite IH by lia. f_equal.
Qed.

Lemma first_from_step P a i c r :
  0 <= i -> array a !! Z.to_nat i = Some c -> P c = false ->
  first_from P a (i + 1) r -> first_from P a i r.
Proof.
  intros Hi Hc HP. destruct r as [j|]; simpl.
  - intros (Hj & Hex & Hbefore). split; [lia|]. split; [exact Hex|].
    intros k c' Hk Hk'. destruct (decide (k = i)) as [->|Hne].
    + congruence.
    + apply (Hbefore k c'); [lia|exact Hk'].
  - intros Hall k c' Hk Hk'. destruct (decide (k = i)) as [->|Hne].
    + congruence.
    + apply (Hall k c'); [lia|exact Hk'].
Qed.

Lemma reserve_loop_spec a rem i :
  sync_array_wf a -> 0 <= i -> i + Z.of_nat rem = n_cells a ->
  exists r, reserve_loop rem a i = Ret r
            /\ first_from (fun c => wait_object c =? NULL) a i r.
Proof.
  intros Hwf. revert i.
  induction rem as [|rem IH]; intros i Hi Hrem; simpl.
  - exists None. split; [reflexivity|]. intros k c Hk Hc.
    apply lookup_lt_Some in Hc. destruct Hwf as (Hlen & _). lia.
  - destruct (get_nth_cell_wf a i Hwf) as (c & Hc & ->); [lia|]. simpl.
    destruct (wait_object c =? NULL) eqn:Hfree.
    + exists (Some i). split; [reflexivity|]. simpl.
      split; [lia|]. split; [eauto|]. intros; lia.
    + destruct (IH (i + 1)) as (r & -> & Hr); [lia|lia|].
      exists r. split; [reflexivity|].
      eapply first_from_step; eauto.
Qed.

Lemma find_thread_loop_spec a rem i thr :
  sync_array_wf a -> 0 <= i -> i + Z.of_nat rem = n_cells a ->
  exists r, find_thread_loop rem a i thr = Ret r
            /\ first_from (fun c => cell_reserved c && (thread c =? thr))
                 a i r.
Proof.
  intros Hwf. revert i.
  induction rem as [|rem IH]; intros i Hi Hrem; simpl.
  - exists None. split; [reflexivity|]. intros k c Hk Hc.
    apply lookup_lt_Some in Hc. destruct Hwf as (Hlen & _). lia.
  - destruct (get_nth_cell_wf a i Hwf) as (c & Hc & ->); [lia|]. simpl.
    destruct (cell_reserved c && (thread c =? thr)) eqn:Hmatch.
    + exists (Some i). split; [reflexivity|]. simpl.
      split; [lia|]. split; [eauto|]. intros; lia.
    + destruct (IH (i + 1)) as (r & -> & Hr); [lia|lia|].
      exists r. split; [reflexivity|].
      eapply first_from_step; eauto.
Qed.

(** *** [sync_array_reserve_cell], case by case *)

(** What a scan that returned has seen; when it found no free cell, it has
    seen every cell if the array has no more than [n_cells] of them. *)
Lemma reserve_loop_ret a rem i r :
  0 <= i -> reserve_loop rem a i = Ret r ->
  (r = None -> Z.of_nat (length (array a)) <= i + Z.of_nat rem) ->
  first_from (fun c => wait_object c =? NULL) a i r.
Proof.
  revert i. induction rem as [|rem IH]; intros i Hi; simpl.
  - intros [= <-] Hlen. intros k c Hk Hc.
    apply lookup_lt_Some in Hc. specialize (Hlen eq_refl). lia.
  - destruct (sync_array_get_nth_cell a i) as [c| | |] eqn:Hget; simpl;
      try discriminate.
    apply get_nth_cell_ret in Hget as (Hrange & Hc).
    destruct (wait_object c =? NULL) eqn:Hfree.
    + intros [= <-] _. simpl.
      split; [lia|]. split; [eauto|]. intros; lia.
    + intros Hloop Hlen.
      eapply first_from_step; eauto.
      apply IH; [lia|exact Hloop|]. intros Hr. specialize (Hlen Hr). lia.
Qed.

Lemma reserve_cell_locked_ret s object type file line s' r :
  reserve_cell_locked s object type file line = Ret (s', r) ->
  object <> NULL /\ os_mutex (arr s) = false
  /\ ((r = None -> Z.of_nat (length (array (arr s))) <= n_cells (arr s)) ->
      first_from (fun c => wait_object c =? NULL) (arr s) 0 r)
  /\ match r with
     | Some i =>
         exists c,
           0 <= i < n_cells (arr s)
           /\ array (arr s) !! Z.to_nat i = Some c /\ wait_object c = NULL
           /\ s' = mk_state
                     (mk_array (ulint_incr (n_reserved (arr s)))
                        (n_cells (arr s))
                        (<[Z.to_nat i := reserve_fill c object type file line]>
                           (array (arr s)))
                        false (ulint_incr (res_count (arr s))))
                     (objects s)
     | None =>
         s' = mk_state
                (mk_array (n_reserved (arr s)) (n_cells (arr s))
                   (array (arr s)) true (ulint_incr (res_count (arr s))))
                (objects s)
     end.
Proof.
  unfold reserve_cell_locked, ut_a, sync_array_enter.
  destruct (object =? NULL) eqn:Hobj; simpl; [discriminate|].
  destruct (os_mutex (arr s)) eqn:Hmx; simpl; [discriminate|].
  set (a2 := set_res_count _ _).
  destruct (reserve_loop _ a2 0) as [found| | |] eqn:Hloop; simpl;
    try discriminate.
  assert (Hfirst : (found = None ->
                    Z.of_nat (length (array (arr s))) <= n_cells (arr s)) ->
                   first_from (fun c => wait_object c =? NULL) (arr s) 0
                     found).
  { intros Hlen.
    apply (reserve_loop_ret a2 _ 0 found ltac:(lia) Hloop).
    intros Hnone. specialize (Hlen Hnone). simpl.
    destruct (Z.le_gt_cases 0 (n_cells (arr s))); lia. }
  destruct found as [i|].
  - destruct (Hfirst ltac:(discriminate)) as (Hi & (c & Hc & Hfree) & _).
    destruct (sync_array_get_nth_cell a2 i) as [c'| | |] eqn:Hget; simpl;
      try discriminate.
    apply get_nth_cell_ret in Hget as (_ & Hc').
    assert (c' = c) as -> by (simpl in Hc'; congruence).
    intros [= <- <-]. split; [lia|]. split; [reflexivity|].
    split; [exact Hfirst|].
    exists c. split; [exact Hi|]. split; [exact Hc|]. split; [lia|].
    reflexivity.
  - intros [= <- <-]. split; [lia|]. split; [reflexivity|].
    split; [exact Hfirst|]. reflexivity.
Qed.

Lemma reserve_cell_signal_count_ret s i s' :
  reserve_cell_signal_count s i = Ret s' ->
  exists c ev sig,
    0 <= i /\ array (arr s) !! Z.to_nat i = Some c
    /\ sync_cell_get_event (objects s) c = Ret ev
    /\ os_event_reset (objects s) ev = Ret (objects s', sig)
    /\ arr s' = store_cell (arr s) i (set_signal_count c sig).
Proof.
  unfold reserve_cell_signal_count.
  destruct (cell_at (arr s) i) as [c| | |] eqn:Hc; simpl; try discriminate.
  apply cell_at_ret in Hc as (Hi & Hc).
  destruct (sync_cell_get_event _ c) as [ev| | |] eqn:Hev; simpl;
    try discriminate.
  destruct (os_event_reset _ ev) as [[h' sig]| | |] eqn:Hreset; simpl;
    try discriminate.
  intros [= <-]. exists c, ev, sig. auto.
Qed.

Lemma reserve_cell_reservation_time_ret s i now s' :
  reserve_cell_reservation_time s i now = Ret s' ->
  exists c,
    0 <= i /\ array (arr s) !! Z.to_nat i = Some c
    /\ s' = mk_state (store_cell (arr s) i (set_reservation_time c now))
              (objects s).
Proof.
  unfold reserve_cell_reservation_time.
  destruct (cell_at (arr s) i) as [c| | |] eqn:Hc; simpl; try discriminate.
  apply cell_at_ret in Hc as (Hi & Hc).
  intros [= <-]. exists c. auto.
Qed.

Lemma reserve_cell_thread_ret s i self s' :
  reserve_cell_thread s i self = Ret s' ->
  exists c,
    0 <= i /\ array (arr s) !! Z.to_nat i = Some c
    /\ s' = mk_state (store_cell (arr s) i (set_thread c self)) (objects s).
Proof.
  unfold reserve_cell_thread.
  destruct (cell_at (arr s) i) as [c| | |] eqn:Hc; simpl; try discriminate.
  apply cell_at_ret in Hc as (Hi & Hc).
  intros [= <-]. exists c. auto.
Qed.

Lemma count_reserved_locked_fields cells :
  count_reserved (locked_fields <$> cells) = count_reserved cells.
Proof.
  induction cells as [|c cells IH]; [reflexivity|].
  rewrite fmap_cons. cbn [count_reserved]. rewrite IH. reflexivity.
Qed.

Lemma stamped_locked_part a a' :
  stamped a a' -> locked_part a' = locked_part a.
Proof.
  intros (i & c & c' & Hc & Heq & ->). unfold locked_part, set_array. simpl.
  f_equal. rewrite list_fmap_insert, Heq.
  apply list_insert_id. rewrite list_lookup_fmap, Hc. reflexivity.
Qed.

Lemma locked_part_fields a a' :
  locked_part a' = locked_part a ->
  n_reserved a' = n_reserved a /\ n_cells a' = n_cells a
  /\ os_mutex a' = os_mutex a /\ res_count a' = res_count a
  /\ length (array a') = length (array a)
  /\ count_reserved (array a') = count_reserved (array a).
Proof.
  unfold locked_part, set_array. intros [= H1 H2 H3 H4 H5].
  repeat split; try assumption.
  - rewrite <- (length_fmap locked_fields (array a')), H3.
    apply length_fmap.
  - rewrite <- (count_reserved_locked_fields (array a')), H3.
    apply count_reserved_locked_fields.
Qed.

Lemma signal_count_stamped s i s' :
  reserve_cell_signal_count s i = Ret s' -> stamped (arr s) (arr s').
Proof.
  intros H. apply reserve_cell_signal_count_ret in H
    as (c & ev & sig & _ & Hc & _ & _ & ->).
  exists (Z.to_nat i), c, (set_signal_count c sig).
  split; [exact Hc|]. split; reflexivity.
Qed.

Lemma reservation_time_stamped s i now s' :
  reserve_cell_reservation_time s i now = Ret s' -> stamped (arr s) (arr s').
Proof.
  intros H. apply reserve_cell_reservation_time_ret in H as (c & _ & Hc & ->).
  exists (Z.to_nat i), c, (set_reservation_time c now).
  split; [exact Hc|]. split; reflexivity.
Qed.

Lemma thread_stamped s i self s' :
  reserve_cell_thread s i self = Ret s' -> stamped (arr s) (arr s').
Proof.
  intros H. apply reserve_cell_thread_ret in H as (c & _ & Hc & ->).
  exists (Z.to_nat i), c, (set_thread c self).
  split; [exact Hc|]. split; reflexivity.
Qed.

(** The parts of a call of [sync_array_reserve_cell] that returned. *)
Lemma reserve_cell_parts s object type file line self now s' r :
  sync_array_reserve_cell s object type file line self now = Ret (s', r) ->
  match r with
  | Some i =>
      exists s1 s2 s3,
        reserve_cell_locked s object type file line = Ret (s1, Some i)
        /\ reserve_cell_signal_count s1 i = Ret s2
        /\ reserve_cell_reservation_time s2 i now = Ret s3
        /\ reserve_cell_thread s3 i self = Ret s'
  | None => reserve_cell_locked s object type file line = Ret (s', None)
  end.
Proof.
  unfold sync_array_reserve_cell.
  destruct (reserve_cell_locked s object type file line)
    as [[s1 [i|]]| | |]; simpl; try discriminate.
  - destruct (reserve_cell_signal_count s1 i) as [s2| | |] eqn:H2; simpl;
      try discriminate.
    destruct (reserve_cell_reservation_time s2 i now) as [s3| | |] eqn:H3;
      simpl; try discriminate.
    destruct (reserve_cell_thread s3 i self) as [s4| | |] eqn:H4; simpl;
      try discriminate.
    intros [= <- <-]. exists s1, s2, s3. auto.
  - intros [= <- <-]. reflexivity.
Qed.

Lemma reserve_cell_ret s object type file line self now s' r :
  sync_array_wf (arr s) ->
  sync_array_reserve_cell s object type file line self now = Ret (s', r) ->
  object <> NULL /\ os_mutex (arr s) = false
  /\ first_from (fun c => wait_object c =? NULL) (arr s) 0 r
  /\ match r with
     | Some i =>
         exists c ev sig,
           array (arr s) !! Z.to_nat i = Some c
           /\ sync_cell_get_event (objects s)
                (reserve_fill c object type file line) = Ret ev
           /\ os_event_reset (objects s) ev = Ret (objects s', sig)
           /\ arr s'
              = mk_array (ulint_incr (n_reserved (arr s))) (n_cells (arr s))
                  (<[Z.to_nat i :=
                       reserve_stamp (reserve_fill c object type file line)
                         sig now self]> (array (arr s)))
                  false (ulint_incr (res_count (arr s)))
     | None =>
         s' = mk_state
                (mk_array (n_reserved (arr s)) (n_cells (arr s))
                   (array (arr s)) true (ulint_incr (res_count (arr s))))
                (objects s)
     end.
Proof.
  intros Hwf Hret. apply reserve_cell_parts in Hret.
  destruct r as [i|].
  - destruct Hret as (s1 & s2 & s3 & H1 & H2 & H3 & H4).
    apply reserve_cell_locked_ret in H1 as (Hobj & Hmx & Hfirst & Hcase).
    destruct Hcase as (c & Hi & Hc & Hfree & ->).
    split; [exact Hobj|]. split; [exact Hmx|].
    split; [apply Hfirst; discriminate|].
    assert (Hlt : (Z.to_nat i < length (array (arr s)))%nat)
      by (eapply lookup_lt_Some; eauto).
    apply reserve_cell_signal_count_ret in H2
      as (c2 & ev & sig & _ & Hc2 & Hev & Hreset & Harr2).
    simpl in Hc2, Hev, Hreset, Harr2.
    rewrite list_lookup_insert_eq in Hc2 by exact Hlt.
    injection Hc2 as <-.
    apply reserve_cell_reservation_time_ret in H3 as (c3 & _ & Hc3 & ->).
    rewrite Harr2 in Hc3. simpl in Hc3.
    rewrite list_lookup_insert_eq in Hc3
      by (rewrite length_insert; exact Hlt).
    injection Hc3 as <-.
    apply reserve_cell_thread_ret in H4 as (c4 & _ & Hc4 & ->).
    simpl in Hc4.
    rewrite list_lookup_insert_eq in Hc4
      by (rewrite Harr2; simpl; rewrite !length_insert; exact Hlt).
    injection Hc4 as <-.
    exists c, ev, sig. split; [exact Hc|]. split; [exact Hev|].
    split; [exact Hreset|]. simpl. rewrite Harr2.
    unfold store_cell, set_array. simpl.
    rewrite !list_insert_insert_eq. reflexivity.
  - apply reserve_cell_locked_ret in Hret as (Hobj & Hmx & Hfirst & ->).
    split; [exact Hobj|]. split; [exact Hmx|].
    split; [|reflexivity].
    apply Hfirst. intros _. destruct Hwf as (Hlen & _). lia.
Qed.

(** With a free mutex, a valid object and a well-formed array the locked
    part returns, and so does the call. *)
Lemma reserve_cell_locked_returns s object type file line :
  sync_array_wf (arr s) -> os_mutex (arr s) = false -> object <> NULL ->
  exists s' r, reserve_cell_locked s object type file line = Ret (s', r).
Proof.
  intros Hwf Hmx Hobj.
  unfold reserve_cell_locked, ut_a, sync_array_enter.
  destruct (object =? NULL) eqn:Hobj'; [lia|]. simpl.
  rewrite Hmx. simpl.
  set (a2 := set_res_count _ _).
  assert (Hwf2 : sync_array_wf a2) by exact Hwf.
  destruct (reserve_loop_spec a2 (Z.to_nat (n_cells a2)) 0 Hwf2)
    as (found & Hloop & Hfirst); [lia| destruct Hwf2 as (_ & ? & _); lia |].
  change (n_cells a2) with (n_cells (arr s)) in Hloop.
  rewrite Hloop. simpl.
  destruct found as [i|]; [|eauto].
  destruct Hfirst as (Hi & (c & Hc & Hfree) & Hbefore).
  destruct (get_nth_cell_wf a2 i Hwf2) as (c' & Hc' & ->); [lia|]. simpl.
  eauto.
Qed.

Lemma reserve_cell_returns s object type file line self now :
  sync_array_wf (arr s) -> os_mutex (arr s) = false -> object <> NULL ->
  (exists ev, sync_cell_get_event (objects s)
                (reserve_fill zero_cell object type file line) = Ret ev
              /\ is_ret (os_event_reset (objects s) ev) = true) ->
  exists s' r,
    sync_array_reserve_cell s object type file line self now = Ret (s', r).
Proof.
  intros Hwf Hmx Hobj (ev & Hev & Hreset).
  destruct (reserve_cell_locked_returns s object type file line Hwf Hmx Hobj)
    as (s1 & r & H1).
  unfold sync_array_reserve_cell. rewrite H1. simpl.
  destruct r as [i|]; [|eauto].
  apply reserve_cell_locked_ret in H1 as (_ & _ & _ & c & Hi & Hc & _ & ->).
  assert (Hlt : (Z.to_nat i < length (array (arr s)))%nat)
    by (eapply lookup_lt_Some; eauto).
  assert (Hev' : sync_cell_get_event (objects s)
                   (reserve_fill c object type file line) = Ret ev).
  { revert Hev. unfold sync_cell_get_event, reserve_fill. simpl. tauto. }
  destruct (os_event_reset (objects s) ev) as [[h' sig]| | |] eqn:Hr;
    try discriminate.
  unfold reserve_cell_signal_count. simpl.
  rewrite (cell_at_lookup _ i (reserve_fill c object type file line))
    by (simpl; first [lia|apply list_lookup_insert_eq; exact Hlt]).
  simpl. rewrite Hev'. simpl. rewrite Hr. simpl.
  unfold reserve_cell_reservation_time. simpl.
  erewrite cell_at_lookup;
    [|lia|simpl; apply list_lookup_insert_eq; rewrite length_insert;
          exact Hlt].
  simpl. unfold reserve_cell_thread. simpl.
  erewrite cell_at_lookup;
    [|lia|simpl; apply list_lookup_insert_eq; rewrite !length_insert;
          exact Hlt].
  simpl. eauto.
Qed.

(** *** [sync_array_free_cell] and [sync_array_wait_event], case by case *)

Lemma free_cell_ret s i s' :
  sync_array_free_cell s i = Ret s' ->
  os_mutex (arr s) = false /\ 0 <= i < n_cells (arr s)
  /\ 0 < n_reserved (arr s)
  /\ exists c,
       array (arr s) !! Z.to_nat i = Some c /\ wait_object c <> NULL
       /\ s' = mk_state
                 (mk_array (ulint_decr (n_reserved (arr s)))
                    (n_cells (arr s))
                    (<[Z.to_nat i := free_fill c]> (array (arr s)))
                    false (res_count (arr s)))
                 (objects s).
Proof.
  unfold sync_array_free_cell, sync_array_enter.
  destruct (os_mutex (arr s)) eqn:Hmx; simpl; [discriminate|].
  destruct (sync_array_get_nth_cell _ i) as [c| | |] eqn:Hget; simpl;
    try discriminate.
  apply get_nth_cell_ret in Hget as (Hi & Hc). simpl in Hi, Hc.
  unfold ut_a.
  destruct (wait_object c =? NULL) eqn:Hfree; simpl; [discriminate|].
  destruct (0 <? n_reserved (arr s)) eqn:Hres; simpl; [|discriminate].
  intros [= <-]. split; [reflexivity|]. split; [exact Hi|]. split; [lia|].
  exists c. split; [exact Hc|]. split; [lia|]. reflexivity.
Qed.

Lemma free_cell_returns s i c :
  os_mutex (arr s) = false -> 0 <= i < n_cells (arr s) ->
  array (arr s) !! Z.to_nat i = Some c -> wait_object c <> NULL ->
  0 < n_reserved (arr s) ->
  is_ret (sync_array_free_cell s i) = true.
Proof.
  intros Hmx Hi Hc Hres Hn.
  unfold sync_array_free_cell, sync_array_enter. rewrite Hmx. simpl.
  unfold sync_array_get_nth_cell, ut_a. simpl.
  destruct (i <? n_cells (arr s)) eqn:Hlt; [|lia]. simpl.
  rewrite (cell_at_lookup _ i c) by (simpl; first [lia|exact Hc]). simpl.
  destruct (wait_object c =? NULL) eqn:Hfree; [lia|]. simpl.
  destruct (0 <? n_reserved (arr s)) eqn:Hpos; [|lia]. reflexivity.
Qed.

Lemma wait_event_enter_ret b s i self s' ev :
  sync_array_wait_event_enter b s i self = Ret (s', ev) ->
  os_mutex (arr s) = false /\ 0 <= i < n_cells (arr s)
  /\ exists c,
       array (arr s) !! Z.to_nat i = Some c /\ wait_object c <> NULL
       /\ waiting c = false
       /\ s' = mk_state
                 (mk_array (n_reserved (arr s)) (n_cells (arr s))
                    (<[Z.to_nat i := set_waiting c]> (array (arr s)))
                    false (res_count (arr s)))
                 (objects s).
Proof.
  unfold sync_array_wait_event_enter, sync_array_enter.
  destruct (os_mutex (arr s)) eqn:Hmx; simpl; [discriminate|].
  destruct (sync_array_get_nth_cell _ i) as [c| | |] eqn:Hget; simpl;
    try discriminate.
  apply get_nth_cell_ret in Hget as (Hi & Hc). simpl in Hi, Hc.
  unfold ut_a.
  destruct (wait_object c =? NULL) eqn:Hfree; simpl; [discriminate|].
  destruct (waiting c) eqn:Hw; simpl; [discriminate|].
  destruct (ut_ad b (self =? thread c)) as [[]| | |]; simpl;
    try discriminate.
  destruct (sync_cell_get_event _ c) as [e| | |]; simpl; try discriminate.
  match goal with
  | |- context [mbind _ ?d] => destruct d as [[|]| | |]; simpl;
                               try discriminate
  end.
  intros [= <- <-]. split; [reflexivity|]. split; [exact Hi|].
  exists c. split; [exact Hc|]. split; [lia|].
  split; [exact Hw|reflexivity].
Qed.

(** What the first half of the wait hands to [os_event_wait_low], and what
    the build has checked by then. *)
Lemma wait_event_enter_event b s i self s' ev c :
  array (arr s) !! Z.to_nat i = Some c ->
  sync_array_wait_event_enter b s i self = Ret (s', ev) ->
  sync_cell_get_event (objects s) c = Ret ev
  /\ wait_event_signal_count s' i = Ret (signal_count c)
  /\ (UNIV_DEBUG b = true -> thread c = self)
  /\ (UNIV_SYNC_DEBUG b = true ->
      sync_array_detect_deadlock
        (mk_state (store_cell (set_os_mutex (arr s) true) i (set_waiting c))
           (objects s))
        self i i 0
      = Ret false).
Proof.
  intros Hc. unfold sync_array_wait_event_enter, sync_array_enter.
  destruct (os_mutex (arr s)) eqn:Hmx; simpl; [discriminate|].
  destruct (sync_array_get_nth_cell _ i) as [c'| | |] eqn:Hget; simpl;
    try discriminate.
  apply get_nth_cell_ret in Hget as (Hi & Hc'). simpl in Hc'.
  assert (c' = c) as -> by congruence.
  unfold ut_a, ut_ad.
  destruct (wait_object c =? NULL) eqn:Hfree; simpl; [discriminate|].
  destruct (waiting c) eqn:Hw; simpl; [discriminate|].
  assert (Hthr : (if UNIV_DEBUG b
                  then if self =? thread c then Ret tt else Abort
                  else Ret tt) = Ret tt
                 -> UNIV_DEBUG b = true -> thread c = self).
  { intros H Hb. rewrite Hb in H.
    destruct (self =? thread c) eqn:E; [lia|discriminate]. }
  destruct (if UNIV_DEBUG b then _ else _) as [[]| | |]; simpl;
    try discriminate.
  destruct (sync_cell_get_event _ c) as [e| | |]; simpl; try discriminate.
  assert (Hsig : forall h,
             wait_event_signal_count
               (mk_state
                  (sync_array_exit
                     (store_cell (set_os_mutex (arr s) true) i
                        (set_waiting c))) h) i
             = Ret (signal_count c)).
  { intros h. unfold wait_event_signal_count.
    rewrite (cell_at_lookup _ i (set_waiting c)); [reflexivity|lia|].
    simpl. apply list_lookup_insert_eq. eapply lookup_lt_Some; eauto. }
  destruct (UNIV_SYNC_DEBUG b) eqn:Hsd.
  - destruct (sync_array_detect_deadlock _ self i i 0) as [[|]| | |] eqn:Hd;
      simpl; try discriminate.
    intros [= <- <-]. auto.
  - simpl. intros [= <- <-].
    split; [reflexivity|]. split; [apply Hsig|]. split; [auto|discriminate].
Qed.

(** *** Heaps that differ in events only *)

Lemma same_locks_refl h : same_locks h h.
Proof. intros p. destruct (h !! p) as [[m|l]|]; auto. Qed.

Lemma same_locks_trans h1 h2 h3 :
  same_locks h1 h2 -> same_locks h2 h3 -> same_locks h1 h3.
Proof.
  intros H12 H23 p. specialize (H12 p). specialize (H23 p).
  destruct (h1 !! p) as [[m1|l1]|], (h2 !! p) as [[m2|l2]|],
    (h3 !! p) as [[m3|l3]|]; try tauto; intuition congruence.
Qed.

Lemma event_store_same_locks h e v h' :
  event_store h e v = Ret h' -> same_locks h h'.
Proof.
  destruct e as [p f]. unfold event_store, as_mutex, as_rw_lock. simpl.
  destruct f; destruct (h !! p) as [[m|l]|] eqn:Hp; simpl; try discriminate;
    intros [= <-] q; (destruct (decide (p = q)) as [<-|Hne];
      [rewrite lookup_insert_eq, Hp; simpl; auto
      |rewrite lookup_insert_ne by exact Hne;
       destruct (h !! q) as [[m'|l']|]; auto]).
Qed.

Lemma os_event_set_same_locks h e h' :
  os_event_set h e = Ret h' -> same_locks h h'.
Proof.
  unfold os_event_set. destruct (event_load h e); simpl; try discriminate.
  apply event_store_same_locks.
Qed.

Lemma can_wake_up_same_locks h h' c :
  same_locks h h' ->
  sync_arr_cell_can_wake_up h c = sync_arr_cell_can_wake_up h' c.
Proof.
  intros Hs. specialize (Hs (wait_object c)).
  unfold sync_arr_cell_can_wake_up, as_mutex, as_rw_lock.
  destruct (request_type c); try reflexivity;
    destruct (h !! wait_object c) as [[m|l]|],
      (h' !! wait_object c) as [[m'|l']|]; simpl; try tauto;
    destruct Hs as [-> _]; reflexivity.
Qed.

Lemma get_event_typed h c :
  cell_typed h c -> sync_arr_cell_can_wake_up h c = Ret true ->
  sync_cell_get_event h c = Ret (cell_event c).
Proof.
  intros Ht Hcan. revert Ht Hcan.
  unfold cell_typed, sync_arr_cell_can_wake_up, sync_cell_get_event,
    cell_event, as_mutex, as_rw_lock.
  destruct (request_type c); try discriminate;
    intros [x ->]; reflexivity.
Qed.

Lemma can_wake_up_typed h c :
  cell_typed h c -> exists b, sync_arr_cell_can_wake_up h c = Ret b.
Proof.
  unfold cell_typed, sync_arr_cell_can_wake_up, as_mutex, as_rw_lock.
  destruct (request_type c); try (intros [x ->]; simpl; eauto); eauto.
Qed.

Lemma cell_typed_same_locks h h' c :
  same_locks h h' -> cell_typed h c -> cell_typed h' c.
Proof.
  intros Hs. specialize (Hs (wait_object c)). unfold cell_typed.
  destruct (request_type c); try tauto;
    intros [x Hx]; rewrite Hx in Hs;
    destruct (h' !! wait_object c) as [[m'|l']|]; try tauto; eauto.
Qed.

Lemma os_event_set_typed h c :
  cell_typed h c -> sync_arr_cell_can_wake_up h c = Ret true ->
  exists h', os_event_set h (cell_event c) = Ret h'.
Proof.
  intros Ht Hcan. revert Ht Hcan.
  unfold cell_typed, sync_arr_cell_can_wake_up, os_event_set, event_load,
    event_store, cell_event, as_mutex, as_rw_lock.
  destruct (request_type c); try discriminate;
    intros [x Hx]; simpl; repeat (rewrite Hx; simpl); eauto.
Qed.

(** *** The loop of the unstick sweep *)

Lemma wake_up_event_none h cells :
  count_reserved cells = 0 -> omap (wake_up_event h) cells = [].
Proof.
  induction cells as [|c cells IH]; simpl; [reflexivity|].
  pose proof (count_reserved_nonneg cells).
  unfold wake_up_event at 1.
  destruct (cell_reserved c); [lia|]. intros H0. apply IH. lia.
Qed.

Lemma wake_loop_spec a h0 :
  sync_array_wf a -> cells_typed h0 a -> n_reserved a <= ULINT_MAX ->
  forall rem i count h signalled,
    0 <= i -> i + Z.of_nat rem = n_cells a -> 0 <= count ->
    count + count_reserved (drop (Z.to_nat i) (array a)) = n_reserved a ->
    same_locks h0 h ->
    exists h',
      wake_loop rem a i count h signalled
      = Ret (h', signalled
                 ++ omap (wake_up_event h0) (drop (Z.to_nat i) (array a)))
      /\ set_events h
           (omap (wake_up_event h0) (drop (Z.to_nat i) (array a)))
         = Ret h'.
Proof.
  intros Hwf Htyped Hmax.
  induction rem as [|rem IH]; intros i count h signalled Hi Hrem Hc Hsum Hs.
  - destruct Hwf as (Hlen & _).
    rewrite drop_ge in Hsum |- * by lia. simpl in *.
    destruct (count <? n_reserved a) eqn:Hlt; [lia|].
    exists h. rewrite app_nil_r. split; reflexivity.
  - destruct (get_nth_cell_wf a i Hwf) as (c & Hlook & Hget); [lia|].
    rewrite (drop_S _ _ _ Hlook) in Hsum |- *.
    replace (S (Z.to_nat i)) with (Z.to_nat (i + 1)) in * by lia.
    pose proof (count_reserved_nonneg (drop (Z.to_nat (i + 1)) (array a)))
      as Hnn.
    simpl in Hsum. simpl wake_loop.
    destruct (count <? n_reserved a) eqn:Hlt.
    + rewrite Hget. simpl mbind.
      destruct (cell_reserved c) eqn:Hres.
      * pose proof (Htyped _ _ Hlook Hres) as Ht0.
        destruct (can_wake_up_typed _ _ Ht0) as [b Hcan0].
        rewrite <- (can_wake_up_same_locks h0 h c Hs), Hcan0. simpl mbind.
        rewrite ulint_incr_small by lia.
        assert (Hw : wake_up_event h0 c
                     = if b then Some (cell_event c) else None).
        { unfold wake_up_event. rewrite Hres, Hcan0. reflexivity. }
        simpl omap. rewrite Hw.
        destruct b.
        -- assert (Ht : cell_typed h c)
             by (eapply cell_typed_same_locks; eauto).
           assert (Hcan : sync_arr_cell_can_wake_up h c = Ret true)
             by (rewrite <- (can_wake_up_same_locks h0 h c Hs); exact Hcan0).
           rewrite (get_event_typed h c Ht Hcan). simpl mbind.
           destruct (os_event_set_typed h c Ht Hcan) as [h1 Hset].
           rewrite Hset. simpl mbind.
           destruct (IH (i + 1) (count + 1) h1 (signalled ++ [cell_event c]))
             as (h' & Hloop & Hsets); try lia.
           { eapply same_locks_trans; [exact Hs|].
             eapply os_event_set_same_locks; exact Hset. }
           exists h'. rewrite Hloop, <- app_assoc. simpl.
           rewrite Hset. simpl. split; [reflexivity|exact Hsets].
        -- destruct (IH (i + 1) (count + 1) h signalled)
             as (h' & Hloop & Hsets); try lia; [exact Hs|].
           exists h'. split; [exact Hloop|exact Hsets].
      * assert (Hw : wake_up_event h0 c = None).
        { unfold wake_up_event. rewrite Hres. reflexivity. }
        simpl omap. rewrite Hw.
        destruct (IH (i + 1) count h signalled)
          as (h' & Hloop & Hsets); try lia; [exact Hs|].
        exists h'. split; [exact Hloop|exact Hsets].
    + assert (H0 : count_reserved (c :: drop (Z.to_nat (i + 1)) (array a)) = 0).
      { simpl. destruct (cell_reserved c); lia. }
      rewrite (wake_up_event_none h0 _ H0). rewrite app_nil_r.
      exists h. split; reflexivity.
Qed.

(** *** The counting invariant *)

Lemma create_ret m n m' a0 :
  sync_array_create m n = Ret (m', a0) ->
  0 < n
  /\ a0 = mk_array 0 n
            (replicate
               (Z.to_nat (ulint_wrap (Z.pos sizeof_sync_cell_t * n)
                          / Z.pos sizeof_sync_cell_t)) zero_cell)
            false 0.
Proof.
  unfold sync_array_create, ut_a.
  destruct (0 <? n) eqn:Hpos; simpl; [|discriminate].
  destruct (ut_malloc m _) as [m1| | |]; simpl; try discriminate.
  destruct (ut_malloc m1 _) as [m2| | |]; simpl; try discriminate.
  intros [= <- <-]. split; [lia|reflexivity].
Qed.

(** The whole items of [p] bytes that fit into the bytes asked for [n] of
    them: [n] when the size did not wrap, fewer when it did. *)
Lemma items_of_size (p : positive) n :
  0 < n ->
  0 <= ulint_wrap (Z.pos p * n) / Z.pos p <= n
  /\ (Z.pos p * n <= ULINT_MAX ->
      ulint_wrap (Z.pos p * n) = Z.pos p * n
      /\ ulint_wrap (Z.pos p * n) / Z.pos p = n).
Proof.
  intros Hn. pose proof ULINT_MODULUS_pos as Hm.
  set (sz := Z.pos p) in *.
  assert (Hsz : 0 < sz) by (unfold sz; lia).
  pose proof (Z.mod_pos_bound (sz * n) ULINT_MODULUS Hm) as Hb.
  pose proof (Z.mod_le (sz * n) ULINT_MODULUS ltac:(nia) Hm) as Hle.
  unfold ulint_wrap. split; [split|].
  - apply Z.div_pos; lia.
  - apply Z.div_le_upper_bound; [lia|]. lia.
  - intros Hmax. unfold ULINT_MAX in Hmax.
    rewrite Z.mod_small by nia. split; [reflexivity|].
    rewrite Z.mul_comm. apply Z.div_mul. lia.
Qed.

Lemma counted_create m n m' a0 :
  0 < n <= ULINT_MAX -> sync_array_create m n = Ret (m', a0) ->
  sync_array_counted a0.
Proof.
  intros Hn Hcreate. apply create_ret in Hcreate as (_ & ->).
  destruct (items_of_size sizeof_sync_cell_t n) as (Hle & _); [lia|].
  unfold sync_array_counted, sync_array_bounded. simpl.
  rewrite length_replicate, count_reserved_replicate. lia.
Qed.

Lemma inv_create m n m' a0 :
  0 < n -> Z.pos sizeof_sync_cell_t * n <= ULINT_MAX ->
  sync_array_create m n = Ret (m', a0) -> sync_array_inv a0.
Proof.
  intros Hn Hmax Hcreate. apply create_ret in Hcreate as (_ & ->).
  destruct (items_of_size sizeof_sync_cell_t n) as (_ & Heq); [lia|].
  destruct (Heq Hmax) as (_ & Hcells).
  unfold sync_array_inv, sync_array_wf. simpl.
  rewrite length_replicate, count_reserved_replicate, Hcells.
  nia.
Qed.

Lemma inv_reserve_cell s object type file line self now s' r :
  sync_array_inv (arr s) ->
  sync_array_reserve_cell s object type file line self now = Ret (s', r) ->
  sync_array_inv (arr s').
Proof.
  intros (Hwf & Hcount) Hret.
  destruct (reserve_cell_ret _ _ _ _ _ _ _ _ _ Hwf Hret)
    as (Hobj & Hmx & Hfirst & Hcase).
  destruct r as [i|].
  - destruct Hcase as (c & ev & sig & Hc & _ & _ & ->).
    destruct Hfirst as (Hi & (c0 & Hc0 & Hfree) & _).
    assert (c0 = c) as -> by congruence.
    pose proof (count_reserved_insert _ _ _
                  (reserve_stamp (reserve_fill c object type file line)
                     sig now self) Hc) as Hins.
    pose proof (count_reserved_le_length
                  (<[Z.to_nat i :=
                       reserve_stamp (reserve_fill c object type file line)
                         sig now self]> (array (arr s)))) as Hle.
    rewrite length_insert in Hle.
    pose proof (count_reserved_nonneg (array (arr s))) as Hnn.
    unfold cell_reserved in Hins. rewrite Hfree in Hins. simpl in Hins.
    destruct (object =? NULL) eqn:Hobj'; [lia|]. simpl in Hins.
    destruct Hwf as (Hlen & Hpos & Hmax).
    unfold sync_array_inv, sync_array_wf. simpl.
    rewrite length_insert, Hins, ulint_incr_small by lia. lia.
  - subst s'. simpl. exact (conj Hwf Hcount).
Qed.

Lemma inv_free_cell s index s' :
  sync_array_inv (arr s) ->
  sync_array_free_cell s index = Ret s' ->
  sync_array_inv (arr s').
Proof.
  intros ((Hlen & Hpos & Hmax) & Hcount) Hret.
  apply free_cell_ret in Hret
    as (Hmx & Hi & Hres & c & Hc & Hobj & ->).
  pose proof (count_reserved_insert _ _ _ (free_fill c) Hc) as Hins.
  pose proof (count_reserved_le_length (array (arr s))) as Hle.
  unfold cell_reserved in Hins. simpl in Hins.
  destruct (wait_object c =? NULL) eqn:Hfree; [lia|]. simpl in Hins.
  unfold sync_array_inv, sync_array_wf. simpl.
  rewrite length_insert, Hins, ulint_decr_small by lia. lia.
Qed.

Lemma inv_wait_event_enter b s index self s' ev :
  sync_array_inv (arr s) ->
  sync_array_wait_event_enter b s index self = Ret (s', ev) ->
  sync_array_inv (arr s').
Proof.
  intros ((Hlen & Hpos & Hmax) & Hcount) Hret.
  apply wait_event_enter_ret in Hret
    as (Hmx & Hi & c & Hc & Hobj & Hw & ->).
  pose proof (count_reserved_insert _ _ _ (set_waiting c) Hc) as Hins.
  unfold cell_reserved in Hins. simpl in Hins.
  unfold sync_array_inv, sync_array_wf. simpl.
  rewrite length_insert, Hins. lia.
Qed.

Lemma wait_event_wake_ret s index ev sig s' :
  sync_array_wait_event_wake s index ev sig = Ret s' ->
  os_event_wait_low (objects s) ev sig = Ret tt
  /\ sync_array_free_cell s index = Ret s'.
Proof.
  unfold sync_array_wait_event_wake.
  destruct (os_event_wait_low (objects s) ev sig) as [[]| | |]; simpl;
    try discriminate.
  auto.
Qed.

Lemma inv_wait_event_wake s index ev sig s' :
  sync_array_inv (arr s) ->
  sync_array_wait_event_wake s index ev sig = Ret s' ->
  sync_array_inv (arr s').
Proof.
  intros Hinv Hret. apply wait_event_wake_ret in Hret as (_ & Hfree).
  eapply inv_free_cell; eauto.
Qed.

Lemma wait_event_ret b s index self s' :
  sync_array_wait_event b s index self = Ret s' ->
  exists s1 ev sig,
    sync_array_wait_event_enter b s index self = Ret (s1, ev)
    /\ wait_event_signal_count s1 index = Ret sig
    /\ sync_array_wait_event_wake s1 index ev sig = Ret s'.
Proof.
  unfold sync_array_wait_event.
  destruct (sync_array_wait_event_enter b s index self)
    as [[s1 ev]| | |] eqn:Henter; simpl; try discriminate.
  destruct (wait_event_signal_count s1 index) as [sig| | |] eqn:Hsig; simpl;
    try discriminate.
  intros Hwake. exists s1, ev, sig. auto.
Qed.

Lemma inv_wait_event b s index self s' :
  sync_array_inv (arr s) ->
  sync_array_wait_event b s index self = Ret s' ->
  sync_array_inv (arr s').
Proof.
  intros Hinv Hret.
  apply wait_event_ret in Hret as (s1 & ev & sig & Henter & _ & Hwake).
  eapply inv_wait_event_wake; [|exact Hwake].
  eapply inv_wait_event_enter; eauto.
Qed.

Lemma exit_enter a : os_mutex a = false ->
  sync_array_exit (set_os_mutex a true) = a.
Proof. destruct a. simpl. intros ->. reflexivity. Qed.

Lemma wake_threads_arr s s' signalled :
  sync_array_wake_threads_if_sema_free_low s = Ret (s', signalled) ->
  arr s' = arr s.
Proof.
  unfold sync_array_wake_threads_if_sema_free_low, sync_array_enter.
  destruct (os_mutex (arr s)) eqn:Hmx; simpl; [discriminate|].
  destruct (wake_loop _ _ _ _ _ _) as [[h' tr]| | |]; simpl;
    try discriminate.
  intros [= <- <-]. simpl. apply exit_enter. exact Hmx.
Qed.

Lemma validate_ret a a' :
  sync_array_validate a = Ret a' -> a' = a.
Proof.
  unfold sync_array_validate, sync_array_enter.
  destruct (os_mutex a) eqn:Hmx; simpl; [discriminate|].
  destruct (validate_loop _ _ _ _) as [count| | |]; simpl; try discriminate.
  unfold ut_a. destruct (count =? n_reserved a); simpl; [|discriminate].
  intros [= <-]. apply exit_enter. exact Hmx.
Qed.

Lemma validate_inv a :
  sync_array_inv a -> os_mutex a = false -> sync_array_validate a = Ret a.
Proof.
  intros (Hwf & Hcount) Hmx.
  unfold sync_array_validate, sync_array_enter. rewrite Hmx. simpl.
  pose proof (count_reserved_le_length (array a)) as Hle.
  assert (Hwf1 : sync_array_wf (set_os_mutex a true)) by exact Hwf.
  destruct Hwf as (Hlen & Hpos & Hmax).
  rewrite (validate_loop_count (set_os_mutex a true) _ 0 0 Hwf1);
    simpl; rewrite ?drop_0; try lia.
  simpl. unfold ut_a. rewrite Hcount, Z.eqb_refl. simpl.
  f_equal. apply exit_enter. exact Hmx.
Qed.

(** *** Steps *)

(** What a step does to the array: the locked part of a reservation, a
    write to one cell behind it, the entry into a wait, a release, or
    nothing. *)
Lemma step_arr sys sys' :
  sync_step sys sys' ->
  (exists object type file line r,
      reserve_cell_locked (shared sys) object type file line
      = Ret (shared sys', r))
  \/ stamped (arr (shared sys)) (arr (shared sys'))
  \/ (exists b index self ev,
        sync_array_wait_event_enter b (shared sys) index self
        = Ret (shared sys', ev))
  \/ (exists index, sync_array_free_cell (shared sys) index
                    = Ret (shared sys'))
  \/ arr (shared sys') = arr (shared sys).
Proof.
  intros Hstep. destruct Hstep as
    [sys object type file line self s' found Hst Hret
    |sys self i s' Hst Hret
    |sys self i now s' Hst Hret
    |sys self i s' Hst Hret
    |b sys index self s' ev Hst Hret
    |sys index s' Hret
    |sys s' signalled Hret
    |sys a' Hret
    |sys h']; simpl.
  - left. eauto 10.
  - right. left. eapply signal_count_stamped; eauto.
  - right. left. eapply reservation_time_stamped; eauto.
  - right. left. eapply thread_stamped; eauto.
  - right. right. left. eauto 10.
  - right. right. right. left. eauto.
  - right. right. right. right. apply (wake_threads_arr _ _ _ Hret).
  - right. right. right. right. apply (validate_ret _ _ Hret).
  - right. right. right. right. reflexivity.
Qed.

(** A call of [sync_array_reserve_cell] that returns is made of steps: the
    locked part, and after a reservation the three writes behind it. *)
Lemma reserve_cell_steps s object type file line self now s' r st :
  st !! self = None ->
  sync_array_reserve_cell s object type file line self now = Ret (s', r) ->
  rtc sync_step (mk_system s st) (mk_system s' st).
Proof.
  intros Hst Hret. apply reserve_cell_parts in Hret.
  destruct r as [i|].
  - destruct Hret as (s1 & s2 & s3 & H1 & H2 & H3 & H4).
    eapply rtc_l.
    { apply (step_reserve_locked (mk_system s st) object type file line self
               s1 (Some i)); [exact Hst|exact H1]. }
    eapply rtc_l.
    { apply (step_reserve_signal_count _ self i s2);
        [apply lookup_insert_eq|exact H2]. }
    eapply rtc_l.
    { apply (step_reserve_reservation_time _ self i now s3);
        [apply lookup_insert_eq|exact H3]. }
    cbn [stamping shared].
    replace (mk_system s' st)
      with (mk_system s'
              (delete self
                 (<[self := (i, STAMP_THREAD)]>
                    (<[self := (i, STAMP_RESERVATION_TIME)]>
                       (<[self := (i, STAMP_SIGNAL_COUNT)]> st))))).
    + apply rtc_once.
      exact (step_reserve_thread
               (mk_system s3
                  (<[self := (i, STAMP_THREAD)]>
                     (<[self := (i, STAMP_RESERVATION_TIME)]>
                        (<[self := (i, STAMP_SIGNAL_COUNT)]> st))))
               self i s' (lookup_insert_eq _ _ _) H4).
    + f_equal. rewrite !insert_insert_eq. apply delete_insert_id. exact Hst.
  - apply rtc_once.
    apply (step_reserve_locked (mk_system s st) object type file line self
             s' None); [exact Hst|exact Hret].
Qed.

(** No step changes the number of cells. *)
Lemma step_size sys sys' :
  sync_step sys sys' ->
  n_cells (arr (shared sys')) = n_cells (arr (shared sys))
  /\ length (array (arr (shared sys'))) = length (array (arr (shared sys))).
Proof.
  intros Hstep.
  destruct (step_arr _ _ Hstep)
    as [(object & type & file & line & r & H)
       |[H|[(b & index & self & ev & H)|[(index & H)|H]]]].
  - apply reserve_cell_locked_ret in H as (_ & _ & _ & Hcase).
    destruct r as [i|].
    + destruct Hcase as (c & _ & _ & _ & ->). simpl.
      rewrite length_insert. auto.
    + rewrite Hcase. auto.
  - apply stamped_locked_part, locked_part_fields in H. tauto.
  - apply wait_event_enter_ret in H as (_ & _ & c & _ & _ & _ & ->).
    simpl. rewrite length_insert. auto.
  - apply free_cell_ret in H as (_ & _ & _ & c & _ & _ & ->).
    simpl. rewrite length_insert. auto.
  - rewrite H. auto.
Qed.

Lemma steps_size sys sys' :
  rtc sync_step sys sys' ->
  n_cells (arr (shared sys')) = n_cells (arr (shared sys))
  /\ length (array (arr (shared sys'))) = length (array (arr (shared sys))).
Proof.
  intros Hsteps. induction Hsteps as [sys|sys1 sys2 sys3 Hstep _ IH].
  - auto.
  - destruct (step_size _ _ Hstep) as (H1 & H2). destruct IH as (H3 & H4).
    split; congruence.
Qed.

Lemma counted_reserve_locked s object type file line s' r :
  sync_array_counted (arr s) ->
  reserve_cell_locked s object type file line = Ret (s', r) ->
  sync_array_counted (arr s').
Proof.
  intros ((Hlen & Hpos & Hmax) & Hcount) Hret.
  apply reserve_cell_locked_ret in Hret as (Hobj & _ & _ & Hcase).
  destruct r as [i|].
  - destruct Hcase as (c & Hi & Hc & Hfree & ->).
    pose proof (count_reserved_insert _ _ _
                  (reserve_fill c object type file line) Hc) as Hins.
    pose proof (count_reserved_le_length
                  (<[Z.to_nat i := reserve_fill c object type file line]>
                     (array (arr s)))) as Hle.
    rewrite length_insert in Hle.
    pose proof (count_reserved_nonneg (array (arr s))) as Hnn.
    unfold cell_reserved in Hins. simpl in Hins.
    destruct (wait_object c =? NULL) eqn:Hfree'; [|lia]. simpl in Hins.
    destruct (object =? NULL) eqn:Hobj'; [lia|]. simpl in Hins.
    unfold sync_array_counted, sync_array_bounded. simpl.
    rewrite length_insert, Hins, ulint_incr_small by lia. lia.
  - subst s'. simpl. exact (conj (conj Hlen (conj Hpos Hmax)) Hcount).
Qed.

Lemma counted_free_cell s index s' :
  sync_array_counted (arr s) ->
  sync_array_free_cell s index = Ret s' ->
  sync_array_counted (arr s').
Proof.
  intros ((Hlen & Hpos & Hmax) & Hcount) Hret.
  apply free_cell_ret in Hret
    as (Hmx & Hi & Hres & c & Hc & Hobj & ->).
  pose proof (count_reserved_insert _ _ _ (free_fill c) Hc) as Hins.
  pose proof (count_reserved_le_length (array (arr s))) as Hle.
  unfold cell_reserved in Hins. simpl in Hins.
  destruct (wait_object c =? NULL) eqn:Hfree; [lia|]. simpl in Hins.
  unfold sync_array_counted, sync_array_bounded. simpl.
  rewrite length_insert, Hins, ulint_decr_small by lia. lia.
Qed.

Lemma counted_wait_event_enter b s index self s' ev :
  sync_array_counted (arr s) ->
  sync_array_wait_event_enter b s index self = Ret (s', ev) ->
  sync_array_counted (arr s').
Proof.
  intros ((Hlen & Hpos & Hmax) & Hcount) Hret.
  apply wait_event_enter_ret in Hret
    as (Hmx & Hi & c & Hc & Hobj & Hw & ->).
  pose proof (count_reserved_insert _ _ _ (set_waiting c) Hc) as Hins.
  unfold cell_reserved in Hins. simpl in Hins.
  unfold sync_array_counted, sync_array_bounded. simpl.
  rewrite length_insert, Hins. lia.
Qed.

Lemma counted_step sys sys' :
  sync_step sys sys' -> sync_array_counted (arr (shared sys)) ->
  sync_array_counted (arr (shared sys')).
Proof.
  intros Hstep Hinv.
  destruct (step_arr _ _ Hstep)
    as [(object & type & file & line & r & H)
       |[H|[(b & index & self & ev & H)|[(index & H)|H]]]].
  - eapply counted_reserve_locked; eauto.
  - apply stamped_locked_part, locked_part_fields in H
      as (H1 & H2 & _ & _ & H3 & H4).
    destruct Hinv as ((Hlen & Hpos & Hmax) & Hcount).
    unfold sync_array_counted, sync_array_bounded.
    rewrite H1, H2, H3, H4. auto.
  - eapply counted_wait_event_enter; eauto.
  - eapply counted_free_cell; eauto.
  - rewrite H. exact Hinv.
Qed.

Lemma counted_steps sys sys' :
  rtc sync_step sys sys' -> sync_array_counted (arr (shared sys)) ->
  sync_array_counted (arr (shared sys')).
Proof.
  intros Hsteps. induction Hsteps as [sys|sys1 sys2 sys3 Hstep _ IH]; auto.
  intros Hinv. apply IH. eapply counted_step; eauto.
Qed.

Lemma inv_counted a :
  sync_array_inv a
  <-> sync_array_counted a /\ n_cells a = Z.of_nat (length (array a)).
Proof.
  unfold sync_array_inv, sync_array_wf, sync_array_counted,
    sync_array_bounded.
  split; [intros ((H1 & H2 & H3) & H4)|intros (((H1 & H2 & H3) & H4) & H5)];
    repeat split; auto; lia.
Qed.

Lemma inv_steps sys sys' :
  rtc sync_step sys sys' -> sync_array_inv (arr (shared sys)) ->
  sync_array_inv (arr (shared sys')).
Proof.
  intros Hsteps Hinv. apply inv_counted in Hinv as (Hc & Hlen).
  destruct (steps_size _ _ Hsteps) as (H1 & H2).
  apply inv_counted. split; [eapply counted_steps; eauto|].
  rewrite H1, H2. exact Hlen.
Qed.

Lemma inv_step sys sys' :
  sync_step sys sys' -> sync_array_inv (arr (shared sys)) ->
  sync_array_inv (arr (shared sys')).
Proof. intros Hstep. apply inv_steps. apply rtc_once. exact Hstep. Qed.

Lemma counted_reachable n s :
  0 < n <= ULINT_MAX -> reachable n s -> sync_array_counted (arr s).
Proof.
  intros Hn (m & m' & a0 & h0 & sys & Hcreate & Hsteps & <-).
  apply (counted_steps _ _ Hsteps). simpl.
  eapply counted_create; eauto.
Qed.

Lemma inv_reachable n s :
  0 < n -> Z.pos sizeof_sync_cell_t * n <= ULINT_MAX -> reachable n s ->
  sync_array_inv (arr s).
Proof.
  intros Hn Hmax (m & m' & a0 & h0 & sys & Hcreate & Hsteps & <-).
  apply (inv_steps _ _ Hsteps). simpl.
  eapply inv_create; eauto.
Qed.

(** The counting loop on an array that may be short of cells: it counts the
    reserved cells, or reads behind the last cell. *)
Lemma validate_loop_bounded a rem i count :
  sync_array_bounded a -> 0 <= i -> i + Z.of_nat rem = n_cells a ->
  0 <= count ->
  count + count_reserved (drop (Z.to_nat i) (array a)) <= ULINT_MAX ->
  validate_loop rem a i count
  = Ret (count + count_reserved (drop (Z.to_nat i) (array a)))
  \/ validate_loop rem a i count = Fault.
Proof.
  intros Hb. revert i count.
  induction rem as [|rem IH]; intros i count Hi Hrem Hc Hmax; simpl.
  - left. destruct Hb as (Hlen & _).
    rewrite drop_ge by lia. simpl. f_equal. lia.
  - unfold sync_array_get_nth_cell, ut_a.
    destruct (i <? n_cells a) eqn:Hlt; [|lia]. simpl.
    unfold cell_at. destruct (array a !! Z.to_nat i) as [c|] eqn:Hc1;
      [|right; reflexivity].
    destruct (0 <=? i) eqn:Hi'; [|lia]. simpl.
    rewrite (count_reserved_drop _ _ _ Hc1) in Hmax |- *.
    replace (S (Z.to_nat i)) with (Z.to_nat (i + 1)) in * by lia.
    pose proof (count_reserved_nonneg (drop (Z.to_nat (i + 1)) (array a))).
    destruct (cell_reserved c).
    + rewrite ulint_incr_small by lia.
      destruct (IH (i + 1) (count + 1)) as [-> | ->]; try lia;
        [left; f_equal; lia|right; reflexivity].
    + destruct (IH (i + 1) count) as [-> | ->]; try lia;
        [left; f_equal|right; reflexivity].
Qed.

Lemma validate_counted a :
  sync_array_counted a -> sync_array_validate a <> Abort.
Proof.
  intros (Hb & Hcount).
  unfold sync_array_validate, sync_array_enter.
  destruct (os_mutex a) eqn:Hmx; simpl; [discriminate|].
  pose proof (count_reserved_le_length (array a)) as Hle.
  assert (Hb1 : sync_array_bounded (set_os_mutex a true)) by exact Hb.
  destruct Hb as (Hlen & Hpos & Hmax).
  destruct (validate_loop_bounded (set_os_mutex a true)
              (Z.to_nat (n_cells a)) 0 0 Hb1) as [-> | ->];
    simpl; rewrite ?drop_0; try lia; [|discriminate].
  unfold ut_a. rewrite Hcount, Z.eqb_refl. discriminate.
Qed.

(** C1. In every state a wait array can reach, the number of cells with a
    non-null [wait_object] equals [n_reserved]: [sync_array_reserve_cell],
    [sync_array_wait_event] and [sync_array_free_cell] each keep it so, as
    does every single step of a thread, the writes of a reserving thread
    behind the mutex among them; the assertion of [sync_array_validate]
    never fails; and in an array whose cells have a size that fits a
    [ulint], the validation returns when the mutex is free. *)
Theorem reserved_count_invariant :
  (forall s object type file line self now s' r,
      sync_array_inv (arr s) ->
      sync_array_reserve_cell s object type file line self now
      = Ret (s', r) ->
      sync_array_inv (arr s'))
  /\ (forall b s index self s',
        sync_array_inv (arr s) ->
        sync_array_wait_event b s index self = Ret s' ->
        sync_array_inv (arr s'))
  /\ (forall s index s',
        sync_array_inv (arr s) ->
        sync_array_free_cell s index = Ret s' ->
        sync_array_inv (arr s'))
  /\ (forall sys sys',
        sync_array_inv (arr (shared sys)) -> sync_step sys sys' ->
        sync_array_inv (arr (shared sys')))
  /\ (forall n s,
        0 < n <= ULINT_MAX -> reachable n s ->
        count_reserved (array (arr s)) = n_reserved (arr s)
        /\ sync_array_validate (arr s) <> Abort
        /\ (Z.pos sizeof_sync_cell_t * n <= ULINT_MAX ->
            os_mutex (arr s) = false ->
            sync_array_validate (arr s) = Ret (arr s))).
Proof.
  split; [intros; eapply inv_reserve_cell; eauto|].
  split; [intros; eapply inv_wait_event; eauto|].
  split; [intros; eapply inv_free_cell; eauto|].
  split; [intros; eapply inv_step; eauto|].
  intros n s Hn Hreach.
  pose proof (counted_reachable n s Hn Hreach) as Hc.
  split; [exact (proj2 Hc)|].
  split; [apply validate_counted; exact Hc|].
  intros Hmax Hmx. apply validate_inv; [|exact Hmx].
  apply (inv_reachable n s); [lia|exact Hmax|exact Hreach].
Qed.

(** C10. When [sync_array_reserve_cell] succeeds, the index it returns is
    the smallest index of a free cell at entry: the cell there was free, every
    cell at a smaller index was occupied, and no free cell has a smaller
    index.  That cell is the one that is taken: after the call it holds the
    object, the request type and the thread of the caller, every other cell
    is as it was, and one more cell is counted as reserved. *)
Theorem reserve_cell_takes_first_free s object type file line self now s' i :
  sync_array_wf (arr s) ->
  sync_array_reserve_cell s object type file line self now
  = Ret (s', Some i) ->
  0 <= i < n_cells (arr s)
  /\ (exists c, array (arr s) !! Z.to_nat i = Some c /\ wait_object c = NULL)
  /\ (forall k c, 0 <= k < i -> array (arr s) !! Z.to_nat k = Some c ->
                  wait_object c <> NULL)
  /\ (forall k c, 0 <= k -> array (arr s) !! Z.to_nat k = Some c ->
                  wait_object c = NULL -> i <= k)
  /\ (exists c', array (arr s') !! Z.to_nat i = Some c'
                 /\ wait_object c' = object /\ wait_object c' <> NULL
                 /\ request_type c' = type /\ thread c' = self
                 /\ waiting c' = false)
  /\ (forall k, 0 <= k -> k <> i ->
                array (arr s') !! Z.to_nat k = array (arr s) !! Z.to_nat k)
  /\ length (array (arr s')) = length (array (arr s))
  /\ n_reserved (arr s') = ulint_incr (n_reserved (arr s)).
Proof.
  intros Hwf Hret.
  destruct (reserve_cell_ret _ _ _ _ _ _ _ _ _ Hwf Hret)
    as (Hobj & _ & (Hi & (c & Hc & Hfree) & Hbefore) & Hcase).
  destruct Hcase as (c0 & ev & sig & Hc0 & _ & _ & Harr).
  split; [exact Hi|].
  split; [exists c; split; [exact Hc|lia]|].
  split; [|split; [|split; [|split; [|split]]]].
  - intros k c' Hk Hc'. specialize (Hbefore k c' Hk Hc'). simpl in Hbefore. lia.
  - intros k c' Hk Hc' Hnull.
    destruct (Z.le_gt_cases i k) as [Hle|Hgt]; [exact Hle|].
    specialize (Hbefore k c' ltac:(lia) Hc'). simpl in Hbefore. lia.
  - rewrite Harr. simpl. eexists. split.
    + apply list_lookup_insert_eq. eapply lookup_lt_Some; eauto.
    + simpl. repeat split; auto.
  - intros k Hk Hne. rewrite Harr. simpl.
    apply list_lookup_insert_ne. lia.
  - rewrite Harr. simpl. apply length_insert.
  - rewrite Harr. reflexivity.
Qed.

(** *** Reserving, freeing and waiting: when they return *)

Lemma get_event_ret h c ev :
  sync_cell_get_event h c = Ret ev -> ev = cell_event c.
Proof.
  unfold sync_cell_get_event, cell_event.
  destruct (request_type c);
    match goal with
    | |- context [mbind _ ?d] => destruct d; simpl; try discriminate
    end; intros [= <-]; reflexivity.
Qed.

Lemma os_event_reset_ret h ev h' sig :
  os_event_reset h ev = Ret (h', sig) ->
  exists e, event_load h ev = Ret e /\ sig = ev_signal_count e.
Proof.
  unfold os_event_reset.
  destruct (event_load h ev) as [e| | |]; simpl; try discriminate.
  destruct (event_store h ev _); simpl; try discriminate.
  intros [= <- <-]. eauto.
Qed.

Lemma object_typed_event h c object type file line :
  object_typed h object type ->
  exists ev, sync_cell_get_event h (reserve_fill c object type file line)
             = Ret ev
             /\ is_ret (os_event_reset h ev) = true.
Proof.
  unfold object_typed, sync_cell_get_event, os_event_reset, event_load,
    event_store, reserve_fill, as_mutex, as_rw_lock. simpl.
  destruct type; intros [x Hx]; rewrite Hx; simpl;
    (eexists; split; [reflexivity|]); simpl; repeat (rewrite Hx; simpl);
    reflexivity.
Qed.

Lemma count_reserved_free_cell cells i c :
  cells !! i = Some c -> cell_reserved c = false ->
  count_reserved cells < Z.of_nat (length cells).
Proof.
  intros Hc Hfree.
  pose proof (count_reserved_insert cells i c
                (mk_cell 1 0 0 (LOCK_CODE 0) 0 0 0 false 0 0) Hc) as Hins.
  pose proof (count_reserved_le_length
                (<[i := mk_cell 1 0 0 (LOCK_CODE 0) 0 0 0 false 0 0]> cells))
    as Hle.
  rewrite length_insert in Hle. rewrite Hfree in Hins. simpl in Hins. lia.
Qed.

Lemma count_reserved_reserved_cell cells i c :
  cells !! i = Some c -> cell_reserved c = true -> 0 < count_reserved cells.
Proof.
  intros Hc Hres.
  pose proof (count_reserved_insert cells i c zero_cell Hc) as Hins.
  pose proof (count_reserved_nonneg (<[i := zero_cell]> cells)) as Hnn.
  rewrite Hres in Hins. simpl in Hins. lia.
Qed.

Lemma free_cell_aborts s index :
  sync_array_wf (arr s) -> os_mutex (arr s) = false -> 0 <= index ->
  n_cells (arr s) <= index
  \/ (exists c, array (arr s) !! Z.to_nat index = Some c
                /\ wait_object c = NULL) ->
  sync_array_free_cell s index = Abort.
Proof.
  intros Hwf Hmx Hi Hcase.
  unfold sync_array_free_cell, sync_array_enter. rewrite Hmx. simpl.
  destruct (Z.le_gt_cases (n_cells (arr s)) index) as [Hge|Hlt].
  - rewrite get_nth_cell_abort by (simpl; lia). reflexivity.
  - destruct Hcase as [Hge|(c & Hc & Hnull)]; [lia|].
    assert (Hwf1 : sync_array_wf (set_os_mutex (arr s) true)) by exact Hwf.
    destruct (get_nth_cell_wf _ index Hwf1) as (c' & Hc' & ->);
      [simpl; lia|].
    simpl in Hc'. assert (c' = c) as -> by congruence. simpl.
    rewrite Hnull. reflexivity.
Qed.

Lemma wait_event_enter_returns b s index self c ev :
  sync_array_wf (arr s) -> os_mutex (arr s) = false ->
  0 <= index < n_cells (arr s) ->
  array (arr s) !! Z.to_nat index = Some c ->
  wait_object c <> NULL -> waiting c = false ->
  (UNIV_DEBUG b = true -> thread c = self) ->
  (UNIV_SYNC_DEBUG b = true ->
   sync_array_detect_deadlock
     (mk_state (store_cell (set_os_mutex (arr s) true) index (set_waiting c))
        (objects s))
     self index index 0
   = Ret false) ->
  sync_cell_get_event (objects s) c = Ret ev ->
  sync_array_wait_event_enter b s index self
  = Ret (mk_state
           (mk_array (n_reserved (arr s)) (n_cells (arr s))
              (<[Z.to_nat index := set_waiting c]> (array (arr s)))
              false (res_count (arr s)))
           (objects s), ev).
Proof.
  intros Hwf Hmx Hi Hc Hobj Hw Hthr Hsearch Hev.
  unfold sync_array_wait_event_enter, sync_array_enter. rewrite Hmx. simpl.
  assert (Hwf1 : sync_array_wf (set_os_mutex (arr s) true)) by exact Hwf.
  destruct (get_nth_cell_wf _ index Hwf1) as (c' & Hc' & ->); [simpl; lia|].
  simpl in Hc'. assert (c' = c) as -> by congruence. simpl.
  destruct (wait_object c =? NULL) eqn:Hfree; [lia|]. simpl.
  rewrite Hw. simpl. unfold ut_ad.
  destruct (UNIV_DEBUG b) eqn:Hd.
  - rewrite (Hthr eq_refl), Z.eqb_refl. simpl. rewrite Hev. simpl.
    destruct (UNIV_SYNC_DEBUG b) eqn:Hsd; [|reflexivity].
    rewrite (Hsearch eq_refl). reflexivity.
  - simpl. rewrite Hev. simpl.
    destruct (UNIV_SYNC_DEBUG b) eqn:Hsd; [|reflexivity].
    rewrite (Hsearch eq_refl). reflexivity.
Qed.

Lemma wait_event_enter_aborts b s index self :
  sync_array_wf (arr s) -> os_mutex (arr s) = false -> 0 <= index ->
  n_cells (arr s) <= index
  \/ (exists c, array (arr s) !! Z.to_nat index = Some c
                /\ (wait_object c = NULL \/ waiting c = true)) ->
  sync_array_wait_event_enter b s index self = Abort.
Proof.
  intros Hwf Hmx Hi Hcase.
  unfold sync_array_wait_event_enter, sync_array_enter. rewrite Hmx. simpl.
  destruct (Z.le_gt_cases (n_cells (arr s)) index) as [Hge|Hlt].
  - rewrite get_nth_cell_abort by (simpl; lia). reflexivity.
  - destruct Hcase as [Hge|(c & Hc & Hbad)]; [lia|].
    assert (Hwf1 : sync_array_wf (set_os_mutex (arr s) true)) by exact Hwf.
    destruct (get_nth_cell_wf _ index Hwf1) as (c' & Hc' & ->);
      [simpl; lia|].
    simpl in Hc'. assert (c' = c) as -> by congruence. simpl.
    destruct (wait_object c =? NULL) eqn:Hfree; [reflexivity|]. simpl.
    destruct Hbad as [Hnull|Hw]; [lia|]. rewrite Hw. reflexivity.
Qed.

(** With UNIV_DEBUG, [ut_ad(os_thread_get_curr_id() == cell->thread)] stops
    a thread that waits in a cell stamped by another thread. *)
Lemma wait_event_enter_wrong_thread b s index self c :
  os_mutex (arr s) = false -> 0 <= index < n_cells (arr s) ->
  array (arr s) !! Z.to_nat index = Some c ->
  wait_object c <> NULL -> waiting c = false ->
  UNIV_DEBUG b = true -> thread c <> self ->
  sync_array_wait_event_enter b s index self = Abort.
Proof.
  intros Hmx Hi Hc Hobj Hw Hd Hthr.
  unfold sync_array_wait_event_enter, sync_array_enter. rewrite Hmx. simpl.
  unfold sync_array_get_nth_cell, ut_a. simpl.
  destruct (index <? n_cells (arr s)) eqn:E1; [|lia]. simpl.
  rewrite (cell_at_lookup _ index c) by (simpl; first [lia|exact Hc]). simpl.
  destruct (wait_object c =? NULL) eqn:Hfree; [lia|]. simpl.
  rewrite Hw. simpl. unfold ut_ad, ut_a. rewrite Hd.
  destruct (self =? thread c) eqn:E; [lia|]. reflexivity.
Qed.

(** With UNIV_SYNC_DEBUG, a search that reports TRUE, or that stops on its
    depth assertion, stops the thread that was about to wait. *)
Lemma wait_event_enter_deadlock b s index self c :
  os_mutex (arr s) = false -> 0 <= index < n_cells (arr s) ->
  array (arr s) !! Z.to_nat index = Some c ->
  wait_object c <> NULL -> waiting c = false ->
  UNIV_SYNC_DEBUG b = true -> thread c = self ->
  is_ret (sync_cell_get_event (objects s) c) = true ->
  (let search :=
     sync_array_detect_deadlock
       (mk_state (store_cell (set_os_mutex (arr s) true) index (set_waiting c))
          (objects s))
       self index index 0 in
   search = Ret true \/ search = Abort) ->
  sync_array_wait_event_enter b s index self = Abort.
Proof.
  intros Hmx Hi Hc Hobj Hw Hsd Hthr Hev Hsearch.
  unfold sync_array_wait_event_enter, sync_array_enter. rewrite Hmx. simpl.
  unfold sync_array_get_nth_cell, ut_a. simpl.
  destruct (index <? n_cells (arr s)) eqn:E1; [|lia]. simpl.
  rewrite (cell_at_lookup _ index c) by (simpl; first [lia|exact Hc]). simpl.
  destruct (wait_object c =? NULL) eqn:Hfree; [lia|]. simpl.
  rewrite Hw. simpl. unfold ut_ad, ut_a.
  rewrite Hthr, Z.eqb_refl.
  destruct (UNIV_DEBUG b); simpl;
    (destruct (sync_cell_get_event (objects s) c) as [ev| | |];
       try discriminate; simpl; rewrite Hsd;
     simpl in Hsearch; destruct Hsearch as [-> | ->]; reflexivity).
Qed.

Lemma os_event_wait_low_cases h ev sig e :
  event_load h ev = Ret e ->
  (is_set e = true \/ ev_signal_count e <> sig ->
   os_event_wait_low h ev sig = Ret tt)
  /\ (is_set e = false -> ev_signal_count e = sig ->
      os_event_wait_low h ev sig = Blocked).
Proof.
  intros Hload. unfold os_event_wait_low. rewrite Hload. simpl. split.
  - intros [Hset|Hcount]; [rewrite Hset; reflexivity|].
    destruct (ev_signal_count e =? sig) eqn:E; [lia|].
    rewrite orb_true_r. reflexivity.
  - intros Hset Hcount. rewrite Hset, Hcount, Z.eqb_refl. reflexivity.
Qed.

(** C2 (as amended). [sync_array_reserve_cell] returns true and reserves a
    cell, recording the wait object, the request type and the calling thread
    in it and the signal count of the object's event, exactly when some cell
    is free at entry; when every cell is occupied it returns false and
    reserves nothing.  The other operations have no failure result, but they
    are not infallible.  [sync_array_free_cell] returns when the index names
    a reserved cell and stops on an assertion when it does not.
    [sync_array_wait_event] stops on an assertion when the index is out of
    range or the cell is free or already marked waiting; with UNIV_DEBUG also
    when the cell names another thread than the caller; with UNIV_SYNC_DEBUG
    also when the deadlock search reports TRUE or stops at its depth limit.
    When none of this applies it marks the cell waiting; it then frees the
    cell and returns if the event has been set since the signal count was
    recorded, and waits if it has not. *)
Theorem reserve_cell_iff_free_cell :
  (forall s object type file line self now,
      sync_array_inv (arr s) -> os_mutex (arr s) = false ->
      object <> NULL -> object_typed (objects s) object type ->
      exists s' r,
        sync_array_reserve_cell s object type file line self now
        = Ret (s', r)
        /\ (is_Some r <->
            exists k c, array (arr s) !! k = Some c /\ wait_object c = NULL)
        /\ match r with
           | Some i =>
               exists c e,
                 array (arr s') !! Z.to_nat i = Some c
                 /\ wait_object c = object /\ request_type c = type
                 /\ thread c = self
                 /\ event_load (objects s) (cell_event c) = Ret e
                 /\ signal_count c = ev_signal_count e
                 /\ n_reserved (arr s') = n_reserved (arr s) + 1
           | None =>
               array (arr s') = array (arr s)
               /\ n_reserved (arr s') = n_reserved (arr s)
               /\ objects s' = objects s
           end)
  /\ (forall s index,
        sync_array_inv (arr s) -> os_mutex (arr s) = false -> 0 <= index ->
        ((exists c, index < n_cells (arr s)
                    /\ array (arr s) !! Z.to_nat index = Some c
                    /\ wait_object c <> NULL) ->
         is_ret (sync_array_free_cell s index) = true)
        /\ (n_cells (arr s) <= index
            \/ (exists c, array (arr s) !! Z.to_nat index = Some c
                          /\ wait_object c = NULL) ->
            sync_array_free_cell s index = Abort))
  /\ (forall b s index self,
        sync_array_inv (arr s) -> os_mutex (arr s) = false -> 0 <= index ->
        (n_cells (arr s) <= index
         \/ (exists c, array (arr s) !! Z.to_nat index = Some c
                       /\ (wait_object c = NULL \/ waiting c = true)) ->
         sync_array_wait_event b s index self = Abort)
        /\ (forall c,
              index < n_cells (arr s) ->
              array (arr s) !! Z.to_nat index = Some c ->
              wait_object c <> NULL -> waiting c = false ->
              let search :=
                sync_array_detect_deadlock
                  (mk_state
                     (store_cell (set_os_mutex (arr s) true) index
                        (set_waiting c))
                     (objects s))
                  self index index 0 in
              (UNIV_DEBUG b = true -> thread c <> self ->
               sync_array_wait_event b s index self = Abort)
              /\ (UNIV_SYNC_DEBUG b = true -> thread c = self ->
                  is_ret (sync_cell_get_event (objects s) c) = true ->
                  search = Ret true \/ search = Abort ->
                  sync_array_wait_event b s index self = Abort)
              /\ (forall ev e,
                    (UNIV_DEBUG b = true -> thread c = self) ->
                    (UNIV_SYNC_DEBUG b = true -> search = Ret false) ->
                    sync_cell_get_event (objects s) c = Ret ev ->
                    event_load (objects s) ev = Ret e ->
                    (exists s1 c1,
                        sync_array_wait_event_enter b s index self
                        = Ret (s1, ev)
                        /\ wait_event_signal_count s1 index
                           = Ret (signal_count c)
                        /\ array (arr s1) !! Z.to_nat index = Some c1
                        /\ wait_object c1 = wait_object c
                        /\ waiting c1 = true /\ objects s1 = objects s)
                    /\ (is_set e = true
                        \/ ev_signal_count e <> signal_count c ->
                        exists s' c',
                          sync_array_wait_event b s index self = Ret s'
                          /\ array (arr s') !! Z.to_nat index = Some c'
                          /\ wait_object c' = NULL)
                    /\ (is_set e = false ->
                        ev_signal_count e = signal_count c ->
                        sync_array_wait_event b s index self = Blocked)))).
Proof.
  split; [|split].
  - intros s object type file line self now (Hwf & Hcount) Hmx Hobj Htyped.
    destruct (reserve_cell_returns s object type file line self now
                Hwf Hmx Hobj (object_typed_event _ _ _ _ _ _ Htyped))
      as (s' & r & Hret).
    exists s', r. split; [exact Hret|].
    destruct (reserve_cell_ret _ _ _ _ _ _ _ _ _ Hwf Hret)
      as (_ & _ & Hfirst & Hcase).
    destruct r as [i|].
    + destruct Hcase as (c & ev & sig & Hc & Hev & Hreset & Harr).
      destruct Hfirst as (Hi & (c0 & Hc0 & Hfree) & _).
      assert (c0 = c) as -> by congruence.
      split.
      * split; [intros _|eauto].
        exists (Z.to_nat i), c. split; [exact Hc|lia].
      * exists (reserve_stamp (reserve_fill c object type file line)
                  sig now self).
        apply os_event_reset_ret in Hreset as (e & Hload & ->).
        apply get_event_ret in Hev. subst ev.
        exists e. rewrite Harr. simpl.
        destruct Hwf as (Hlen & Hpos & Hmax).
        split; [apply list_lookup_insert_eq; lia|].
        split; [reflexivity|]. split; [reflexivity|]. split; [reflexivity|].
        split; [exact Hload|]. split; [reflexivity|].
        assert (Hfree' : cell_reserved c = false)
          by (unfold cell_reserved; rewrite Hfree; reflexivity).
        pose proof (count_reserved_free_cell _ _ _ Hc Hfree').
        pose proof (count_reserved_nonneg (array (arr s))).
        apply ulint_incr_small. lia.
    + subst s'. simpl. split; [|tauto].
      split; [intros [x Hx]; discriminate|].
      intros (k & c & Hc & Hnull). exfalso.
      simpl in Hfirst.
      specialize (Hfirst (Z.of_nat k) c ltac:(lia)).
      rewrite Nat2Z.id in Hfirst. specialize (Hfirst Hc). lia.
  - intros s index (Hwf & Hcount) Hmx Hi. split.
    + intros (c & Hlt & Hc & Hobj).
      apply (free_cell_returns s index c Hmx ltac:(lia) Hc Hobj).
      rewrite <- Hcount. eapply count_reserved_reserved_cell; [exact Hc|].
      unfold cell_reserved. destruct (wait_object c =? NULL) eqn:E; [lia|].
      reflexivity.
    + apply free_cell_aborts; assumption.
  - intros b s index self (Hwf & Hcount) Hmx Hi. split.
    + intros Hcase. unfold sync_array_wait_event.
      rewrite wait_event_enter_aborts by assumption. reflexivity.
    + intros c Hlt Hc Hobj Hw search. split; [|split].
      * intros Hd Hthr. unfold sync_array_wait_event.
        rewrite (wait_event_enter_wrong_thread b s index self c)
          by (try assumption; lia).
        reflexivity.
      * intros Hsd Hthr Hev Hsearch. unfold sync_array_wait_event.
        rewrite (wait_event_enter_deadlock b s index self c)
          by (try assumption; lia).
        reflexivity.
      * intros ev e Hthr Hsearch Hev Hload.
        pose proof (wait_event_enter_returns b s index self c ev Hwf Hmx
                      ltac:(lia) Hc Hobj Hw Hthr Hsearch Hev) as Henter.
        set (s1 := mk_state _ (objects s)) in Henter.
        assert (Hlt' : (Z.to_nat index < length (array (arr s)))%nat)
          by (apply lookup_lt_is_Some; eauto).
        assert (Hc1 : array (arr s1) !! Z.to_nat index
                      = Some (set_waiting c))
          by (apply list_lookup_insert_eq; exact Hlt').
        assert (Hcount1 : wait_event_signal_count s1 index
                          = Ret (signal_count c)).
        { unfold wait_event_signal_count.
          rewrite (cell_at_lookup _ index (set_waiting c) Hi Hc1).
          reflexivity. }
        destruct (os_event_wait_low_cases (objects s1) ev (signal_count c) e
                    Hload) as (Hgo & Hsleep).
        split; [|split].
        -- exists s1, (set_waiting c). split; [exact Henter|].
           split; [exact Hcount1|].
           split; [exact Hc1|]. repeat split; reflexivity.
        -- intros Hsig. unfold sync_array_wait_event. rewrite Henter.
           cbn [mbind outcome_bind]. rewrite Hcount1.
           cbn [mbind outcome_bind]. unfold sync_array_wait_event_wake.
           rewrite (Hgo Hsig). cbn [mbind outcome_bind].
           assert (Hpos : 0 < n_reserved (arr s1)).
           { simpl. rewrite <- Hcount.
             eapply count_reserved_reserved_cell; [exact Hc|].
             unfold cell_reserved.
             destruct (wait_object c =? NULL) eqn:E; [lia|]. reflexivity. }
           pose proof (free_cell_returns s1 index (set_waiting c) eq_refl
                         ltac:(simpl; lia) Hc1 Hobj Hpos) as Hret.
           destruct (sync_array_free_cell s1 index) as [s'| | |] eqn:Hfree;
             try discriminate.
           destruct (free_cell_ret _ _ _ Hfree)
             as (_ & _ & _ & c1 & Hc1' & _ & ->).
           eexists _, (free_fill c1). split; [reflexivity|]. simpl.
           split; [|reflexivity].
           apply list_lookup_insert_eq. rewrite length_insert. exact Hlt'.
        -- intros Hset Hcnt. unfold sync_array_wait_event. rewrite Henter.
           cbn [mbind outcome_bind]. rewrite Hcount1.
           cbn [mbind outcome_bind]. unfold sync_array_wait_event_wake.
           rewrite (Hsleep Hset Hcnt). reflexivity.
Qed.

(** *** The reservation total *)

Lemma step_res_count sys sys' :
  sync_step sys sys' ->
  res_count (arr (shared sys')) = res_count (arr (shared sys))
  \/ res_count (arr (shared sys')) = ulint_incr (res_count (arr (shared sys))).
Proof.
  intros Hstep.
  destruct (step_arr _ _ Hstep)
    as [(object & type & file & line & r & H)
       |[H|[(b & index & self & ev & H)|[(index & H)|H]]]].
  - right. apply reserve_cell_locked_ret in H as (_ & _ & _ & Hcase).
    destruct r as [i|].
    + destruct Hcase as (c & _ & _ & _ & ->). reflexivity.
    + rewrite Hcase. reflexivity.
  - left. apply stamped_locked_part, locked_part_fields in H. tauto.
  - left. apply wait_event_enter_ret in H
      as (_ & _ & c & _ & _ & _ & ->). reflexivity.
  - left. apply free_cell_ret in H as (_ & _ & _ & c & _ & _ & ->).
    reflexivity.
  - left. rewrite H. reflexivity.
Qed.

(** C9 (as amended). [sync_array_reserve_cell] adds one to [res_count],
    modulo the range of [ulint], on every call that returns, also when it
    returns false because no cell is free (and then [n_reserved] stays as it
    was); no other operation changes [res_count], nor do the writes of a
    reserving thread behind the mutex.  So [res_count] counts attempts and,
    until it wraps from ULINT_MAX to 0, never decreases. *)
Theorem res_count_counts_attempts :
  (forall s object type file line self now s' r,
      sync_array_wf (arr s) ->
      sync_array_reserve_cell s object type file line self now
      = Ret (s', r) ->
      res_count (arr s') = ulint_incr (res_count (arr s))
      /\ (0 <= res_count (arr s) < ULINT_MAX ->
          res_count (arr s') = res_count (arr s) + 1)
      /\ (r = None -> n_reserved (arr s') = n_reserved (arr s)))
  /\ (forall s index s',
        sync_array_free_cell s index = Ret s' ->
        res_count (arr s') = res_count (arr s))
  /\ (forall b s index self s' ev,
        sync_array_wait_event_enter b s index self = Ret (s', ev) ->
        res_count (arr s') = res_count (arr s))
  /\ (forall s s' signalled,
        sync_array_wake_threads_if_sema_free_low s = Ret (s', signalled) ->
        res_count (arr s') = res_count (arr s))
  /\ (forall sys sys',
        sync_array_wf (arr (shared sys)) ->
        0 <= res_count (arr (shared sys)) < ULINT_MAX ->
        sync_step sys sys' ->
        res_count (arr (shared sys)) <= res_count (arr (shared sys'))).
Proof.
  split; [|split; [|split; [|split]]].
  - intros s object type file line self now s' r Hwf Hret.
    destruct (reserve_cell_ret _ _ _ _ _ _ _ _ _ Hwf Hret)
      as (_ & _ & _ & Hcase).
    assert (Hincr : res_count (arr s') = ulint_incr (res_count (arr s))).
    { destruct r as [i|].
      - destruct Hcase as (c & ev & sig & _ & _ & _ & ->). reflexivity.
      - subst s'. reflexivity. }
    split; [exact Hincr|]. split.
    + intros Hrange. rewrite Hincr. apply ulint_incr_small. exact Hrange.
    + intros ->. subst s'. reflexivity.
  - intros s index s' Hret.
    apply free_cell_ret in Hret as (_ & _ & _ & c & _ & _ & ->). reflexivity.
  - intros b s index self s' ev Hret.
    apply wait_event_enter_ret in Hret as (_ & _ & c & _ & _ & _ & ->).
    reflexivity.
  - intros s s' signalled Hret.
    rewrite (wake_threads_arr _ _ _ Hret). reflexivity.
  - intros sys sys' Hwf Hrange Hstep.
    destruct (step_res_count sys sys' Hstep) as [->| ->]; [lia|].
    rewrite ulint_incr_small by exact Hrange. lia.
Qed.

(** *** Events after the sweep *)

Lemma event_load_store h e v h' :
  event_store h e v = Ret h' -> event_load h' e = Ret v.
Proof.
  destruct e as [p f]. unfold event_store, event_load, as_mutex, as_rw_lock.
  simpl. destruct f; destruct (h !! p) as [[m|l]|]; simpl; try discriminate;
    intros [= <-]; rewrite lookup_insert_eq; reflexivity.
Qed.

Lemma event_load_store_ne h e v h' e' :
  event_store h e v = Ret h' -> e' <> e -> event_load h' e' = event_load h e'.
Proof.
  destruct e as [p f], e' as [p' f'].
  unfold event_store, event_load, as_mutex, as_rw_lock. simpl.
  intros Hstore Hne. destruct (decide (p = p')) as [<-|Hp].
  - destruct f; destruct (h !! p) as [[m|l]|] eqn:Hlook; simpl in Hstore;
      try discriminate; injection Hstore as <-;
      rewrite lookup_insert_eq; destruct f'; simpl; try reflexivity;
      congruence.
  - destruct f; destruct (h !! p) as [[m|l]|] eqn:Hlook; simpl in Hstore;
      try discriminate; injection Hstore as <-;
      rewrite lookup_insert_ne by exact Hp; reflexivity.
Qed.

Lemma os_event_set_load h e h' :
  os_event_set h e = Ret h' ->
  exists v, event_load h' e = Ret v /\ is_set v = true.
Proof.
  unfold os_event_set. destruct (event_load h e) as [v| | |]; simpl;
    try discriminate.
  intros Hstore. apply event_load_store in Hstore. eauto.
Qed.

Lemma os_event_set_load_ne h e h' e' :
  os_event_set h e = Ret h' -> e' <> e -> event_load h' e' = event_load h e'.
Proof.
  unfold os_event_set. destruct (event_load h e) as [v| | |]; simpl;
    try discriminate.
  apply event_load_store_ne.
Qed.

Lemma set_events_not_in h evs h' ev :
  set_events h evs = Ret h' -> ev ∉ evs ->
  event_load h' ev = event_load h ev.
Proof.
  revert h. induction evs as [|e evs IH]; intros h; simpl.
  - intros [= <-] _. reflexivity.
  - destruct (os_event_set h e) as [h1| | |] eqn:Hset; simpl;
      try discriminate.
    intros Hrest Hnot. apply not_elem_of_cons in Hnot as [Hne Hnot].
    rewrite (IH h1 Hrest Hnot). eapply os_event_set_load_ne; eauto.
Qed.

Lemma set_events_keeps_set h evs h' ev :
  set_events h evs = Ret h' ->
  (exists v, event_load h ev = Ret v /\ is_set v = true) ->
  exists v, event_load h' ev = Ret v /\ is_set v = true.
Proof.
  revert h. induction evs as [|e evs IH]; intros h; simpl.
  - intros [= <-] Hv. exact Hv.
  - destruct (os_event_set h e) as [h1| | |] eqn:Hset; simpl;
      try discriminate.
    intros Hrest Hv. apply (IH h1 Hrest).
    destruct (decide (ev = e)) as [->|Hne].
    + eapply os_event_set_load; eauto.
    + rewrite (os_event_set_load_ne _ _ _ _ Hset Hne). exact Hv.
Qed.

Lemma set_events_in h evs h' ev :
  set_events h evs = Ret h' -> ev ∈ evs ->
  exists v, event_load h' ev = Ret v /\ is_set v = true.
Proof.
  revert h. induction evs as [|e evs IH]; intros h; simpl.
  - intros _ Hin. apply elem_of_nil in Hin. contradiction.
  - destruct (os_event_set h e) as [h1| | |] eqn:Hset; simpl;
      try discriminate.
    intros Hrest Hin.
    destruct (decide (ev = e)) as [->|Hne].
    + eapply set_events_keeps_set; [exact Hrest|].
      eapply os_event_set_load; eauto.
    + apply elem_of_cons in Hin as [Heq|Hin]; [contradiction|].
      eapply IH; eauto.
Qed.

Lemma set_events_same_locks h evs h' :
  set_events h evs = Ret h' -> same_locks h h'.
Proof.
  revert h. induction evs as [|e evs IH]; intros h; simpl.
  - intros [= <-]. apply same_locks_refl.
  - destruct (os_event_set h e) as [h1| | |] eqn:Hset; simpl;
      try discriminate.
    intros Hrest. eapply same_locks_trans; [|apply IH; exact Hrest].
    eapply os_event_set_same_locks; eauto.
Qed.

(** The test of [sync_arr_cell_can_wake_up] is the release predicate. *)
Lemma can_wake_up_iff h c :
  sync_arr_cell_can_wake_up h c = Ret true <-> release_predicate h c.
Proof.
  unfold sync_arr_cell_can_wake_up, release_predicate, as_mutex, as_rw_lock.
  destruct (request_type c).
  - destruct (h !! wait_object c) as [[m|l]|]; simpl; split;
      try discriminate; try (intros (x & [=] & _); fail).
    + intros [= Hz]. exists m. split; [reflexivity|lia].
    + intros (x & [= <-] & Hz). f_equal. lia.
  - destruct (h !! wait_object c) as [[m|l]|]; simpl; split;
      try discriminate; try (intros (x & [=] & _); fail).
    + intros [= Hz]. exists l. split; [reflexivity|lia].
    + intros (x & [= <-] & Hz). f_equal. lia.
  - destruct (h !! wait_object c) as [[m|l]|]; simpl; split;
      try discriminate; try (intros (x & [=] & _); fail).
    + intros [= Hz]. exists l. split; [reflexivity|lia].
    + intros (x & [= <-] & Hz). f_equal. lia.
  - destruct (h !! wait_object c) as [[m|l]|]; simpl; split;
      try discriminate; try (intros (x & [=] & _); fail).
    + intros [= Hz]. exists l. split; [reflexivity|lia].
    + intros (x & [= <-] & Hz). f_equal. lia.
  - split; [discriminate|contradiction].
Qed.

Lemma wake_up_event_iff h c ev :
  wake_up_event h c = Some ev
  <-> wait_object c <> NULL /\ cell_event c = ev /\ release_predicate h c.
Proof.
  rewrite <- can_wake_up_iff. unfold wake_up_event, cell_reserved.
  destruct (wait_object c =? NULL) eqn:Hnull; simpl.
  - split; [discriminate|]. intros (H & _). lia.
  - destruct (sync_arr_cell_can_wake_up h c) as [[|]| | |]; split;
      try discriminate; try (intros (_ & _ & [=]); fail).
    + intros [= <-]. split; [lia|]. split; reflexivity.
    + intros (_ & -> & _). reflexivity.
Qed.

(** C3. On a state that satisfies the counting invariant, the sweep calls
    [os_event_set] on exactly the events of the reserved cells whose wait
    object satisfies the release predicate of the cell's request type
    (MUTEX: lock_word = 0; RWL_SHARED and RWL_EXCLUSIVE: lock_word > 0;
    RWL_WAIT_EXCLUSIVE: lock_word = 0).  Those events are signalled
    afterwards, every other event is as it was, and neither the cells nor
    the lock words change. *)
Theorem unstick_sweep_sets_released_cells s :
  sync_array_inv (arr s) -> os_mutex (arr s) = false ->
  cells_typed (objects s) (arr s) ->
  exists h' signalled,
    sync_array_wake_threads_if_sema_free_low s
    = Ret (mk_state (arr s) h', signalled)
    /\ (forall ev,
          ev ∈ signalled <->
          exists k c, array (arr s) !! k = Some c /\ wait_object c <> NULL
                      /\ cell_event c = ev
                      /\ release_predicate (objects s) c)
    /\ (forall ev, ev ∈ signalled ->
                   exists v, event_load h' ev = Ret v /\ is_set v = true)
    /\ (forall ev, ev ∉ signalled ->
                   event_load h' ev = event_load (objects s) ev)
    /\ same_locks (objects s) h'.
Proof.
  intros (Hwf & Hcount) Hmx Htyped.
  assert (Hwf1 : sync_array_wf (set_os_mutex (arr s) true)) by exact Hwf.
  pose proof (count_reserved_le_length (array (arr s))) as Hle.
  destruct (wake_loop_spec (set_os_mutex (arr s) true) (objects s) Hwf1
              Htyped ltac:(destruct Hwf as (? & ? & ?); simpl; lia)
              (Z.to_nat (n_cells (arr s))) 0 0 (objects s) [])
    as (h' & Hloop & Hsets); simpl; rewrite ?drop_0;
    try (destruct Hwf as (? & ? & ?); lia); [apply same_locks_refl|].
  simpl in Hloop, Hsets. rewrite drop_0 in Hloop, Hsets.
  exists h', (omap (wake_up_event (objects s)) (array (arr s))).
  split.
  - unfold sync_array_wake_threads_if_sema_free_low, sync_array_enter.
    rewrite Hmx. simpl. rewrite Hloop. simpl.
    rewrite exit_enter by exact Hmx. reflexivity.
  - split; [|split; [|split]].
    + intros ev. rewrite list_elem_of_omap. split.
      * intros (c & Hin & Hw). apply list_elem_of_lookup in Hin as [k Hk].
        apply wake_up_event_iff in Hw. exists k, c. tauto.
      * intros (k & c & Hk & Hw). exists c. split.
        -- apply list_elem_of_lookup. eauto.
        -- apply wake_up_event_iff. exact Hw.
    + intros ev Hin. eapply set_events_in; eauto.
    + intros ev Hnot. eapply set_events_not_in; eauto.
    + eapply set_events_same_locks; eauto.
Qed.

(** *** Creating the arrays *)

(** The array [sync_array_create] returns when the size of its cells fits
    a [ulint]. *)
Lemma create_granted m n m1 m2 :
  0 < n -> Z.pos sizeof_sync_cell_t * n <= ULINT_MAX ->
  ut_malloc m (Z.pos sizeof_sync_array_t) = Ret m1 ->
  ut_malloc m1 (Z.pos sizeof_sync_cell_t * n) = Ret m2 ->
  sync_array_create m n
  = Ret (m2, mk_array 0 n (replicate (Z.to_nat n) zero_cell) false 0).
Proof.
  intros Hn Hmax H1 H2. unfold sync_array_create, ut_a.
  destruct (0 <? n) eqn:E; [|lia]. simpl. rewrite H1. simpl.
  destruct (items_of_size sizeof_sync_cell_t n Hn) as (_ & Heq).
  destruct (Heq Hmax) as (-> & ->). rewrite H2. reflexivity.
Qed.

Lemma init_loop_ret rem m slots i n_slots :
  0 < n_slots -> Z.pos sizeof_sync_cell_t * n_slots <= ULINT_MAX ->
  0 <= i -> i + Z.of_nat rem <= slots ->
  is_ret (ut_malloc_all m
            (mjoin (replicate rem
                      [Z.pos sizeof_sync_array_t;
                       Z.pos sizeof_sync_cell_t * n_slots]))) = true ->
  exists m',
    ut_malloc_all m
      (mjoin (replicate rem
                [Z.pos sizeof_sync_array_t;
                 Z.pos sizeof_sync_cell_t * n_slots])) = Ret m'
    /\ init_loop rem m slots i n_slots
       = Ret (m', replicate rem
                    (mk_array 0 n_slots
                       (replicate (Z.to_nat n_slots) zero_cell) false 0)).
Proof.
  intros Hpos Hmax. revert m i.
  induction rem as [|rem IH]; intros m i Hi Hslots.
  - intros _. exists m. split; reflexivity.
  - cbn [replicate mjoin list_join app ut_malloc_all init_loop].
    destruct (ut_malloc m (Z.pos sizeof_sync_array_t)) as [m1| | |] eqn:H1;
      simpl; try discriminate.
    destruct (ut_malloc m1 (Z.pos sizeof_sync_cell_t * n_slots))
      as [m2| | |] eqn:H2; simpl; try discriminate.
    intros Hrest.
    destruct (IH m2 (i + 1)) as (m' & Hall & Hloop); [lia|lia|exact Hrest|].
    exists m'. split; [exact Hall|].
    rewrite (create_granted m n_slots m1 m2 Hpos Hmax H1 H2). simpl.
    destruct (i <? slots) eqn:E; [|lia]. simpl.
    rewrite Hloop. reflexivity.
Qed.

Lemma n_slots_exact n_threads instances :
  0 < n_threads <= ULINT_MAX -> 0 < instances ->
  ulint_wrap (1 + ulint_wrap (n_threads - 1) / instances)
  = 1 + (n_threads - 1) / instances
  /\ 0 < 1 + (n_threads - 1) / instances <= n_threads.
Proof.
  intros Hn Hi.
  assert (Hq : 0 <= (n_threads - 1) / instances <= n_threads - 1).
  { split; [apply Z.div_pos; lia|].
    apply Z.div_le_upper_bound; [lia|]. nia. }
  split; [|lia].
  unfold ulint_wrap, ULINT_MAX in *.
  rewrite (Z.mod_small (n_threads - 1)) by lia.
  apply Z.mod_small. lia.
Qed.

(** What [sync_array_init] returns when the sizes it asks for fit a [ulint]
    and [ut_malloc] grants them. *)
Lemma sync_array_init_ret m n_threads instances :
  0 < n_threads <= ULINT_MAX -> 0 < instances ->
  Z.pos sizeof_pointer * instances <= ULINT_MAX ->
  Z.pos sizeof_sync_cell_t * (1 + (n_threads - 1) / instances)
  <= ULINT_MAX ->
  is_ret (ut_malloc_all m
            (init_requests instances (1 + (n_threads - 1) / instances)))
  = true ->
  exists m',
    sync_array_init m None instances n_threads
    = Ret (m', replicate (Z.to_nat instances)
                 (mk_array 0 (1 + (n_threads - 1) / instances)
                    (replicate (Z.to_nat (1 + (n_threads - 1) / instances))
                       zero_cell) false 0)).
Proof.
  intros Hn Hi Htable Hcells.
  destruct (n_slots_exact n_threads instances Hn Hi) as (Hslots & Hrange).
  set (n_slots := 1 + (n_threads - 1) / instances) in *.
  unfold init_requests. cbn [ut_malloc_all].
  destruct (ut_malloc m (Z.pos sizeof_pointer * instances))
    as [m1| | |] eqn:H1; simpl; try discriminate.
  intros Hrest.
  destruct (init_loop_ret (Z.to_nat instances) m1 instances 0 n_slots)
    as (m' & _ & Hloop); [lia|exact Hcells|lia|lia|exact Hrest|].
  exists m'. unfold sync_array_init, ut_a. simpl.
  destruct (0 <? instances) eqn:E1; [|lia].
  destruct (0 <? n_threads) eqn:E2; [|lia]. simpl.
  destruct (items_of_size sizeof_pointer instances Hi) as (_ & Heq).
  destruct (Heq Htable) as (-> & ->). rewrite H1. simpl.
  rewrite Hslots. exact Hloop.
Qed.

Lemma ceil_div_cases n d :
  0 < n -> 0 < d ->
  (n mod d <> 0 -> 1 + (n - 1) / d = n / d + 1)
  /\ (n mod d = 0 -> 1 + (n - 1) / d = n / d).
Proof.
  intros Hn Hd.
  pose proof (Z.div_mod n d ltac:(lia)) as Hdm.
  pose proof (Z.mod_pos_bound n d Hd) as Hr.
  split; intros Hmod.
  - assert ((n - 1) / d = n / d) as ->; [|lia].
    symmetry. apply (Z.div_unique (n - 1) d (n / d) (n mod d - 1)); lia.
  - assert ((n - 1) / d = n / d - 1) as ->; [|lia].
    symmetry. apply (Z.div_unique (n - 1) d (n / d - 1) (d - 1)); lia.
Qed.

(** C7 (as amended). When the sizes it asks for fit a [ulint] and
    [ut_malloc] grants them, [sync_array_init] creates as many instances as
    configured, each with [1 + (n_threads - 1) / instances] zeroed cells,
    the quotient rounded up: that is [n_threads / instances + 1] only when
    the number of instances does not divide [n_threads], and
    [n_threads / instances] when it does. *)
Theorem sync_array_init_cells m n_threads instances :
  0 < n_threads <= ULINT_MAX -> 0 < instances ->
  Z.pos sizeof_pointer * instances <= ULINT_MAX ->
  Z.pos sizeof_sync_cell_t * (1 + (n_threads - 1) / instances)
  <= ULINT_MAX ->
  is_ret (ut_malloc_all m
            (init_requests instances (1 + (n_threads - 1) / instances)))
  = true ->
  exists m' arrs,
    sync_array_init m None instances n_threads = Ret (m', arrs)
    /\ Z.of_nat (length arrs) = instances
    /\ forall a, a ∈ arrs ->
         n_cells a = 1 + (n_threads - 1) / instances
         /\ array a = replicate (Z.to_nat (n_cells a)) zero_cell
         /\ n_reserved a = 0
         /\ (n_threads mod instances <> 0 ->
             n_cells a = n_threads / instances + 1)
         /\ (n_threads mod instances = 0 ->
             n_cells a = n_threads / instances).
Proof.
  intros Hn Hi Htable Hcells Hgrant.
  destruct (sync_array_init_ret m n_threads instances Hn Hi Htable Hcells
              Hgrant) as (m' & Hinit).
  eexists m', _. split; [exact Hinit|]. split.
  - rewrite length_replicate. lia.
  - intros a Ha. apply elem_of_replicate in Ha as [-> _]. simpl.
    destruct (ceil_div_cases n_threads instances) as [H1 H2]; [lia|lia|].
    repeat split; auto.
Qed.

End WaitArrayFacts.

(** ** Scratch slots *)

(** C8. [acquire()] returns true exactly when the slot was not reserved and
    leaves it reserved, so an acquire right after an acquire returns false;
    [release()] clears the flag, so an acquire after acquire and release
    succeeds again.  The buffers of the slot are not touched. *)
Theorem scratch_slot_acquire_release (slot : buf_tmp_buffer_t.t) :
  let after := (buf_tmp_buffer_t.acquire slot).1 in
  ((buf_tmp_buffer_t.acquire slot).2 = true
   <-> buf_tmp_buffer_t.reserved slot = 0)
  /\ buf_tmp_buffer_t.reserved after <> 0
  /\ (buf_tmp_buffer_t.acquire after).2 = false
  /\ buf_tmp_buffer_t.reserved (buf_tmp_buffer_t.release after) = 0
  /\ (buf_tmp_buffer_t.acquire (buf_tmp_buffer_t.release after)).2 = true
  /\ (buf_tmp_buffer_t.acquire (buf_tmp_buffer_t.release after)).1 = after
  /\ buf_tmp_buffer_t.release after
     = buf_tmp_buffer_t.mk 0 (buf_tmp_buffer_t.crypt_buf slot)
         (buf_tmp_buffer_t.comp_buf slot) (buf_tmp_buffer_t.out_buf slot).
Proof.
  destruct slot as [r cb mb ob]. simpl.
  repeat split; try reflexivity; try lia.
Qed.

(** ** The deadlock search *)

Section DeadlockFacts.

Lemma debug_list_loop_true visit step l :
  debug_list_loop visit step l = Some (Ret true) ->
  exists d, d ∈ l /\ visit d = true /\ step d = Some (Ret true).
Proof.
  induction l as [|d l IH]; simpl; [discriminate|].
  destruct (visit d) eqn:Hv.
  - destruct (step d) as [[[|]| | |]|] eqn:Hs; try discriminate.
    + intros _. exists d. split; [apply list_elem_of_here|]. auto.
    + intros H. destruct (IH H) as (d' & Hin & Hv' & Hs').
      exists d'. split; [apply list_elem_of_further; exact Hin|]. auto.
  - intros H. destruct (IH H) as (d' & Hin & Hv' & Hs').
    exists d'. split; [apply list_elem_of_further; exact Hin|]. auto.
Qed.

Lemma debug_list_loop_false visit step l :
  debug_list_loop visit step l = Some (Ret false) ->
  forall d, d ∈ l -> visit d = true -> step d = Some (Ret false).
Proof.
  induction l as [|d l IH]; simpl.
  - intros _ d Hin. apply elem_of_nil in Hin. contradiction.
  - destruct (visit d) eqn:Hv.
    + destruct (step d) as [[[|]| | |]|] eqn:Hs; try discriminate.
      intros H d' Hin Hv'. apply elem_of_cons in Hin as [->|Hin];
        [exact Hs|apply IH; assumption].
    + intros H d' Hin Hv'. apply elem_of_cons in Hin as [->|Hin];
        [congruence|apply IH; assumption].
Qed.

Lemma debug_list_loop_some visit step l :
  (forall d, d ∈ l -> step d <> None) ->
  debug_list_loop visit step l <> None.
Proof.
  induction l as [|d l IH]; simpl; [discriminate|].
  intros Hstep.
  assert (Hrest : debug_list_loop visit step l <> None).
  { apply IH. intros d' Hin. apply Hstep. apply list_elem_of_further.
    exact Hin. }
  destruct (visit d); [|exact Hrest].
  pose proof (Hstep d (list_elem_of_here _ _)) as Hd.
  destruct (step d) as [[[|]| | |]|]; try discriminate; try exact Hrest.
  contradiction.
Qed.

Lemma deadlock_step_some detect a start thr pass depth :
  (forall j, detect j (depth + 1) <> None) ->
  sync_array_deadlock_step detect a start thr pass depth <> None.
Proof.
  intros Hd. unfold sync_array_deadlock_step.
  destruct (negb (pass =? 0)); [discriminate|].
  destruct (sync_array_find_thread a thr) as [[j|]| | |]; try discriminate.
  destruct (j =? start); [discriminate|apply Hd].
Qed.

(** The budget [sync_array_detect_deadlock] gives the recursion is never
    used up: the search returns or stops on an assertion. *)
Lemma detect_deadlock_fuel_some fuel s self start cell depth :
  0 < Z.of_nat fuel -> 100 - depth < Z.of_nat fuel ->
  detect_deadlock_fuel fuel s self start cell depth <> None.
Proof.
  revert cell depth. induction fuel as [|fuel IH]; intros cell depth Hpos Hfuel;
    [lia|].
  simpl.
  destruct (cell_at (arr s) start) as [start_c| | |]; try discriminate.
  destruct (cell_at (arr s) cell) as [c| | |]; try discriminate.
  destruct (negb (cell_reserved c)); [discriminate|].
  destruct (negb (self =? thread start_c)); [discriminate|].
  destruct (depth <? 100) eqn:Hdepth; simpl; [|discriminate].
  destruct (negb (waiting c)); [discriminate|].
  assert (Hrec : forall j, detect_deadlock_fuel fuel s self start j
                             (depth + 1 + 1) <> None)
    by (intros j; apply IH; lia).
  destruct (request_type c); try discriminate.
  - destruct (as_mutex _ _); try discriminate.
    destruct (negb _); [|discriminate].
    apply deadlock_step_some. exact Hrec.
  - destruct (as_rw_lock _ _); try discriminate.
    apply debug_list_loop_some. intros d _.
    apply deadlock_step_some. exact Hrec.
  - destruct (as_rw_lock _ _); try discriminate.
    apply debug_list_loop_some. intros d _.
    apply deadlock_step_some. exact Hrec.
  - destruct (as_rw_lock _ _); try discriminate.
    apply debug_list_loop_some. intros d _.
    apply deadlock_step_some. exact Hrec.
Qed.

Lemma detect_deadlock_total s self start cell depth :
  detect_deadlock_fuel (S (Z.to_nat (100 - depth))) s self start cell depth
  = Some (sync_array_detect_deadlock s self start cell depth).
Proof.
  unfold sync_array_detect_deadlock.
  pose proof (detect_deadlock_fuel_some (S (Z.to_nat (100 - depth)))
                s self start cell depth ltac:(lia) ltac:(lia)) as Hsome.
  destruct (detect_deadlock_fuel _ s self start cell depth);
    [reflexivity|contradiction].
Qed.

Lemma deadlock_step_true detect a start thr pass depth :
  sync_array_deadlock_step detect a start thr pass depth = Some (Ret true) ->
  pass = 0
  /\ exists j, sync_array_find_thread a thr = Ret (Some j)
               /\ (j = start
                   \/ (j <> start
                       /\ detect j (depth + 1) = Some (Ret true))).
Proof.
  unfold sync_array_deadlock_step.
  destruct (pass =? 0) eqn:Hp; simpl; [|discriminate].
  destruct (sync_array_find_thread a thr) as [[j|]| | |]; try discriminate.
  destruct (j =? start) eqn:Hj.
  - intros _. split; [lia|]. exists j. split; [reflexivity|]. left. lia.
  - intros Hd. split; [lia|]. exists j. split; [reflexivity|]. right.
    split; [lia|exact Hd].
Qed.

Lemma deadlock_step_back detect a start thr depth :
  sync_array_find_thread a thr = Ret (Some start) ->
  sync_array_deadlock_step detect a start thr 0 depth = Some (Ret true).
Proof.
  intros Hf. unfold sync_array_deadlock_step. simpl. rewrite Hf.
  rewrite Z.eqb_refl. reflexivity.
Qed.

Lemma deadlock_step_next detect a start thr depth next :
  sync_array_find_thread a thr = Ret (Some next) -> next <> start ->
  sync_array_deadlock_step detect a start thr 0 depth
  = detect next (depth + 1).
Proof.
  intros Hf Hne. unfold sync_array_deadlock_step. simpl. rewrite Hf.
  destruct (next =? start) eqn:E; [lia|reflexivity].
Qed.

Lemma step_true_chain s self start fuel cell c thr depth :
  (forall j d, detect_deadlock_fuel fuel s self start j d = Some (Ret true) ->
               wait_chain visit_for_ex s start j) ->
  cell_at (arr s) cell = Ret c -> waiting c = true ->
  holder_of visit_for_ex (objects s) c thr ->
  forall pass,
    sync_array_deadlock_step
      (fun new_cell depth' =>
         detect_deadlock_fuel fuel s self start new_cell depth')
      (arr s) start thr pass depth = Some (Ret true) ->
    wait_chain visit_for_ex s start cell.
Proof.
  intros IH Hc Hw Hholder pass Hstep.
  apply deadlock_step_true in Hstep as (Hpass & j & Hfind & [->|[Hne Hrec]]).
  - eapply chain_back; eauto.
  - eapply chain_next; eauto.
Qed.

Lemma detect_deadlock_sound s self start fuel :
  forall cell depth,
    detect_deadlock_fuel fuel s self start cell depth = Some (Ret true) ->
    wait_chain visit_for_ex s start cell.
Proof.
  induction fuel as [|fuel IH]; intros cell depth; simpl; [discriminate|].
  destruct (cell_at (arr s) start) as [start_c| | |]; try discriminate.
  destruct (cell_at (arr s) cell) as [c| | |] eqn:Hc; try discriminate.
  destruct (negb (cell_reserved c)); [discriminate|].
  destruct (negb (self =? thread start_c)); [discriminate|].
  destruct (depth <? 100); simpl; [|discriminate].
  destruct (waiting c) eqn:Hw; simpl; [|discriminate].
  destruct (request_type c) eqn:Hty; try discriminate.
  - destruct (as_mutex _ _) as [m| | |] eqn:Hm; try discriminate.
    destruct (m_lock_word m =? 0) eqn:Hlw; simpl; [discriminate|].
    apply (step_true_chain s self start fuel cell c); auto.
    unfold holder_of. rewrite Hty. exists m.
    split; [exact Hm|]. split; [lia|reflexivity].
  - destruct (as_rw_lock _ _) as [l| | |] eqn:Hl; try discriminate.
    intros Hloop. apply debug_list_loop_true in Hloop as (d & Hin & Hv & Hs).
    pose proof (deadlock_step_true _ _ _ _ _ _ Hs) as (Hpass & _).
    apply (step_true_chain s self start fuel cell c (d_thread_id d)
             (depth + 1) IH Hc Hw) in Hs; [exact Hs|].
    unfold holder_of. rewrite Hty. exists l, d. auto.
  - destruct (as_rw_lock _ _) as [l| | |] eqn:Hl; try discriminate.
    intros Hloop. apply debug_list_loop_true in Hloop as (d & Hin & Hv & Hs).
    pose proof (deadlock_step_true _ _ _ _ _ _ Hs) as (Hpass & _).
    apply (step_true_chain s self start fuel cell c (d_thread_id d)
             (depth + 1) IH Hc Hw) in Hs; [exact Hs|].
    unfold holder_of. rewrite Hty. exists l, d. auto.
  - destruct (as_rw_lock _ _) as [l| | |] eqn:Hl; try discriminate.
    intros Hloop. apply debug_list_loop_true in Hloop as (d & Hin & Hv & Hs).
    pose proof (deadlock_step_true _ _ _ _ _ _ Hs) as (Hpass & _).
    apply (step_true_chain s self start fuel cell c (d_thread_id d)
             (depth + 1) IH Hc Hw) in Hs; [exact Hs|].
    unfold holder_of. rewrite Hty. exists l, d. auto.
Qed.

(** What one level of the search returns when the cell has a holder whose
    step is known. *)
Lemma detect_deadlock_holder s self start fuel cell c thr depth b :
  cell_at (arr s) cell = Ret c -> waiting c = true ->
  holder_of visit_for_ex (objects s) c thr ->
  detect_deadlock_fuel (S fuel) s self start cell depth = Some (Ret b) ->
  b = true
  \/ sync_array_deadlock_step
       (fun new_cell depth' =>
          detect_deadlock_fuel fuel s self start new_cell depth')
       (arr s) start thr 0 (depth + 1) = Some (Ret false).
Proof.
  intros Hc Hw Hholder. simpl. rewrite Hc.
  destruct (cell_at (arr s) start) as [start_c| | |]; try discriminate.
  destruct (negb (cell_reserved c)); [discriminate|].
  destruct (negb (self =? thread start_c)); [discriminate|].
  destruct (depth <? 100); simpl; [|discriminate].
  rewrite Hw. simpl. unfold holder_of in Hholder.
  destruct (request_type c) eqn:Hty; try contradiction.
  - destruct Hholder as (m & -> & Hlw & ->).
    destruct (m_lock_word m =? 0) eqn:E; [lia|]. simpl.
    destruct b; [auto|]. intros H. right. exact H.
  - destruct Hholder as (l & d & -> & Hin & Hv & Hpass & ->).
    destruct b; [auto|]. intros Hloop. right.
    pose proof (debug_list_loop_false _ _ _ Hloop d Hin Hv) as Hs.
    simpl in Hs. rewrite Hpass in Hs. exact Hs.
  - destruct Hholder as (l & d & -> & Hin & Hv & Hpass & ->).
    destruct b; [auto|]. intros Hloop. right.
    pose proof (debug_list_loop_false _ _ _ Hloop d Hin Hv) as Hs.
    simpl in Hs. rewrite Hpass in Hs. exact Hs.
  - destruct Hholder as (l & d & -> & Hin & Hv & Hpass & ->).
    destruct b; [auto|]. intros Hloop. right.
    pose proof (debug_list_loop_false _ _ _ Hloop d Hin Hv) as Hs.
    simpl in Hs. rewrite Hpass in Hs. exact Hs.
Qed.

Lemma detect_deadlock_complete s self start cell :
  wait_chain visit_for_ex s start cell ->
  forall fuel depth b,
    detect_deadlock_fuel fuel s self start cell depth = Some (Ret b) ->
    b = true.
Proof.
  induction 1 as [cell c thr Hc Hw Hholder Hfind
                 |cell c thr next Hc Hw Hholder Hfind Hne Hchain IH];
    intros [|fuel] depth b Hret; try discriminate.
  - destruct (detect_deadlock_holder _ _ _ _ _ _ _ _ _ Hc Hw Hholder Hret)
      as [Hb|Hs]; [exact Hb|].
    rewrite (deadlock_step_back _ _ _ _ _ Hfind) in Hs. discriminate.
  - destruct (detect_deadlock_holder _ _ _ _ _ _ _ _ _ Hc Hw Hholder Hret)
      as [Hb|Hs]; [exact Hb|].
    rewrite (deadlock_step_next _ _ _ _ _ _ Hfind Hne) in Hs.
    apply IH in Hs. discriminate.
Qed.

Lemma wait_event_enter_no_chain s index self s' ev c :
  array (arr s) !! Z.to_nat index = Some c ->
  sync_array_wait_event_enter SYNC_DEBUG s index self = Ret (s', ev) ->
  ~ wait_chain visit_for_ex
      (mk_state (store_cell (set_os_mutex (arr s) true) index (set_waiting c))
         (objects s))
      index index.
Proof.
  intros Hc. unfold sync_array_wait_event_enter, sync_array_enter, ut_ad.
  cbn [UNIV_DEBUG UNIV_SYNC_DEBUG].
  destruct (os_mutex (arr s)); simpl; [discriminate|].
  destruct (sync_array_get_nth_cell _ index) as [c'| | |] eqn:Hget; simpl;
    try discriminate.
  apply get_nth_cell_ret in Hget as (_ & Hc'). simpl in Hc'.
  assert (c' = c) as -> by congruence.
  unfold ut_a.
  destruct (negb (wait_object c =? NULL)); simpl; [|discriminate].
  destruct (negb (waiting c)); simpl; [|discriminate].
  destruct (self =? thread c); simpl; [|discriminate].
  destruct (sync_cell_get_event _ c); simpl; try discriminate.
  destruct (sync_array_detect_deadlock _ self index index 0)
    as [[|]| | |] eqn:Hdead; simpl; try discriminate.
  intros _ Hchain.
  pose proof (detect_deadlock_total
                (mk_state (store_cell (set_os_mutex (arr s) true) index
                             (set_waiting c)) (objects s))
                self index index 0) as Ht.
  rewrite Hdead in Ht.
  pose proof (detect_deadlock_complete _ self _ _ Hchain _ _ _ Ht).
  discriminate.
Qed.

(** C6 (as amended). In a debug build the search starts from the cell of the
    thread that is about to wait and follows wait object, holder thread and
    that thread's first reserved cell, through cells that are marked
    waiting: for a mutex request the owner of the locked mutex; for a shared
    request every writer or waiting writer of the rw-lock; for an exclusive
    request every reader, whichever thread it is (the requester included),
    and every writer or waiting writer of another thread; an entry with a
    non-zero pass leads nowhere.  The search never runs out of budget; when
    it returns, it returns TRUE exactly when such a chain leads back to the
    starting cell; and a thread gets past it into its wait only when no
    chain leads from its cell back to its cell. *)
Theorem detect_deadlock_reports_cycle :
  (forall s self start cell depth,
      detect_deadlock_fuel (S (Z.to_nat (100 - depth))) s self start cell
        depth
      = Some (sync_array_detect_deadlock s self start cell depth))
  /\ (forall s self start cell depth b,
        sync_array_detect_deadlock s self start cell depth = Ret b ->
        (b = true <-> wait_chain visit_for_ex s start cell))
  /\ (forall s index self s' ev c,
        array (arr s) !! Z.to_nat index = Some c ->
        sync_array_wait_event_enter SYNC_DEBUG s index self = Ret (s', ev) ->
        ~ wait_chain visit_for_ex
            (mk_state
               (store_cell (set_os_mutex (arr s) true) index (set_waiting c))
               (objects s))
            index index).
Proof.
  split; [intros; apply detect_deadlock_total|]. split.
  - intros s self start cell depth b Hret.
    pose proof (detect_deadlock_total s self start cell depth) as Ht.
    rewrite Hret in Ht. split.
    + intros ->. eapply detect_deadlock_sound; eauto.
    + intros Hchain. eapply detect_deadlock_complete; eauto.
  - intros. eapply wait_event_enter_no_chain; eauto.
Qed.

End DeadlockFacts.

(** ** Examples on a 64-bit target *)

Section Examples.

#[local] Existing Instance lp64.
#[local] Existing Instance demo_allocator.

Lemma demo_fresh_inv : sync_array_inv (arr demo_fresh).
Proof.
  split; [split; [reflexivity|split; [reflexivity|]]|reflexivity].
  vm_compute. discriminate.
Qed.

Lemma demo_reserve :
  sync_array_reserve_cell demo_fresh 16 SYNC_MUTEX 11 12 7 100
  = Ret (demo_reserved, Some 0).
Proof. vm_compute. reflexivity. Qed.

Lemma demo_reserved_reachable : reachable 2 demo_reserved.
Proof.
  exists demo_memory, (demo_memory - 96 - 160), (arr demo_fresh),
    (objects demo_fresh), (mk_system demo_reserved ∅).
  split; [vm_compute; reflexivity|]. split; [|reflexivity].
  eapply reserve_cell_steps; [apply lookup_empty|exact demo_reserve].
Qed.

(** C1 at work: the state after a reservation satisfies the invariant and
    validates. *)
Lemma reserved_count_invariant_witness :
  sync_array_inv (arr demo_fresh)
  /\ sync_array_inv (arr demo_reserved)
  /\ sync_array_validate (arr demo_reserved) = Ret (arr demo_reserved).
Proof.
  split; [exact demo_fresh_inv|]. split.
  - exact (proj1 reserved_count_invariant demo_fresh 16 SYNC_MUTEX 11 12 7 100
             demo_reserved (Some 0) demo_fresh_inv demo_reserve).
  - apply (proj2 (proj2 (proj2 (proj2 reserved_count_invariant)))
             2 demo_reserved).
    + split; [reflexivity|]. vm_compute. discriminate.
    + exact demo_reserved_reachable.
    + vm_compute. discriminate.
    + reflexivity.
Defined.

(** C2 as stated fails: after [sync_array_wait_event] has freed the cell, a
    further [sync_array_free_cell] on it stops on [ut_a]; with UNIV_DEBUG
    the wait of a thread in the cell of another stops on [ut_ad]; and with
    UNIV_SYNC_DEBUG the wait stops when the search reports a deadlock. *)
Lemma free_cell_after_wait_aborts :
  exists s1,
    sync_array_wait_event RELEASE demo_signalled 0 7 = Ret s1
    /\ sync_array_free_cell s1 0 = Abort
    /\ sync_array_wait_event DEBUG demo_signalled 0 8 = Abort
    /\ sync_array_wait_event SYNC_DEBUG upgrade_reserved 0 7 = Abort.
Proof.
  eexists. split; [vm_compute; reflexivity|].
  split; [|split]; vm_compute; reflexivity.
Qed.

(** The amended C2 on the two-cell array: the reservation, the release of a
    reserved and of a free cell, and the wait of thread 7, which sleeps
    while the event of the mutex is not set and returns once it is. *)
Lemma reserve_cell_iff_free_cell_witness :
  sync_array_inv (arr demo_fresh) /\ os_mutex (arr demo_fresh) = false
  /\ 16 <> NULL /\ object_typed (objects demo_fresh) 16 SYNC_MUTEX
  /\ (exists s' r,
        sync_array_reserve_cell demo_fresh 16 SYNC_MUTEX 11 12 7 100
        = Ret (s', r)
        /\ (is_Some r <->
            exists k c, array (arr demo_fresh) !! k = Some c
                        /\ wait_object c = NULL))
  /\ is_ret (sync_array_free_cell demo_reserved 0) = true
  /\ sync_array_free_cell demo_reserved 1 = Abort
  /\ sync_array_wait_event RELEASE demo_reserved 0 7 = Blocked
  /\ (exists s' c',
        sync_array_wait_event RELEASE demo_signalled 0 7 = Ret s'
        /\ array (arr s') !! Z.to_nat 0 = Some c' /\ wait_object c' = NULL).
Proof.
  assert (Htyped : object_typed (objects demo_fresh) 16 SYNC_MUTEX).
  { eexists. vm_compute. reflexivity. }
  assert (Hinv : sync_array_inv (arr demo_reserved)).
  { split; [split; [reflexivity|split; [reflexivity|]]|reflexivity].
    vm_compute. discriminate. }
  split; [exact demo_fresh_inv|]. split; [reflexivity|].
  split; [discriminate|]. split; [exact Htyped|].
  split; [|split; [|split; [|split]]].
  - destruct (proj1 reserve_cell_iff_free_cell demo_fresh 16 SYNC_MUTEX
                11 12 7 100 demo_fresh_inv eq_refl ltac:(discriminate) Htyped)
      as (s' & r & Hret & Hiff & _).
    exists s', r. split; [exact Hret|exact Hiff].
  - apply (proj1 (proj2 reserve_cell_iff_free_cell) demo_reserved 0 Hinv
             eq_refl ltac:(lia)).
    eexists. split; [reflexivity|]. split; [reflexivity|]. discriminate.
  - apply (proj1 (proj2 reserve_cell_iff_free_cell) demo_reserved 1 Hinv
             eq_refl ltac:(lia)).
    right. eexists. split; reflexivity.
  - refine (proj2 (proj2 (proj2 (proj2 (proj2
              (proj2 (proj2 reserve_cell_iff_free_cell) RELEASE demo_reserved
                 0 7 Hinv eq_refl ltac:(lia))
              (mk_cell 16 16 0 SYNC_MUTEX 11 12 7 false 5 100)
              ltac:(reflexivity) eq_refl ltac:(discriminate) eq_refl))
            (16, MUTEX_EVENT) (mk_event false 5) _ _ _ _)) eq_refl eq_refl);
      first [discriminate|vm_compute; reflexivity].
  - refine (proj1 (proj2 (proj2 (proj2 (proj2
              (proj2 (proj2 reserve_cell_iff_free_cell) RELEASE demo_signalled
                 0 7 Hinv eq_refl ltac:(lia))
              (mk_cell 16 16 0 SYNC_MUTEX 11 12 7 false 5 100)
              ltac:(reflexivity) eq_refl ltac:(discriminate) eq_refl))
            (16, MUTEX_EVENT) (mk_event true 6) _ _ _ _)) _);
      first [discriminate|vm_compute; reflexivity|left; reflexivity].
Defined.

(** C10 on the two-cell array whose first cell is taken: the second cell is
    returned and holds the request of thread 8 afterwards. *)
Lemma reserve_cell_takes_first_free_witness :
  sync_array_wf (arr demo_reserved)
  /\ exists s',
       sync_array_reserve_cell demo_reserved 32 RW_LOCK_SHARED 0 0 8 101
       = Ret (s', Some 1)
       /\ (forall k c, 0 <= k < 1 ->
                       array (arr demo_reserved) !! Z.to_nat k = Some c ->
                       wait_object c <> NULL)
       /\ (exists c', array (arr s') !! Z.to_nat 1 = Some c'
                      /\ wait_object c' = 32 /\ wait_object c' <> NULL
                      /\ request_type c' = RW_LOCK_SHARED /\ thread c' = 8
                      /\ waiting c' = false)
       /\ array (arr s') !! Z.to_nat 0 = array (arr demo_reserved) !! Z.to_nat 0.
Proof.
  assert (Hwf : sync_array_wf (arr demo_reserved)).
  { split; [reflexivity|split; [reflexivity|]]. vm_compute. discriminate. }
  assert (Hret : exists s',
             sync_array_reserve_cell demo_reserved 32 RW_LOCK_SHARED 0 0 8 101
             = Ret (s', Some 1))
    by (eexists; vm_compute; reflexivity).
  destruct Hret as [s' Hret].
  split; [exact Hwf|]. exists s'. split; [exact Hret|].
  destruct (reserve_cell_takes_first_free demo_reserved 32 RW_LOCK_SHARED
              0 0 8 101 s' 1 Hwf Hret)
    as (_ & _ & Hbefore & _ & Hcell & Hothers & _).
  split; [exact Hbefore|]. split; [exact Hcell|].
  apply Hothers; lia.
Defined.

(** C3 on four cells: the mutex waiter and the wait-x waiter are woken, the
    x-lock waiter is not. *)
Lemma unstick_sweep_witness :
  sync_array_inv (arr sweep_state) /\ os_mutex (arr sweep_state) = false
  /\ cells_typed (objects sweep_state) (arr sweep_state)
  /\ exists h' signalled,
       sync_array_wake_threads_if_sema_free_low sweep_state
       = Ret (mk_state (arr sweep_state) h', signalled)
       /\ signalled = [(16, MUTEX_EVENT); (32, RW_WAIT_EX_EVENT)]
       /\ forall ev,
            ev ∈ signalled <->
            exists k c, array (arr sweep_state) !! k = Some c
                        /\ wait_object c <> NULL /\ cell_event c = ev
                        /\ release_predicate (objects sweep_state) c.
Proof.
  assert (Hinv : sync_array_inv (arr sweep_state)).
  { split; [split; [reflexivity|split; [reflexivity|]]|reflexivity].
    vm_compute. discriminate. }
  assert (Htyped : cells_typed (objects sweep_state) (arr sweep_state)).
  { intros k c Hk Hres.
    destruct k as [|[|[|[|k]]]]; simpl in Hk; try discriminate;
      injection Hk as <-; try discriminate;
      eexists; vm_compute; reflexivity. }
  split; [exact Hinv|]. split; [reflexivity|]. split; [exact Htyped|].
  destruct (unstick_sweep_sets_released_cells sweep_state Hinv eq_refl Htyped)
    as (h' & signalled & Hret & Hiff & _).
  exists h', signalled. split; [exact Hret|]. split; [|exact Hiff].
  assert (Hrun : sync_array_wake_threads_if_sema_free_low sweep_state
                 = Ret (mk_state (arr sweep_state)
                          (<[32 := RwLock (mk_rw_lock 0 (mk_event false 3)
                                             (mk_event true 2) [])]>
                             (<[16 := Mutex (mk_mutex (mk_event true 6) 0 0)]>
                                (objects sweep_state))),
                        [(16, MUTEX_EVENT); (32, RW_WAIT_EX_EVENT)]))
    by (vm_compute; reflexivity).
  rewrite Hrun in Hret. injection Hret as _ <-. reflexivity.
Defined.

(** C6 as stated fails: thread 7 holds an s-lock and waits for an x-lock on
    the same rw-lock.  The search reports a deadlock, and the wait stops the
    server, although no holder whose thread differs from the requester
    leads back to the starting cell. *)
Lemma detect_deadlock_follows_own_s_lock :
  sync_array_detect_deadlock upgrade_state 7 0 0 0 = Ret true
  /\ sync_array_wait_event_enter SYNC_DEBUG upgrade_reserved 0 7 = Abort
  /\ ~ wait_chain spec_visit_for_ex upgrade_state 0 0.
Proof.
  split; [vm_compute; reflexivity|]. split; [vm_compute; reflexivity|].
  assert (Hno : forall c thr,
             cell_at (arr upgrade_state) 0 = Ret c ->
             ~ holder_of spec_visit_for_ex (objects upgrade_state) c thr).
  { intros c thr Hc. vm_compute in Hc. injection Hc as <-.
    unfold holder_of. simpl.
    intros (l & d & Hl & Hin & Hv & _). vm_compute in Hl.
    injection Hl as <-. simpl in Hin.
    apply elem_of_cons in Hin as [->|Hin];
      [vm_compute in Hv; discriminate|].
    apply elem_of_nil in Hin. exact Hin. }
  intros Hchain. inversion Hchain as [cell c thr Hc Hw Hh Hf
                                     |cell c thr next Hc Hw Hh Hf Hne Hn];
    subst; exact (Hno c thr Hc Hh).
Qed.

(** The amended C6 on two threads that wait for each other. *)
Lemma detect_deadlock_reports_cycle_witness :
  sync_array_detect_deadlock deadlock_state 1 0 0 0 = Ret true
  /\ wait_chain visit_for_ex deadlock_state 0 0.
Proof.
  assert (Hret : sync_array_detect_deadlock deadlock_state 1 0 0 0 = Ret true)
    by (vm_compute; reflexivity).
  split; [exact Hret|].
  exact (proj1 (proj1 (proj2 detect_deadlock_reports_cycle)
                  deadlock_state 1 0 0 0 true Hret) eq_refl).
Defined.

(** C7 as stated fails: with the default 32 instances and 32 threads every
    instance gets one cell, not [32 / 32 + 1 = 2]. *)
Lemma sync_array_init_32_threads :
  sync_array_init demo_memory None 32 32
  = Ret (59648, replicate 32 (mk_array 0 1 [zero_cell] false 0))
  /\ 32 / 32 + 1 = 2.
Proof. split; vm_compute; reflexivity. Qed.

(** The amended C7 for 33 threads on 32 instances. *)
Lemma sync_array_init_cells_witness :
  0 < 33 <= ULINT_MAX /\ 0 < 32
  /\ Z.pos sizeof_pointer * 32 <= ULINT_MAX
  /\ Z.pos sizeof_sync_cell_t * (1 + (33 - 1) / 32) <= ULINT_MAX
  /\ is_ret (ut_malloc_all demo_memory (init_requests 32 (1 + (33 - 1) / 32)))
     = true
  /\ exists m' arrs,
       sync_array_init demo_memory None 32 33 = Ret (m', arrs)
       /\ Z.of_nat (length arrs) = 32
       /\ forall a, a ∈ arrs -> n_cells a = 1 + (33 - 1) / 32.
Proof.
  assert (H33 : 0 < 33 <= ULINT_MAX)
    by (split; [reflexivity|vm_compute; discriminate]).
  assert (H32 : 0 < 32) by reflexivity.
  assert (Htable : Z.pos sizeof_pointer * 32 <= ULINT_MAX)
    by (vm_compute; discriminate).
  assert (Hcells : Z.pos sizeof_sync_cell_t * (1 + (33 - 1) / 32)
                   <= ULINT_MAX)
    by (vm_compute; discriminate).
  assert (Hgrant : is_ret (ut_malloc_all demo_memory
                             (init_requests 32 (1 + (33 - 1) / 32))) = true)
    by (vm_compute; reflexivity).
  split; [exact H33|]. split; [exact H32|]. split; [exact Htable|].
  split; [exact Hcells|]. split; [exact Hgrant|].
  destruct (sync_array_init_cells demo_memory 33 32 H33 H32 Htable Hcells
              Hgrant) as (m' & arrs & Hret & Hlen & Hall).
  exists m', arrs. split; [exact Hret|]. split; [exact Hlen|].
  intros a Ha. exact (proj1 (Hall a Ha)).
Defined.

(** C9 on a full one-cell array: the call fails and is counted all the same,
    so two attempts stand against one reservation. *)
Lemma res_count_counts_attempts_witness :
  sync_array_wf (arr (held_state 1))
  /\ exists s',
       sync_array_reserve_cell (held_state 1) 16 SYNC_MUTEX 0 0 8 0
       = Ret (s', None)
       /\ res_count (arr s') = 2 /\ n_reserved (arr s') = 1.
Proof.
  assert (Hwf : sync_array_wf (arr (held_state 1))).
  { split; [reflexivity|split; [reflexivity|]]. vm_compute. discriminate. }
  assert (Hret : exists s',
             sync_array_reserve_cell (held_state 1) 16 SYNC_MUTEX 0 0 8 0
             = Ret (s', None))
    by (eexists; vm_compute; reflexivity).
  destruct Hret as [s' Hret].
  split; [exact Hwf|]. exists s'. split; [exact Hret|].
  destruct (proj1 res_count_counts_attempts (held_state 1) 16 SYNC_MUTEX
              0 0 8 0 s' None Hwf Hret) as (_ & Hplus & Hsame).
  split.
  - rewrite Hplus; [reflexivity|].
    split; [discriminate|reflexivity].
  - rewrite (Hsame eq_refl). reflexivity.
Defined.

Lemma wrap_reserve n :
  sync_array_reserve_cell (wrap_state n) 16 SYNC_MUTEX 0 0 7 0
  = Ret (held_state (ulint_incr n), Some 0).
Proof.
  unfold sync_array_reserve_cell, reserve_cell_locked, wrap_state, held_state.
  cbn -[ulint_incr ulint_decr]. generalize (ulint_incr n). intros m.
  vm_compute. reflexivity.
Qed.

Lemma wrap_free n : sync_array_free_cell (held_state n) 0 = Ret (wrap_state n).
Proof. vm_compute. reflexivity. Qed.

Lemma wrap_cycle n :
  rtc sync_step (mk_system (wrap_state n) ∅)
    (mk_system (wrap_state (ulint_incr n)) ∅).
Proof.
  eapply rtc_trans.
  - eapply reserve_cell_steps; [apply lookup_empty|apply wrap_reserve].
  - apply rtc_once.
    apply (step_free_cell (mk_system (held_state (ulint_incr n)) ∅) 0).
    apply wrap_free.
Qed.

Lemma ulint_incr_wrap x : ulint_incr (ulint_wrap x) = ulint_wrap (x + 1).
Proof.
  unfold ulint_incr, ulint_wrap. apply Zplus_mod_idemp_l.
Qed.

(** Every value of the reservation total is reached by reserving and freeing
    often enough. *)
Lemma wrap_state_steps (k : nat) :
  rtc sync_step
    (mk_system (mk_state (mk_array 0 1 [zero_cell] false 0) wrap_heap) ∅)
    (mk_system (wrap_state (ulint_wrap (Z.of_nat (S k)))) ∅).
Proof.
  induction k as [|k IH].
  - eapply rtc_trans.
    + eapply (reserve_cell_steps _ 16 SYNC_MUTEX 0 0 7 0 (held_state 1)
                (Some 0)); [apply lookup_empty|vm_compute; reflexivity].
    + apply rtc_once. apply (step_free_cell (mk_system (held_state 1) ∅) 0).
      vm_compute. reflexivity.
  - eapply rtc_trans; [exact IH|].
    rewrite (Nat2Z.inj_succ (S k)). unfold Z.succ.
    rewrite <- ulint_incr_wrap. apply wrap_cycle.
Qed.

Lemma wrap_state_reachable (k : nat) :
  reachable 1 (wrap_state (ulint_wrap (Z.of_nat (S k)))).
Proof.
  exists demo_memory, (demo_memory - 96 - 80),
    (mk_array 0 1 [zero_cell] false 0), wrap_heap,
    (mk_system (wrap_state (ulint_wrap (Z.of_nat (S k)))) ∅).
  split; [vm_compute; reflexivity|]. split; [|reflexivity].
  apply wrap_state_steps.
Qed.

(** C9 as stated fails: the state whose reservation total is ULINT_MAX is
    reachable, and the next reservation takes the total back to 0. *)
Lemma res_count_wraps_to_zero :
  reachable 1 (wrap_state ULINT_MAX)
  /\ sync_array_reserve_cell (wrap_state ULINT_MAX) 16 SYNC_MUTEX 0 0 7 0
     = Ret (held_state 0, Some 0)
  /\ res_count (arr (held_state 0)) < res_count (arr (wrap_state ULINT_MAX)).
Proof.
  split; [|split].
  - pose proof (wrap_state_reachable (Z.to_nat (ULINT_MAX - 1))) as Hreach.
    rewrite Nat2Z.inj_succ, Z2Nat.id in Hreach by (vm_compute; discriminate).
    replace (ulint_wrap (Z.succ (ULINT_MAX - 1))) with ULINT_MAX in Hreach
      by (vm_compute; reflexivity).
    exact Hreach.
  - rewrite wrap_reserve. rewrite ulint_incr_max. reflexivity.
  - vm_compute. reflexivity.
Qed.

End Examples.

(** ** Lookups by thread, shutdown and the set of instances *)

Section WaitArrayMore.
Context `{W : ulint_width} `{M : allocator}.

Lemma thread_test_true c thr :
  cell_reserved c && (thread c =? thr) = true
  <-> wait_object c <> NULL /\ thread c = thr.
Proof.
  unfold cell_reserved, NULL.
  destruct (wait_object c =? 0) eqn:E1; destruct (thread c =? thr) eqn:E2;
    simpl; split; try discriminate; try lia.
Qed.

Lemma thread_test_false c thr :
  cell_reserved c && (thread c =? thr) = false
  <-> wait_object c = NULL \/ thread c <> thr.
Proof.
  unfold cell_reserved, NULL.
  destruct (wait_object c =? 0) eqn:E1; destruct (thread c =? thr) eqn:E2;
    simpl; split; try discriminate; try lia; auto.
Qed.

Lemma find_thread_ret_spec a thr :
  sync_array_wf a ->
  exists r,
    sync_array_find_thread a thr = Ret r
    /\ match r with
       | Some i =>
           0 <= i < n_cells a
           /\ (exists c, array a !! Z.to_nat i = Some c
                         /\ wait_object c <> NULL /\ thread c = thr)
           /\ (forall k c, 0 <= k < i -> array a !! Z.to_nat k = Some c ->
                           wait_object c = NULL \/ thread c <> thr)
       | None =>
           forall k c, array a !! k = Some c ->
                       wait_object c = NULL \/ thread c <> thr
       end.
Proof.
  intros Hwf.
  destruct (find_thread_loop_spec a (Z.to_nat (n_cells a)) 0 thr Hwf)
    as (r & Hr & Hfirst); [lia|destruct Hwf as (_ & ? & _); lia|].
  exists r. split; [exact Hr|].
  destruct r as [i|]; simpl in Hfirst.
  - destruct Hfirst as (Hi & (c & Hc & HP) & Hbefore).
    split; [exact Hi|]. split.
    + exists c. split; [exact Hc|]. apply thread_test_true. exact HP.
    + intros k c' Hk Hc'. apply thread_test_false. eapply Hbefore; eauto.
  - intros k c Hc. apply thread_test_false.
    apply (Hfirst (Z.of_nat k) c); [lia|]. rewrite Nat2Z.id. exact Hc.
Qed.

(** X1. [sync_array_find_thread] returns the first cell, in index order,
    that is reserved and carries the thread id; it returns NULL exactly when
    no reserved cell carries it.  A free cell is never returned, whatever its
    [thread] field still holds. *)
Theorem find_thread_first_reserved a thr :
  sync_array_wf a ->
  exists r,
    sync_array_find_thread a thr = Ret r
    /\ (is_Some r
        <-> exists k c, array a !! k = Some c /\ wait_object c <> NULL
                        /\ thread c = thr)
    /\ match r with
       | Some i =>
           0 <= i < n_cells a
           /\ (exists c, array a !! Z.to_nat i = Some c
                         /\ wait_object c <> NULL /\ thread c = thr)
           /\ (forall k c, 0 <= k < i -> array a !! Z.to_nat k = Some c ->
                           wait_object c = NULL \/ thread c <> thr)
       | None =>
           forall k c, array a !! k = Some c ->
                       wait_object c = NULL \/ thread c <> thr
       end.
Proof.
  intros Hwf. destruct (find_thread_ret_spec a thr Hwf) as (r & Hr & Hspec).
  exists r. split; [exact Hr|]. split; [|exact Hspec].
  destruct r as [i|].
  - destruct Hspec as (_ & (c & Hc & Hobj & Hthr) & _).
    split; [intros _; exists (Z.to_nat i), c; auto|intros _; eauto].
  - split; [intros [x Hx]; discriminate|].
    intros (k & c & Hc & Hobj & Hthr).
    destruct (Hspec k c Hc) as [H|H]; contradiction.
Qed.

Lemma reserve_cell_wf s object type file line self now s' r :
  sync_array_wf (arr s) ->
  sync_array_reserve_cell s object type file line self now = Ret (s', r) ->
  sync_array_wf (arr s').
Proof.
  intros Hwf Hret.
  destruct (reserve_cell_ret _ _ _ _ _ _ _ _ _ Hwf Hret)
    as (_ & _ & _ & Hshape).
  destruct Hwf as (Hlen & Hpos & Hmax).
  destruct r as [i|].
  - destruct Hshape as (c & ev & sig & _ & _ & _ & ->).
    split; [simpl; rewrite length_insert; exact Hlen|]. simpl. lia.
  - subst s'. split; [exact Hlen|]. simpl. lia.
Qed.

(** X2. A thread that has no reserved cell and reserves one is found in the
    cell it reserved: after a successful [sync_array_reserve_cell],
    [sync_array_find_thread] on the calling thread returns the index the
    reservation returned. *)
Theorem reserve_then_find_thread s object type file line self now s' i :
  sync_array_wf (arr s) ->
  sync_array_find_thread (arr s) self = Ret None ->
  sync_array_reserve_cell s object type file line self now
  = Ret (s', Some i) ->
  sync_array_find_thread (arr s') self = Ret (Some i).
Proof.
  intros Hwf Hnone Hret.
  pose proof (reserve_cell_wf _ _ _ _ _ _ _ _ _ Hwf Hret) as Hwf'.
  destruct (reserve_cell_ret _ _ _ _ _ _ _ _ _ Hwf Hret)
    as (Hobj & _ & (Hi & _ & _) & (c & ev & sig & Hc & _ & _ & Harr)).
  destruct (find_thread_ret_spec (arr s) self Hwf) as (r0 & Hr0 & Hspec0).
  rewrite Hnone in Hr0. injection Hr0 as <-.
  destruct (find_thread_ret_spec (arr s') self Hwf')
    as (r' & Hr' & Hspec').
  rewrite Hr'. f_equal.
  assert (Hlt : (Z.to_nat i < length (array (arr s)))%nat)
    by (apply lookup_lt_is_Some; eauto).
  assert (Hnew : exists c', array (arr s') !! Z.to_nat i = Some c'
                            /\ wait_object c' <> NULL /\ thread c' = self).
  { rewrite Harr. simpl. eexists. split.
    - apply list_lookup_insert_eq. exact Hlt.
    - simpl. split; [exact Hobj|reflexivity]. }
  destruct Hnew as (c' & Hc' & Hres' & Hthr').
  destruct r' as [j|].
  - destruct Hspec' as (Hj & (cj & Hcj & Hresj & Hthrj) & Hbefore).
    f_equal.
    destruct (Z.lt_trichotomy j i) as [Hlt'|[Heq|Hgt]]; [|exact Heq|].
    + exfalso. rewrite Harr in Hcj. simpl in Hcj.
      rewrite list_lookup_insert_ne in Hcj by lia.
      destruct (Hspec0 _ _ Hcj) as [Hn|Hn]; contradiction.
    + exfalso.
      destruct (Hbefore i c' ltac:(lia) Hc') as [Hn|Hn]; contradiction.
  - exfalso. destruct (Hspec' _ _ Hc') as [Hn|Hn]; contradiction.
Qed.

(** X3. [sync_array_free_cell] leaves the thread id in the cell, but the
    cell is free afterwards and [sync_array_find_thread] never returns it,
    for no thread. *)
Theorem freed_cell_not_found s index s' thr :
  sync_array_wf (arr s) ->
  sync_array_free_cell s index = Ret s' ->
  (exists c c',
      array (arr s) !! Z.to_nat index = Some c
      /\ array (arr s') !! Z.to_nat index = Some c'
      /\ thread c' = thread c /\ wait_object c' = NULL)
  /\ sync_array_find_thread (arr s') thr <> Ret (Some index).
Proof.
  intros Hwf Hret.
  destruct (free_cell_ret _ _ _ Hret) as (_ & Hi & _ & c & Hc & _ & ->).
  assert (Hlt : (Z.to_nat index < length (array (arr s)))%nat)
    by (apply lookup_lt_is_Some; eauto).
  assert (Hc' : array (arr (mk_state
                   (mk_array (ulint_decr (n_reserved (arr s)))
                      (n_cells (arr s))
                      (<[Z.to_nat index := free_fill c]> (array (arr s)))
                      false (res_count (arr s))) (objects s)))
                !! Z.to_nat index = Some (free_fill c)).
  { simpl. apply list_lookup_insert_eq. exact Hlt. }
  split.
  - exists c, (free_fill c). split; [exact Hc|]. split; [exact Hc'|].
    split; reflexivity.
  - set (s' := mk_state _ _) in *.
    assert (Hwf' : sync_array_wf (arr s')).
    { destruct Hwf as (Hlen & Hpos & Hmax).
      split; [simpl; rewrite length_insert; exact Hlen|]. simpl. lia. }
    destruct (find_thread_ret_spec (arr s') thr Hwf')
      as (r & Hr & Hspec).
    rewrite Hr. intros Heq. injection Heq as ->.
    destruct Hspec as (_ & (c1 & Hc1 & Hres & _) & _).
    rewrite Hc' in Hc1. injection Hc1 as <-. apply Hres. reflexivity.
Qed.

(** *** Validation and shutdown *)

Lemma validate_abort a :
  sync_array_wf a -> os_mutex a = false ->
  count_reserved (array a) <> n_reserved a ->
  sync_array_validate a = Abort.
Proof.
  intros Hwf Hmx Hne.
  unfold sync_array_validate, sync_array_enter. rewrite Hmx. simpl.
  pose proof (count_reserved_le_length (array a)) as Hle.
  assert (Hwf1 : sync_array_wf (set_os_mutex a true)) by exact Hwf.
  destruct Hwf as (Hlen & Hpos & Hmax).
  rewrite (validate_loop_count (set_os_mutex a true) _ 0 0 Hwf1);
    simpl; rewrite ?drop_0; try lia.
  simpl. unfold ut_a. rewrite Z.add_0_l.
  destruct (count_reserved (array a) =? n_reserved a) eqn:E; [lia|].
  reflexivity.
Qed.

(** X4. [sync_array_validate] waits for the array mutex; with the mutex
    free it returns, leaving the array as it was, exactly when the number of
    cells with a non-null wait object equals [n_reserved], and stops on its
    assertion otherwise. *)
Theorem validate_checks_reserved_count a :
  sync_array_wf a ->
  (os_mutex a = true -> sync_array_validate a = Blocked)
  /\ (os_mutex a = false -> count_reserved (array a) = n_reserved a ->
      sync_array_validate a = Ret a)
  /\ (os_mutex a = false -> count_reserved (array a) <> n_reserved a ->
      sync_array_validate a = Abort).
Proof.
  intros Hwf. split; [|split].
  - intros Hmx. unfold sync_array_validate, sync_array_enter.
    rewrite Hmx. reflexivity.
  - intros Hmx Hcount. apply validate_inv; [split; assumption|exact Hmx].
  - intros Hmx Hne. apply validate_abort; assumption.
Qed.

Lemma count_reserved_zero cells :
  count_reserved cells = 0
  <-> forall c, c ∈ cells -> wait_object c = NULL.
Proof.
  induction cells as [|c cells IH]; simpl.
  - split; [|reflexivity]. intros _ c Hc. apply elem_of_nil in Hc as [].
  - pose proof (count_reserved_nonneg cells) as Hnn.
    unfold cell_reserved at 1.
    destruct (wait_object c =? NULL) eqn:E; simpl.
    + split.
      * intros H0 c' Hc'. apply elem_of_cons in Hc' as [->|Hc']; [lia|].
        apply IH; [lia|exact Hc'].
      * intros Hall. apply IH. intros c' Hc'. apply Hall.
        apply list_elem_of_further. exact Hc'.
    + split; [lia|]. intros Hall.
      specialize (Hall c (list_elem_of_here _ _)). lia.
Qed.

Lemma sync_array_free_cases a :
  sync_array_wf a -> os_mutex a = false ->
  (sync_array_free a = Ret tt
   /\ n_reserved a = 0
   /\ forall c, c ∈ array a -> wait_object c = NULL)
  \/ (sync_array_free a = Abort
      /\ ~ (n_reserved a = 0
            /\ forall c, c ∈ array a -> wait_object c = NULL)).
Proof.
  intros Hwf Hmx. unfold sync_array_free, ut_a.
  destruct (n_reserved a =? 0) eqn:E; simpl.
  - destruct (decide (count_reserved (array a) = n_reserved a)) as [Hc|Hc].
    + left. rewrite validate_inv by (try split; assumption). simpl.
      split; [reflexivity|]. split; [lia|].
      apply count_reserved_zero. lia.
    + right. rewrite validate_abort by assumption. simpl.
      split; [reflexivity|]. intros (H0 & Hall).
      apply count_reserved_zero in Hall. lia.
  - right. split; [reflexivity|]. intros (H0 & _). lia.
Qed.

(** X5. [sync_array_free] gives an array back only when nothing is reserved
    in it: with the mutex free it returns exactly when [n_reserved] is 0 and
    every cell has a null wait object, and stops on an assertion in every
    other case. *)
Theorem sync_array_free_needs_free_cells a :
  sync_array_wf a -> os_mutex a = false ->
  (sync_array_free a = Ret tt
   <-> n_reserved a = 0 /\ forall c, c ∈ array a -> wait_object c = NULL)
  /\ (sync_array_free a <> Ret tt -> sync_array_free a = Abort).
Proof.
  intros Hwf Hmx.
  destruct (sync_array_free_cases a Hwf Hmx) as [(Hr & HP)|(Hr & HP)];
    rewrite Hr.
  - split; [split; [intros _; exact HP|reflexivity]|]. congruence.
  - split; [split; [discriminate|intros HP'; contradiction]|]. reflexivity.
Qed.

Lemma nth_instance_lookup arrs i a :
  0 <= i -> arrs !! Z.to_nat i = Some a -> nth_instance (Some arrs) i = Ret a.
Proof.
  intros Hi Ha. unfold nth_instance. rewrite Ha.
  destruct (0 <=? i) eqn:E; [reflexivity|lia].
Qed.

Lemma close_loop_cases arrs :
  (forall a, a ∈ arrs -> sync_array_wf a /\ os_mutex a = false) ->
  forall rem i,
    0 <= i -> i + Z.of_nat rem = Z.of_nat (length arrs) ->
    (close_loop rem (Some arrs) i = Ret tt
     /\ forall k a, i <= k -> arrs !! Z.to_nat k = Some a ->
          n_reserved a = 0 /\ forall c, c ∈ array a -> wait_object c = NULL)
    \/ (close_loop rem (Some arrs) i = Abort
        /\ exists a, a ∈ arrs
             /\ ~ (n_reserved a = 0
                   /\ forall c, c ∈ array a -> wait_object c = NULL)).
Proof.
  intros Hall rem. induction rem as [|rem IH]; intros i Hi Hlen.
  - left. split; [reflexivity|]. intros k a Hk Ha.
    apply lookup_lt_Some in Ha. lia.
  - destruct (lookup_lt_is_Some_2 arrs (Z.to_nat i)) as [a Ha]; [lia|].
    assert (Hin : a ∈ arrs) by (eapply list_elem_of_lookup_2; exact Ha).
    destruct (Hall a Hin) as (Hwf & Hmx).
    cbn [close_loop]. rewrite (nth_instance_lookup arrs i a Hi Ha). simpl.
    destruct (sync_array_free_cases a Hwf Hmx) as [(Hr & HP)|(Hr & HP)];
      rewrite Hr; simpl.
    + destruct (IH (i + 1)) as [(Hl & Hrest)|(Hl & Hbad)]; [lia|lia| |].
      * left. split; [exact Hl|]. intros k a' Hk Ha'.
        destruct (decide (k = i)) as [->|Hne].
        -- rewrite Ha in Ha'. injection Ha' as <-. exact HP.
        -- apply (Hrest k a'); [lia|exact Ha'].
      * right. split; [exact Hl|exact Hbad].
    + right. split; [reflexivity|]. exists a. split; assumption.
Qed.

(** X6. [sync_array_close] returns, and resets [sync_wait_array] to NULL,
    exactly when no cell of any instance is reserved; when some thread still
    holds a cell it stops on an assertion. *)
Theorem sync_array_close_needs_free_cells size arrs :
  Z.of_nat (length arrs) = size ->
  (forall a, a ∈ arrs -> sync_array_wf a /\ os_mutex a = false) ->
  (sync_array_close size (Some arrs) = Ret None
   <-> forall a, a ∈ arrs ->
         n_reserved a = 0 /\ forall c, c ∈ array a -> wait_object c = NULL)
  /\ (sync_array_close size (Some arrs) <> Ret None ->
      sync_array_close size (Some arrs) = Abort).
Proof.
  intros Hlen Hall. unfold sync_array_close.
  destruct (close_loop_cases arrs Hall (Z.to_nat size) 0)
    as [(Hl & Hfree)|(Hl & a & Hin & Hbad)]; [lia|lia| |]; rewrite Hl; simpl.
  - split; [|congruence]. split; [|reflexivity].
    intros _ a Ha. apply list_elem_of_lookup in Ha as [k Hk].
    apply (Hfree (Z.of_nat k) a); [lia|]. rewrite Nat2Z.id. exact Hk.
  - split; [|reflexivity]. split; [discriminate|].
    intros Hfree. exfalso. apply Hbad. apply Hfree. exact Hin.
Qed.

(** X7. Start-up and shutdown fit together.  When the sizes it asks for
    fit a [ulint] and [ut_malloc] grants them, [sync_array_init] returns;
    what it created, [sync_array_close] accepts at once and takes back to
    NULL, the state from which the arrays can be created again; a second
    [sync_array_init] without the shutdown in between stops on
    [ut_a(sync_wait_array == NULL)], whatever the allocator would do. *)
Theorem init_close_round_trip m n_threads instances :
  0 < n_threads <= ULINT_MAX -> 0 < instances ->
  Z.pos sizeof_pointer * instances <= ULINT_MAX ->
  Z.pos sizeof_sync_cell_t * (1 + (n_threads - 1) / instances)
  <= ULINT_MAX ->
  is_ret (ut_malloc_all m
            (init_requests instances (1 + (n_threads - 1) / instances)))
  = true ->
  exists m' arrs,
    sync_array_init m None instances n_threads = Ret (m', arrs)
    /\ sync_array_close instances (Some arrs) = Ret None
    /\ forall m2, sync_array_init m2 (Some arrs) instances n_threads = Abort.
Proof.
  intros Hn Hi Htable Hcells Hgrant.
  destruct (sync_array_init_ret m n_threads instances Hn Hi Htable Hcells
              Hgrant) as (m' & Hinit).
  destruct (n_slots_exact n_threads instances Hn Hi) as (_ & Hrange).
  set (n_slots := 1 + (n_threads - 1) / instances) in *.
  set (a0 := mk_array 0 n_slots (replicate (Z.to_nat n_slots) zero_cell)
               false 0) in *.
  exists m', (replicate (Z.to_nat instances) a0).
  split; [exact Hinit|]. split; [|reflexivity].
  unfold sync_array_close.
  destruct (close_loop_cases (replicate (Z.to_nat instances) a0))
    with (rem := Z.to_nat instances) (i := 0)
    as [(Hl & _)|(Hl & a & Hin & Hbad)].
  - intros a Ha. apply elem_of_replicate in Ha as [-> _].
    split; [|reflexivity].
    split; [simpl; rewrite length_replicate; lia|]. simpl.
    unfold ULINT_MAX in *. lia.
  - lia.
  - rewrite length_replicate. lia.
  - rewrite Hl. reflexivity.
  - exfalso. apply Hbad. apply elem_of_replicate in Hin as [-> _].
    split; [reflexivity|]. intros c Hc. simpl in Hc.
    apply elem_of_replicate in Hc as [-> _]. reflexivity.
Qed.

(** *** The round robin over the instances *)

Lemma sync_array_get_ret atomic size arrs count :
  0 < size -> Z.of_nat (length arrs) = size ->
  sync_array_get atomic size (Some arrs) count
  = Ret (ulint_incr count,
         (if atomic then ulint_incr count else count) mod size).
Proof.
  intros Hsize Hlen. unfold sync_array_get.
  destruct (size =? 0) eqn:E; [lia|].
  set (k := _ mod size).
  assert (Hk : 0 <= k < size) by (apply Z.mod_pos_bound; lia).
  destruct (lookup_lt_is_Some_2 arrs (Z.to_nat k)) as [a Ha]; [lia|].
  rewrite (nth_instance_lookup arrs k a) by (try lia; exact Ha).
  reflexivity.
Qed.

Lemma mod_window_inj s b i j :
  0 < s -> 0 <= i < s -> 0 <= j < s ->
  (b + i) mod s = (b + j) mod s -> i = j.
Proof.
  intros Hs Hi Hj Heq.
  pose proof (Z.div_mod (b + i) s ltac:(lia)) as H1.
  pose proof (Z.div_mod (b + j) s ltac:(lia)) as H2.
  rewrite Heq in H1.
  assert (Hd : i - j = s * ((b + i) / s - (b + j) / s)) by lia.
  assert (Hq : (b + i) / s - (b + j) / s = 0) by nia.
  rewrite Hq in Hd. lia.
Qed.

Lemma sync_array_get_calls_spec atomic size arrs :
  0 < size -> Z.of_nat (length arrs) = size ->
  forall n count,
    0 <= count -> count + Z.of_nat n <= ULINT_MAX ->
    exists ks,
      sync_array_get_calls atomic size (Some arrs) n count
      = Ret (count + Z.of_nat n, ks)
      /\ length ks = n
      /\ forall j k, ks !! j = Some k ->
           k = ((if atomic then count + 1 else count) + Z.of_nat j) mod size.
Proof.
  intros Hsize Hlen n. induction n as [|n IH]; intros count Hc Hmax.
  - exists []. split; [simpl; f_equal; f_equal; lia|].
    split; [reflexivity|]. intros j k Hj. discriminate.
  - destruct (IH (count + 1)) as (ks & Hks & Hl & Hpos); [lia|lia|].
    cbn [sync_array_get_calls].
    rewrite (sync_array_get_ret atomic size arrs count Hsize Hlen).
    rewrite (ulint_incr_small count) by lia. simpl.
    rewrite Hks. simpl.
    eexists. split; [f_equal; f_equal; lia|].
    split; [simpl; rewrite Hl; reflexivity|].
    intros [|j] k Hj; simpl in Hj.
    + injection Hj as <-. f_equal. destruct atomic; lia.
    + rewrite (Hpos j k Hj). f_equal. destruct atomic; lia.
Qed.

(** X8. [sync_array_get] hands the instances out in turn: as long as the
    counter does not wrap, as many calls in a row as there are instances
    return every instance exactly once, each call the instance after the one
    the call before returned. *)
Theorem sync_array_get_round_robin atomic size arrs count :
  0 < size -> Z.of_nat (length arrs) = size ->
  0 <= count -> count + size <= ULINT_MAX ->
  exists ks,
    sync_array_get_calls atomic size (Some arrs) (Z.to_nat size) count
    = Ret (count + size, ks)
    /\ (forall j k, ks !! j = Some k ->
          k = ((if atomic then count + 1 else count) + Z.of_nat j) mod size)
    /\ NoDup ks
    /\ (forall k, k ∈ ks <-> 0 <= k < size).
Proof.
  intros Hsize Hlen Hc Hmax.
  destruct (sync_array_get_calls_spec atomic size arrs Hsize Hlen
              (Z.to_nat size) count Hc ltac:(lia))
    as (ks & Hks & Hl & Hpos).
  rewrite Z2Nat.id in Hks by lia.
  exists ks. split; [exact Hks|]. split; [exact Hpos|].
  set (b := if atomic then count + 1 else count) in *.
  split.
  - apply NoDup_alt. intros i j k Hi Hj.
    pose proof (lookup_lt_Some _ _ _ Hi) as Hil.
    pose proof (lookup_lt_Some _ _ _ Hj) as Hjl.
    apply Hpos in Hi. apply Hpos in Hj.
    assert (Z.of_nat i = Z.of_nat j); [|lia].
    apply (mod_window_inj size b); [lia|lia|lia|congruence].
  - intros k. split.
    + intros Hin. apply list_elem_of_lookup in Hin as [j Hj].
      rewrite (Hpos j k Hj). apply Z.mod_pos_bound. lia.
    + intros Hk. apply list_elem_of_lookup.
      set (j := (k - b) mod size).
      assert (Hj : 0 <= j < size) by (apply Z.mod_pos_bound; lia).
      exists (Z.to_nat j).
      destruct (lookup_lt_is_Some_2 ks (Z.to_nat j)) as [k' Hk']; [lia|].
      rewrite Hk'. f_equal. rewrite (Hpos _ _ Hk').
      rewrite Z2Nat.id by lia. unfold j.
      rewrite Zplus_mod_idemp_r.
      replace (b + (k - b)) with k by lia.
      apply Z.mod_small. exact Hk.
Qed.

(** X9. The instances that [sync_array_init] creates have the same number
    of cells, so whichever instance the round robin selects,
    [sync_arr_get_n_items] reports that number, and [sync_arr_get_item]
    with an index below it reads the cell at that index of the selected
    instance and returns TRUE exactly when the cell is reserved and marked
    waiting; with an index at or above it, it stops on the bounds
    assertion.  Every call advances the round robin, so the item is read
    from the instance after the one the call before looked at. *)
Theorem sync_arr_get_item_bounds (atomic : bool) size arrs count n i :
  0 < size -> Z.of_nat (length arrs) = size ->
  (forall a, a ∈ arrs -> sync_array_wf a /\ n_cells a = n) ->
  0 <= i ->
  let k := (if atomic then ulint_incr count else count) mod size in
  sync_arr_get_n_items atomic size (Some arrs) count
  = Ret (ulint_incr count, n)
  /\ (i < n ->
      exists a c,
        arrs !! Z.to_nat k = Some a /\ array a !! Z.to_nat i = Some c
        /\ sync_arr_get_item atomic size (Some arrs) count i
           = Ret (ulint_incr count,
                  if negb (wait_object c =? NULL) && waiting c
                  then Some (k, i) else None))
  /\ (n <= i -> sync_arr_get_item atomic size (Some arrs) count i = Abort).
Proof.
  intros Hsize Hlen Hall Hi k.
  assert (Hk : 0 <= k < size) by (apply Z.mod_pos_bound; lia).
  destruct (lookup_lt_is_Some_2 arrs (Z.to_nat k)) as [a Ha]; [lia|].
  assert (Hin : a ∈ arrs) by (eapply list_elem_of_lookup_2; exact Ha).
  destruct (Hall a Hin) as (Hwf & Hn).
  pose proof (nth_instance_lookup arrs k a ltac:(lia) Ha) as Hnth.
  split; [|split].
  - unfold sync_arr_get_n_items.
    rewrite (sync_array_get_ret atomic size arrs count Hsize Hlen).
    cbn -[nth_instance sync_array_get_nth_cell ulint_incr Z.modulo].
    fold k. rewrite Hnth. simpl. rewrite Hn. reflexivity.
  - intros Hlt.
    destruct (get_nth_cell_wf a i Hwf ltac:(lia)) as (c & Hc & Hget).
    exists a, c. split; [exact Ha|]. split; [exact Hc|].
    unfold sync_arr_get_item.
    rewrite (sync_array_get_ret atomic size arrs count Hsize Hlen).
    cbn -[nth_instance sync_array_get_nth_cell ulint_incr Z.modulo].
    fold k. rewrite Hnth. simpl. rewrite Hget. simpl.
    destruct (_ && _); reflexivity.
  - intros Hge. unfold sync_arr_get_item.
    rewrite (sync_array_get_ret atomic size arrs count Hsize Hlen).
    cbn -[nth_instance sync_array_get_nth_cell ulint_incr Z.modulo].
    fold k. rewrite Hnth. simpl.
    rewrite (get_nth_cell_abort a i) by lia. reflexivity.
Qed.

(** *** The sweep over all instances *)

Lemma sweep_low_from h0 a h :
  sync_array_inv a -> os_mutex a = false -> cells_typed h0 a ->
  same_locks h0 h ->
  exists h',
    sync_array_wake_threads_if_sema_free_low (mk_state a h)
    = Ret (mk_state a h', omap (wake_up_event h0) (array a))
    /\ set_events h (omap (wake_up_event h0) (array a)) = Ret h'.
Proof.
  intros (Hwf & Hcount) Hmx Htyped Hsame.
  assert (Hwf1 : sync_array_wf (set_os_mutex a true)) by exact Hwf.
  pose proof (count_reserved_le_length (array a)) as Hle.
  destruct (wake_loop_spec (set_os_mutex a true) h0 Hwf1
              Htyped ltac:(destruct Hwf as (? & ? & ?); simpl; lia)
              (Z.to_nat (n_cells a)) 0 0 h [])
    as (h' & Hloop & Hsets); simpl; rewrite ?drop_0;
    try (destruct Hwf as (? & ? & ?); lia); [exact Hsame|].
  simpl in Hloop, Hsets. rewrite drop_0 in Hloop, Hsets.
  exists h'. split; [|exact Hsets].
  unfold sync_array_wake_threads_if_sema_free_low, sync_array_enter.
  simpl. rewrite Hmx. simpl. rewrite Hloop. simpl.
  rewrite exit_enter by exact Hmx. reflexivity.
Qed.

Lemma set_events_app h evs1 evs2 h1 h2 :
  set_events h evs1 = Ret h1 -> set_events h1 evs2 = Ret h2 ->
  set_events h (evs1 ++ evs2) = Ret h2.
Proof.
  revert h. induction evs1 as [|e evs1 IH]; intros h H1 H2; simpl in *.
  - injection H1 as ->. exact H2.
  - destruct (os_event_set h e) as [h0| | |]; simpl in *; try discriminate.
    eapply IH; eauto.
Qed.

Lemma wake_all_loop_spec arrs h0 :
  (forall a, a ∈ arrs ->
             sync_array_inv a /\ os_mutex a = false /\ cells_typed h0 a) ->
  forall rem i h signalled,
    0 <= i -> i + Z.of_nat rem = Z.of_nat (length arrs) ->
    same_locks h0 h ->
    exists h',
      wake_all_loop rem (Some arrs) i h signalled
      = (h',
         signalled
         ++ (drop (Z.to_nat i) arrs
               ≫= fun a => omap (wake_up_event h0) (array a)),
         Ret (Some arrs))
      /\ set_events h
           (drop (Z.to_nat i) arrs
              ≫= fun a => omap (wake_up_event h0) (array a))
         = Ret h'.
Proof.
  intros Hall rem. induction rem as [|rem IH]; intros i h signalled Hi Hlen Hs.
  - exists h. rewrite drop_ge by lia. simpl. rewrite app_nil_r.
    split; reflexivity.
  - destruct (lookup_lt_is_Some_2 arrs (Z.to_nat i)) as [a Ha]; [lia|].
    assert (Hin : a ∈ arrs) by (eapply list_elem_of_lookup_2; exact Ha).
    destruct (Hall a Hin) as (Hinv & Hmx & Htyped).
    destruct (sweep_low_from h0 a h Hinv Hmx Htyped Hs) as (h1 & Hlow & Hset1).
    assert (Hs1 : same_locks h0 h1).
    { eapply same_locks_trans; [exact Hs|].
      eapply set_events_same_locks; exact Hset1. }
    destruct (IH (i + 1) h1
                (signalled ++ omap (wake_up_event h0) (array a)))
      as (h' & Hloop & Hset2); [lia|lia|exact Hs1|].
    exists h'.
    rewrite (drop_S arrs a (Z.to_nat i) Ha). rewrite bind_cons.
    replace (Z.to_nat (i + 1)) with (S (Z.to_nat i)) in Hloop, Hset2 by lia.
    split.
    + cbn [wake_all_loop].
      rewrite (nth_instance_lookup arrs i a Hi Ha).
      cbn -[wake_all_loop sync_array_wake_threads_if_sema_free_low].
      rewrite Hlow.
      cbn -[wake_all_loop]. rewrite (list_insert_id arrs _ a Ha).
      rewrite Hloop. rewrite <- app_assoc. reflexivity.
    + eapply set_events_app; eauto.
Qed.

Lemma wake_up_event_source h c ev :
  (cell_reserved c = true -> cell_typed h c) ->
  wake_up_event h c = Some ev
  <-> wait_object c <> NULL
      /\ sync_arr_cell_can_wake_up h c = Ret true
      /\ sync_cell_get_event h c = Ret ev.
Proof.
  intros Htyped. unfold wake_up_event.
  destruct (cell_reserved c) eqn:Hres.
  - assert (Hobj : wait_object c <> NULL).
    { unfold cell_reserved in Hres. intros Heq. rewrite Heq in Hres.
      discriminate. }
    split.
    + intros Hw.
      destruct (sync_arr_cell_can_wake_up h c) as [[|]| | |] eqn:Hcan;
        try discriminate.
      injection Hw as <-. split; [exact Hobj|]. split; [reflexivity|].
      apply get_event_typed; [apply Htyped; reflexivity|exact Hcan].
    + intros (_ & Hcan & Hev). rewrite Hcan. f_equal. symmetry.
      eapply get_event_ret. exact Hev.
  - split; [discriminate|]. intros (Hobj & _). exfalso.
    unfold cell_reserved in Hres. apply Hobj.
    apply negb_false_iff in Hres. lia.
Qed.

(** X10. [sync_arr_wake_threads_if_sema_free] runs the sweep over every
    instance: the events it hands to [os_event_set] are exactly the events
    of the reserved cells, of any instance, whose wait object
    [sync_arr_cell_can_wake_up] accepts.  No instance is changed, and in the
    waited-for objects only events are. *)
Theorem wake_threads_all_instances size arrs h :
  Z.of_nat (length arrs) = size ->
  (forall a, a ∈ arrs ->
             sync_array_inv a /\ os_mutex a = false /\ cells_typed h a) ->
  exists h' signalled,
    sync_arr_wake_threads_if_sema_free size (Some arrs) h
    = (h', signalled, Ret (Some arrs))
    /\ (forall ev,
          ev ∈ signalled <->
          exists a k c,
            a ∈ arrs /\ array a !! k = Some c /\ wait_object c <> NULL
            /\ sync_arr_cell_can_wake_up h c = Ret true
            /\ sync_cell_get_event h c = Ret ev)
    /\ same_locks h h'.
Proof.
  intros Hlen Hall.
  destruct (wake_all_loop_spec arrs h Hall (Z.to_nat size) 0 h [])
    as (h' & Hloop & Hsets); [lia|lia|apply same_locks_refl|].
  simpl in Hloop, Hsets. rewrite drop_0 in Hloop, Hsets.
  exists h', (arrs ≫= fun a => omap (wake_up_event h) (array a)).
  split; [exact Hloop|]. split.
  - intros ev. rewrite list_elem_of_bind. split.
    + intros (a & Hev & Ha). apply list_elem_of_omap in Hev as (c & Hc & Hw).
      apply list_elem_of_lookup in Hc as [k Hk].
      destruct (Hall a Ha) as (_ & _ & Htyped).
      apply wake_up_event_source in Hw; [|intros Hres; eapply Htyped; eauto].
      exists a, k, c. tauto.
    + intros (a & k & c & Ha & Hk & Hobj & Hcan & Hev).
      destruct (Hall a Ha) as (_ & _ & Htyped).
      exists a. split; [|exact Ha].
      apply list_elem_of_omap. exists c. split.
      * eapply list_elem_of_lookup_2. exact Hk.
      * apply wake_up_event_source; [intros Hres; eapply Htyped; eauto|].
        tauto.
  - eapply set_events_same_locks. exact Hsets.
Qed.

(** *** Reserving and freeing in a row *)

Lemma os_event_reset_same_locks h ev h' sig :
  os_event_reset h ev = Ret (h', sig) -> same_locks h h'.
Proof.
  unfold os_event_reset.
  destruct (event_load h ev) as [v| | |]; simpl; try discriminate.
  destruct (event_store h ev _) as [h1| | |] eqn:Hst; simpl;
    try discriminate.
  intros [= <- _]. eapply event_store_same_locks. exact Hst.
Qed.

(** X11. Freeing undoes a reservation: after [sync_array_reserve_cell] has
    returned an index, [sync_array_free_cell] on that index returns, and
    then the same cells are reserved as before the reservation, [n_reserved]
    has its old value, every other cell is untouched, the mutex is free and
    only an event has changed in the waited-for objects.  What stays behind
    is the incremented reservation total and, in the freed cell, the request
    type, the thread, the reservation time and the object as the latest wait
    mutex or the latest wait rw-lock. *)
Theorem reserve_free_round_trip s object type file line self now s1 i :
  sync_array_inv (arr s) ->
  sync_array_reserve_cell s object type file line self now
  = Ret (s1, Some i) ->
  exists s2,
    sync_array_free_cell s1 i = Ret s2
    /\ n_reserved (arr s2) = n_reserved (arr s)
    /\ cell_reserved <$> array (arr s2) = cell_reserved <$> array (arr s)
    /\ (forall k, k <> Z.to_nat i ->
                  array (arr s2) !! k = array (arr s) !! k)
    /\ (exists c c2,
          array (arr s) !! Z.to_nat i = Some c
          /\ array (arr s2) !! Z.to_nat i = Some c2
          /\ wait_object c2 = NULL /\ waiting c2 = false
          /\ signal_count c2 = 0
          /\ thread c2 = self /\ request_type c2 = type
          /\ reservation_time c2 = now
          /\ old_wait_mutex c2
             = (if decide (type = SYNC_MUTEX) then object
                else old_wait_mutex c)
          /\ old_wait_rw_lock c2
             = (if decide (type = SYNC_MUTEX) then old_wait_rw_lock c
                else object))
    /\ os_mutex (arr s2) = false
    /\ res_count (arr s2) = ulint_incr (res_count (arr s))
    /\ same_locks (objects s) (objects s2).
Proof.
  intros (Hwf & Hcount) Hret.
  destruct (reserve_cell_ret _ _ _ _ _ _ _ _ _ Hwf Hret)
    as (Hobj & _ & (Hi & (c0 & Hc0 & Hfree0) & _)
        & (c & ev & sig & Hc & _ & Hreset & Harr)).
  rewrite Hc in Hc0. injection Hc0 as <-.
  assert (Hlt : (Z.to_nat i < length (array (arr s)))%nat)
    by (apply lookup_lt_is_Some; eauto).
  assert (Hcfree : cell_reserved c = false).
  { unfold cell_reserved. rewrite Hfree0. reflexivity. }
  assert (Hn : 0 <= n_reserved (arr s) < ULINT_MAX).
  { pose proof (count_reserved_nonneg (array (arr s))).
    pose proof (count_reserved_free_cell _ _ _ Hc Hcfree).
    destruct Hwf as (Hlen & _ & Hmax). lia. }
  set (c1 := reserve_stamp (reserve_fill c object type file line) sig now self)
    in *.
  assert (Hfreeret :
            sync_array_free_cell s1 i
            = Ret (mk_state
                     (mk_array (n_reserved (arr s)) (n_cells (arr s))
                        (<[Z.to_nat i := free_fill c1]> (array (arr s)))
                        false (ulint_incr (res_count (arr s))))
                     (objects s1))).
  { unfold sync_array_free_cell, sync_array_enter. rewrite Harr. simpl.
    unfold sync_array_get_nth_cell, ut_a, cell_at. simpl.
    destruct (i <? n_cells (arr s)) eqn:E1; [|lia]. simpl.
    rewrite list_lookup_insert_eq by exact Hlt.
    destruct (0 <=? i) eqn:E2; [|lia]. simpl.
    destruct (object =? NULL) eqn:E3; [lia|]. simpl.
    rewrite (ulint_incr_small (n_reserved (arr s))) by lia.
    destruct (0 <? n_reserved (arr s) + 1) eqn:E4; [|lia]. simpl.
    rewrite ulint_decr_small by lia.
    unfold store_cell, set_array, set_n_reserved, sync_array_exit,
      set_os_mutex. simpl.
    rewrite list_insert_insert_eq.
    f_equal. f_equal. f_equal. lia. }
  eexists. split; [exact Hfreeret|]. simpl.
  split; [reflexivity|]. split; [|split; [|split; [|split; [|split]]]].
  - rewrite list_fmap_insert. apply list_insert_id.
    rewrite list_lookup_fmap, Hc. simpl. f_equal.
    rewrite Hcfree. reflexivity.
  - intros k Hk. apply list_lookup_insert_ne. lia.
  - exists c, (free_fill c1). split; [exact Hc|].
    split; [apply list_lookup_insert_eq; exact Hlt|].
    repeat split; reflexivity.
  - reflexivity.
  - reflexivity.
  - eapply os_event_reset_same_locks. exact Hreset.
Qed.

Lemma step_mutex_held sys sys' :
  os_mutex (arr (shared sys)) = true -> sync_step sys sys' ->
  locked_part (arr (shared sys')) = locked_part (arr (shared sys))
  /\ (stamping sys = ∅ ->
      arr (shared sys') = arr (shared sys) /\ stamping sys' = ∅).
Proof.
  intros Hmx Hstep. destruct Hstep as
    [sys object type file line self s' found Hst H
    |sys self i s' Hst H
    |sys self i now s' Hst H
    |sys self i s' Hst H
    |b sys index self s' ev Hst H
    |sys index s' H
    |sys s' signalled H
    |sys a' H
    |sys h']; cbn [shared stamping arr].
  - exfalso. revert H. unfold reserve_cell_locked, ut_a, sync_array_enter.
    destruct (object =? NULL); simpl; [discriminate|].
    rewrite Hmx. discriminate.
  - split; [apply stamped_locked_part; eapply signal_count_stamped; eauto|].
    intros Hempty. rewrite Hempty, lookup_empty in Hst. discriminate.
  - split;
      [apply stamped_locked_part; eapply reservation_time_stamped; eauto|].
    intros Hempty. rewrite Hempty, lookup_empty in Hst. discriminate.
  - split; [apply stamped_locked_part; eapply thread_stamped; eauto|].
    intros Hempty. rewrite Hempty, lookup_empty in Hst. discriminate.
  - exfalso. revert H. unfold sync_array_wait_event_enter, sync_array_enter.
    rewrite Hmx. discriminate.
  - exfalso. revert H. unfold sync_array_free_cell, sync_array_enter.
    rewrite Hmx. discriminate.
  - exfalso. revert H.
    unfold sync_array_wake_threads_if_sema_free_low, sync_array_enter.
    rewrite Hmx. discriminate.
  - exfalso. revert H. unfold sync_array_validate, sync_array_enter.
    rewrite Hmx. discriminate.
  - auto.
Qed.

Lemma steps_mutex_held sys sys' :
  os_mutex (arr (shared sys)) = true -> rtc sync_step sys sys' ->
  locked_part (arr (shared sys')) = locked_part (arr (shared sys))
  /\ (stamping sys = ∅ -> arr (shared sys') = arr (shared sys)).
Proof.
  intros Hmx Hsteps. revert Hmx.
  induction Hsteps as [sys|sys1 sys2 sys3 Hstep _ IH]; intros Hmx; [auto|].
  destruct (step_mutex_held _ _ Hmx Hstep) as (Hpart & Hempty).
  assert (Hmx2 : os_mutex (arr (shared sys2)) = true).
  { apply locked_part_fields in Hpart as (_ & _ & Hm & _). congruence. }
  destruct (IH Hmx2) as (Hpart3 & Hempty3).
  split; [congruence|].
  intros Hst. destruct (Hempty Hst) as (Harr & Hst2).
  rewrite (Hempty3 Hst2). exact Harr.
Qed.

(** X12. When [sync_array_reserve_cell] finds no free cell, it returns
    false without leaving the array mutex.  The mutex is still held after
    the call and stays held whatever the threads do next: every later call
    on the array (a reservation, a release, a wait, the validation, the
    sweep) finds it taken.  The only writes that still reach the array are
    those of threads that had reserved a cell and left the mutex before:
    their signal count, reservation time and thread id.  Every other field
    of every cell and the counters stay as they are, and when no such
    thread is at work, so does the whole array. *)
Theorem failed_reserve_keeps_mutex s object type file line self now s' :
  sync_array_reserve_cell s object type file line self now = Ret (s', None) ->
  os_mutex (arr s') = true
  /\ forall st sys2,
       rtc sync_step (mk_system s' st) sys2 ->
       os_mutex (arr (shared sys2)) = true
       /\ (forall object' type' file' line' self' now',
             object' <> NULL ->
             sync_array_reserve_cell (shared sys2) object' type' file' line'
               self' now'
             = Blocked)
       /\ (forall index, sync_array_free_cell (shared sys2) index = Blocked)
       /\ (forall b index self',
             sync_array_wait_event b (shared sys2) index self' = Blocked)
       /\ sync_array_wake_threads_if_sema_free_low (shared sys2) = Blocked
       /\ sync_array_validate (arr (shared sys2)) = Blocked
       /\ locked_part (arr (shared sys2)) = locked_part (arr s')
       /\ (st = ∅ -> arr (shared sys2) = arr s').
Proof.
  intros Hret.
  assert (Hmx : os_mutex (arr s') = true).
  { apply reserve_cell_parts in Hret.
    apply reserve_cell_locked_ret in Hret as (_ & _ & _ & ->). reflexivity. }
  split; [exact Hmx|].
  intros st sys2 Hsteps.
  destruct (steps_mutex_held (mk_system s' st) sys2 Hmx Hsteps)
    as (Hpart & Hempty).
  cbn [shared stamping] in Hpart, Hempty.
  assert (Hmx2 : os_mutex (arr (shared sys2)) = true).
  { apply locked_part_fields in Hpart as (_ & _ & Hm & _). congruence. }
  split; [exact Hmx2|].
  split; [|split; [|split; [|split; [|split; [|split]]]]].
  - intros object' type' file' line' self' now' Hobj.
    unfold sync_array_reserve_cell, reserve_cell_locked, ut_a,
      sync_array_enter.
    destruct (object' =? NULL) eqn:E; [lia|]. simpl.
    rewrite Hmx2. reflexivity.
  - intros index. unfold sync_array_free_cell, sync_array_enter.
    rewrite Hmx2. reflexivity.
  - intros b index self'.
    unfold sync_array_wait_event, sync_array_wait_event_enter,
      sync_array_enter.
    rewrite Hmx2. reflexivity.
  - unfold sync_array_wake_threads_if_sema_free_low, sync_array_enter.
    rewrite Hmx2. reflexivity.
  - unfold sync_array_validate, sync_array_enter. rewrite Hmx2. reflexivity.
  - exact Hpart.
  - exact Hempty.
Qed.

Lemma freed_cell_aborts a index c h :
  0 <= index < n_cells a -> array a !! Z.to_nat index = Some c ->
  wait_object c = NULL -> os_mutex a = false ->
  sync_array_free_cell (mk_state a h) index = Abort
  /\ (forall b self, sync_array_wait_event b (mk_state a h) index self = Abort).
Proof.
  intros Hi Hc Hnull Hmx. split; [|intros b self];
    unfold sync_array_wait_event, sync_array_wait_event_enter,
      sync_array_free_cell, sync_array_enter; simpl; rewrite Hmx; simpl;
    unfold sync_array_get_nth_cell, ut_a; simpl;
    (destruct (index <? n_cells a) eqn:E1; [|lia]); simpl;
    rewrite (cell_at_lookup _ index c) by (simpl; first [lia|exact Hc]);
    simpl; rewrite Hnull; reflexivity.
Qed.

(** X13. [sync_array_wait_event] frees the cell itself, but not before the
    event has been signalled.  Its first half marks the cell waiting and
    leaves the mutex; as long as the event has not been set since the
    reservation, the call stays in [os_event_wait_low] with the cell
    reserved.  When the thread finds the event signalled, in whatever state
    the array is by then, the second half frees the cell: [n_reserved] is
    one less, and a [sync_array_free_cell] or another
    [sync_array_wait_event] on the same index afterwards stops on its
    assertion that the cell has a wait object. *)
Theorem wait_event_frees_cell b s index self s1 ev :
  sync_array_wait_event_enter b s index self = Ret (s1, ev) ->
  exists c,
    array (arr s) !! Z.to_nat index = Some c
    /\ array (arr s1) !! Z.to_nat index = Some (set_waiting c)
    /\ wait_object c <> NULL
    /\ wait_event_signal_count s1 index = Ret (signal_count c)
    /\ n_reserved (arr s1) = n_reserved (arr s)
    /\ os_mutex (arr s1) = false /\ objects s1 = objects s
    /\ (os_event_wait_low (objects s1) ev (signal_count c) = Blocked ->
        sync_array_wait_event b s index self = Blocked)
    /\ (forall s2,
          os_event_wait_low (objects s2) ev (signal_count c) = Blocked ->
          sync_array_wait_event_wake s2 index ev (signal_count c) = Blocked)
    /\ (forall s2 c2,
          os_event_wait_low (objects s2) ev (signal_count c) = Ret tt ->
          os_mutex (arr s2) = false -> 0 <= index < n_cells (arr s2) ->
          array (arr s2) !! Z.to_nat index = Some c2 ->
          wait_object c2 <> NULL -> 0 < n_reserved (arr s2) ->
          is_ret (sync_array_wait_event_wake s2 index ev (signal_count c))
          = true)
    /\ (forall s2 c2 s3,
          array (arr s2) !! Z.to_nat index = Some c2 ->
          sync_array_wait_event_wake s2 index ev (signal_count c) = Ret s3 ->
          wait_object c2 <> NULL
          /\ array (arr s3)
             = <[Z.to_nat index := free_fill c2]> (array (arr s2))
          /\ n_reserved (arr s3) = ulint_decr (n_reserved (arr s2))
          /\ objects s3 = objects s2
          /\ sync_array_free_cell s3 index = Abort
          /\ (forall b' self',
                sync_array_wait_event b' s3 index self' = Abort)).
Proof.
  intros Henter.
  destruct (wait_event_enter_ret _ _ _ _ _ _ Henter)
    as (_ & Hi & c & Hc & Hobj & _ & Hs1).
  destruct (wait_event_enter_event _ _ _ _ _ _ _ Hc Henter)
    as (_ & Hsig & _ & _).
  assert (Hlt : (Z.to_nat index < length (array (arr s)))%nat)
    by (apply lookup_lt_is_Some; eauto).
  exists c. split; [exact Hc|].
  split; [subst s1; simpl; apply list_lookup_insert_eq; exact Hlt|].
  split; [exact Hobj|]. split; [exact Hsig|].
  split; [subst s1; reflexivity|]. split; [subst s1; reflexivity|].
  split; [subst s1; reflexivity|].
  split; [|split; [|split]].
  - intros Hblocked. unfold sync_array_wait_event. rewrite Henter.
    cbn [mbind outcome_bind]. rewrite Hsig. cbn [mbind outcome_bind].
    unfold sync_array_wait_event_wake.
    rewrite Hblocked. reflexivity.
  - intros s2 Hblocked. unfold sync_array_wait_event_wake.
    rewrite Hblocked. reflexivity.
  - intros s2 c2 Hgo Hmx2 Hi2 Hc2 Hobj2 Hpos.
    unfold sync_array_wait_event_wake. rewrite Hgo. cbn [mbind outcome_bind].
    eapply free_cell_returns; eauto.
  - intros s2 c2 s3 Hc2 Hwake.
    apply wait_event_wake_ret in Hwake as (_ & Hfree).
    destruct (free_cell_ret _ _ _ Hfree)
      as (_ & Hi2 & _ & c2' & Hc2' & Hobj2 & ->).
    assert (c2' = c2) as -> by congruence.
    assert (Hlt2 : (Z.to_nat index < length (array (arr s2)))%nat)
      by (apply lookup_lt_is_Some; eauto).
    split; [exact Hobj2|]. split; [reflexivity|]. split; [reflexivity|].
    split; [reflexivity|].
    apply (freed_cell_aborts _ index (free_fill c2)); simpl;
      [exact Hi2| |reflexivity|reflexivity].
    apply list_lookup_insert_eq. exact Hlt2.
Qed.

(** *** The sweep on an array whose count is off *)

Lemma wake_loop_overstated a h0 :
  sync_array_wf a -> cells_typed h0 a ->
  forall rem i count h signalled,
    0 <= i -> i + Z.of_nat rem = n_cells a -> 0 <= count <= i ->
    count + count_reserved (drop (Z.to_nat i) (array a)) < n_reserved a ->
    same_locks h0 h ->
    wake_loop rem a i count h signalled = Abort.
Proof.
  intros Hwf Htyped.
  induction rem as [|rem IH]; intros i count h signalled Hi Hrem Hc Hsum Hs.
  - destruct Hwf as (Hlen & _).
    rewrite drop_ge in Hsum by lia. simpl in *.
    destruct (count <? n_reserved a) eqn:Hlt; [reflexivity|lia].
  - destruct (get_nth_cell_wf a i Hwf) as (c & Hlook & Hget); [lia|].
    rewrite (drop_S _ _ _ Hlook) in Hsum.
    replace (S (Z.to_nat i)) with (Z.to_nat (i + 1)) in * by lia.
    pose proof (count_reserved_nonneg (drop (Z.to_nat (i + 1)) (array a)))
      as Hnn.
    assert (Hmax : count < ULINT_MAX) by (destruct Hwf as (_ & _ & ?); lia).
    simpl in Hsum. simpl wake_loop.
    destruct (count <? n_reserved a) eqn:Hlt;
      [|destruct (cell_reserved c); lia].
    rewrite Hget. simpl mbind.
    destruct (cell_reserved c) eqn:Hres.
    + pose proof (Htyped _ _ Hlook Hres) as Ht0.
      destruct (can_wake_up_typed _ _ Ht0) as [b Hcan0].
      rewrite <- (can_wake_up_same_locks h0 h c Hs), Hcan0. simpl mbind.
      rewrite ulint_incr_small by lia.
      destruct b.
      * assert (Ht : cell_typed h c)
          by (eapply cell_typed_same_locks; eauto).
        assert (Hcan : sync_arr_cell_can_wake_up h c = Ret true)
          by (rewrite <- (can_wake_up_same_locks h0 h c Hs); exact Hcan0).
        rewrite (get_event_typed h c Ht Hcan). simpl mbind.
        destruct (os_event_set_typed h c Ht Hcan) as [h1 Hset].
        rewrite Hset. simpl mbind.
        apply IH; try lia.
        eapply same_locks_trans; [exact Hs|].
        eapply os_event_set_same_locks; exact Hset.
      * apply IH; try lia. exact Hs.
    + apply IH; try lia. exact Hs.
Qed.

(** X14. The sweep trusts [n_reserved]: it scans until it has seen that
    many reserved cells.  On an array in which fewer cells are reserved than
    [n_reserved] says, it runs to the end of the array and stops there on
    the bounds assertion of [sync_array_get_nth_cell]; it does not read
    behind the array and it does not return. *)
Theorem sweep_stops_on_overstated_count s :
  sync_array_wf (arr s) -> os_mutex (arr s) = false ->
  cells_typed (objects s) (arr s) ->
  count_reserved (array (arr s)) < n_reserved (arr s) ->
  sync_array_wake_threads_if_sema_free_low s = Abort.
Proof.
  intros Hwf Hmx Htyped Hlt.
  assert (Hwf1 : sync_array_wf (set_os_mutex (arr s) true)) by exact Hwf.
  unfold sync_array_wake_threads_if_sema_free_low, sync_array_enter.
  rewrite Hmx. simpl.
  rewrite (wake_loop_overstated (set_os_mutex (arr s) true) (objects s)
             Hwf1 Htyped); simpl; rewrite ?drop_0;
    try (destruct Hwf as (? & ? & ?); lia);
    [reflexivity|apply same_locks_refl].
Qed.

(** *** Room for every thread *)

Lemma total_cells_replicate n a :
  total_cells (replicate n a) = Z.of_nat n * n_cells a.
Proof.
  induction n as [|n IH]; [reflexivity|].
  simpl replicate. unfold total_cells in *. simpl foldr. rewrite IH. lia.
Qed.

(** X15. When the sizes it asks for fit a [ulint] and [ut_malloc] grants
    them, [sync_array_init] provides a cell for every thread: the instances
    it creates are valid, unlocked and empty, and together they have at
    least [n_threads] cells, and fewer than [n_threads] plus the number of
    instances. *)
Theorem sync_array_init_capacity m n_threads instances :
  0 < n_threads <= ULINT_MAX -> 0 < instances ->
  Z.pos sizeof_pointer * instances <= ULINT_MAX ->
  Z.pos sizeof_sync_cell_t * (1 + (n_threads - 1) / instances)
  <= ULINT_MAX ->
  is_ret (ut_malloc_all m
            (init_requests instances (1 + (n_threads - 1) / instances)))
  = true ->
  exists m' arrs,
    sync_array_init m None instances n_threads = Ret (m', arrs)
    /\ (forall a, a ∈ arrs ->
                  sync_array_inv a /\ os_mutex a = false
                  /\ n_reserved a = 0 /\ res_count a = 0)
    /\ n_threads <= total_cells arrs < n_threads + instances.
Proof.
  intros Hn Hi Htable Hcells Hgrant.
  destruct (sync_array_init_ret m n_threads instances Hn Hi Htable Hcells
              Hgrant) as (m' & Hinit).
  destruct (n_slots_exact n_threads instances Hn Hi) as (_ & Hrange).
  set (n_slots := 1 + (n_threads - 1) / instances) in *.
  set (a0 := mk_array 0 n_slots (replicate (Z.to_nat n_slots) zero_cell)
               false 0) in *.
  exists m', (replicate (Z.to_nat instances) a0).
  split; [exact Hinit|]. split.
  - intros a Ha. apply elem_of_replicate in Ha as [-> _].
    split; [|repeat split].
    split; [split; [simpl; rewrite length_replicate; lia|]|].
    + simpl. unfold ULINT_MAX in *. lia.
    + simpl. apply count_reserved_replicate.
  - rewrite total_cells_replicate. simpl n_cells.
    rewrite Z2Nat.id by lia.
    pose proof (Z.div_mod (n_threads - 1) instances ltac:(lia)) as Hdm.
    pose proof (Z.mod_pos_bound (n_threads - 1) instances ltac:(lia)) as Hmb.
    unfold n_slots. nia.
Qed.

(** *** How deep the deadlock search goes *)

Lemma mutex_path_aborts s self start start_c :
  cell_at (arr s) start = Ret start_c -> thread start_c = self ->
  forall k cell,
    mutex_path s start k cell ->
    forall fuel depth r,
      100 <= depth + 2 * Z.of_nat k ->
      detect_deadlock_fuel fuel s self start cell depth = Some r ->
      r = Abort.
Proof.
  intros Hstart Hself k cell Hpath.
  induction Hpath as [cell c Hc
                     |k cell c m next Hc Hres Hw Hty Hm Hlw Hfind Hne _ IH];
    intros fuel depth r Hdepth Hrun;
    (destruct fuel as [|fuel]; [discriminate|]);
    simpl in Hrun; rewrite Hstart, Hc in Hrun;
    destruct (negb (cell_reserved c)); try congruence;
    rewrite Hself, Z.eqb_refl in Hrun; simpl in Hrun;
    destruct (depth <? 100) eqn:Hd; simpl in Hrun; try congruence.
  - lia.
  - rewrite Hw in Hrun. simpl in Hrun. rewrite Hty, Hm in Hrun.
    destruct (m_lock_word m =? 0) eqn:E; [lia|]. simpl in Hrun.
    rewrite (deadlock_step_next _ _ _ _ _ _ Hfind Hne) in Hrun.
    apply (IH fuel (depth + 1 + 1) r); [lia|exact Hrun].
Qed.

(** X16. The deadlock search of the debug build gives up at depth 100, and
    every cell it passes costs two levels: when the wait of a cell leads
    through 50 mutexes in a row, each held by a thread that waits for the
    next, the search stops on [ut_ad(depth < 100)] although nothing leads
    back to the starting cell; so does the [sync_array_wait_event] that
    started it. *)
Theorem deadlock_search_depth_limit :
  (forall s self start start_c cell k depth,
      cell_at (arr s) start = Ret start_c -> thread start_c = self ->
      mutex_path s start k cell -> 100 <= depth + 2 * Z.of_nat k ->
      sync_array_detect_deadlock s self start cell depth = Abort)
  /\ (forall s index self c,
        os_mutex (arr s) = false -> 0 <= index < n_cells (arr s) ->
        array (arr s) !! Z.to_nat index = Some c ->
        wait_object c <> NULL -> waiting c = false -> thread c = self ->
        is_ret (sync_cell_get_event (objects s) c) = true ->
        mutex_path
          (mk_state
             (store_cell (set_os_mutex (arr s) true) index (set_waiting c))
             (objects s))
          index 50 index ->
        sync_array_wait_event_enter SYNC_DEBUG s index self = Abort).
Proof.
  assert (Hfirst : forall s self start start_c cell k depth,
             cell_at (arr s) start = Ret start_c -> thread start_c = self ->
             mutex_path s start k cell -> 100 <= depth + 2 * Z.of_nat k ->
             sync_array_detect_deadlock s self start cell depth = Abort).
  { intros s self start start_c cell k depth Hstart Hself Hpath Hdepth.
    eapply (mutex_path_aborts s self start start_c Hstart Hself k cell Hpath);
      [exact Hdepth|apply detect_deadlock_total]. }
  split; [exact Hfirst|].
  intros s index self c Hmx Hi Hc Hobj Hw Hthr Hev Hpath.
  unfold sync_array_wait_event_enter, sync_array_enter. rewrite Hmx. simpl.
  unfold sync_array_get_nth_cell, ut_a, cell_at. simpl.
  destruct (index <? n_cells (arr s)) eqn:E1; [|lia]. simpl.
  rewrite Hc. destruct (0 <=? index) eqn:E2; [|lia]. simpl.
  destruct (wait_object c =? NULL) eqn:E3; [unfold NULL in *; lia|]. simpl.
  rewrite Hw. simpl. unfold ut_ad, ut_a. simpl.
  rewrite Hthr, Z.eqb_refl. simpl.
  destruct (sync_cell_get_event (objects s) c) as [ev| | |];
    try discriminate.
  simpl.
  assert (Hlt : (Z.to_nat index < length (array (arr s)))%nat)
    by (apply lookup_lt_is_Some; eauto).
  erewrite (Hfirst _ self index (set_waiting c) index 50%nat 0);
    [reflexivity| |exact Hthr|exact Hpath|lia].
  apply cell_at_lookup; [lia|]. simpl.
  apply list_lookup_insert_eq. exact Hlt.
Qed.

(** *** A new array *)

Lemma validate_loop_short a rem i count :
  0 <= i <= Z.of_nat (length (array a)) ->
  i + Z.of_nat rem <= n_cells a ->
  Z.of_nat (length (array a)) < i + Z.of_nat rem ->
  validate_loop rem a i count = Fault.
Proof.
  revert i count. induction rem as [|rem IH]; intros i count Hi Hn Hlen.
  - lia.
  - simpl. unfold sync_array_get_nth_cell, ut_a.
    destruct (i <? n_cells a) eqn:Hlt; [|lia]. simpl.
    unfold cell_at. destruct (array a !! Z.to_nat i) as [c|] eqn:Hc;
      [|reflexivity].
    destruct (0 <=? i) eqn:Hi'; [|lia]. simpl.
    apply lookup_lt_Some in Hc.
    apply IH; lia.
Qed.

(** X17. [sync_array_create] refuses a size of 0.  When the size of the
    cells fits a [ulint] and [ut_malloc] grants the header and the cells,
    it returns an array that passes [sync_array_validate], and the first
    reservation in it gets cell 0, which makes both the number of reserved
    cells and the reservation total 1.  When the size of the cells does not
    fit, an array it returns has fewer cells than [n_cells] says, and
    [sync_array_validate] reads behind them. *)
Theorem create_then_reserve m n h object type file line self now :
  0 < n -> Z.pos sizeof_sync_cell_t * n <= ULINT_MAX ->
  is_ret (ut_malloc_all m
            [Z.pos sizeof_sync_array_t; Z.pos sizeof_sync_cell_t * n])
  = true ->
  object <> NULL -> object_typed h object type ->
  (exists m' a0 s',
      sync_array_create m n = Ret (m', a0)
      /\ sync_array_validate a0 = Ret a0
      /\ sync_array_reserve_cell (mk_state a0 h) object type file line self
           now
         = Ret (s', Some 0)
      /\ n_reserved (arr s') = 1 /\ res_count (arr s') = 1)
  /\ (forall m0, sync_array_create m0 0 = Abort)
  /\ (forall m0 n0 m1 a1,
        0 < n0 <= ULINT_MAX -> ULINT_MAX < Z.pos sizeof_sync_cell_t * n0 ->
        sync_array_create m0 n0 = Ret (m1, a1) ->
        n_cells a1 = n0 /\ Z.of_nat (length (array a1)) < n0
        /\ sync_array_validate a1 = Fault).
Proof.
  intros Hn Hmax Hgrant Hobj Htyped.
  assert (Hn' : n <= ULINT_MAX).
  { pose proof (Pos2Z.is_pos sizeof_sync_cell_t). nia. }
  split; [|split].
  - set (a0 := mk_array 0 n (replicate (Z.to_nat n) zero_cell) false 0).
    revert Hgrant. cbn [ut_malloc_all].
    destruct (ut_malloc m (Z.pos sizeof_sync_array_t)) as [m1| | |] eqn:H1;
      simpl; try discriminate.
    destruct (ut_malloc m1 (Z.pos sizeof_sync_cell_t * n))
      as [m2| | |] eqn:H2; simpl; try discriminate.
    intros _.
    pose proof (create_granted m n m1 m2 Hn Hmax H1 H2) as Hcreate.
    fold a0 in Hcreate.
    pose proof (inv_create m n m2 a0 Hn Hmax Hcreate) as Hinv.
    destruct Hinv as (Hwf & Hcount).
    destruct (reserve_cell_returns (mk_state a0 h) object type file line self
                now Hwf eq_refl Hobj
                (object_typed_event h zero_cell object type file line Htyped))
      as (s' & r & Hret).
    destruct (reserve_cell_ret (mk_state a0 h) _ _ _ _ _ _ _ _ Hwf Hret)
      as (_ & _ & Hfirst & Hshape).
    assert (H0 : array a0 !! Z.to_nat 0 = Some zero_cell).
    { simpl. apply lookup_replicate_2. lia. }
    assert (Hr : r = Some 0).
    { destruct r as [i|]; simpl in Hfirst.
      - destruct Hfirst as (Hi & _ & Hbefore).
        destruct (Z.eq_dec i 0) as [->|Hne]; [reflexivity|].
        specialize (Hbefore 0 zero_cell ltac:(lia) H0). discriminate.
      - specialize (Hfirst 0 zero_cell ltac:(lia) H0). discriminate. }
    subst r. destruct Hshape as (c & ev & sig & _ & _ & _ & Harr).
    exists m2, a0, s'. split; [exact Hcreate|].
    split; [apply validate_inv; [split; assumption|reflexivity]|].
    split; [exact Hret|]. rewrite Harr. simpl.
    assert (H1' : ulint_incr 0 = 1) by (apply ulint_incr_small; lia).
    rewrite H1'. split; reflexivity.
  - intros m0. reflexivity.
  - intros m0 n0 m1 a1 Hn0 Hwrap Hcreate.
    apply create_ret in Hcreate as (_ & ->). simpl.
    assert (Hshort : ulint_wrap (Z.pos sizeof_sync_cell_t * n0)
                     / Z.pos sizeof_sync_cell_t < n0).
    { apply Z.div_lt_upper_bound; [lia|].
      pose proof ULINT_MODULUS_pos as Hm.
      unfold ulint_wrap. unfold ULINT_MAX in Hwrap.
      pose proof (Z.mod_pos_bound (Z.pos sizeof_sync_cell_t * n0)
                    ULINT_MODULUS Hm). lia. }
    destruct (items_of_size sizeof_sync_cell_t n0) as (Hle & _); [lia|].
    rewrite length_replicate, Z2Nat.id by lia.
    split; [reflexivity|]. split; [exact Hshort|].
    unfold sync_array_validate, sync_array_enter. simpl.
    rewrite validate_loop_short; [reflexivity|lia| |];
      simpl; rewrite ?length_replicate; lia.
Qed.

(** *** The sweep behind a mutex that is held *)

Lemma take_drop_cons {A} (l : list A) i k x :
  l !! i = Some x -> (i < k)%nat ->
  take (k - i) (drop i l) = x :: take (k - S i) (drop (S i) l).
Proof.
  intros Hx Hlt. rewrite (drop_S l x i Hx).
  replace (k - i)%nat with (S (k - S i)) by lia. reflexivity.
Qed.

Lemma wake_all_loop_blocked arrs h0 k a :
  arrs !! k = Some a -> os_mutex a = true ->
  (forall j b, (j < k)%nat -> arrs !! j = Some b ->
               sync_array_inv b /\ os_mutex b = false /\ cells_typed h0 b) ->
  forall rem i h signalled,
    0 <= i <= Z.of_nat k -> Z.of_nat k < i + Z.of_nat rem ->
    same_locks h0 h ->
    exists h',
      wake_all_loop rem (Some arrs) i h signalled
      = (h',
         signalled
         ++ (take (k - Z.to_nat i) (drop (Z.to_nat i) arrs)
               ≫= fun b => omap (wake_up_event h0) (array b)),
         Blocked)
      /\ set_events h
           (take (k - Z.to_nat i) (drop (Z.to_nat i) arrs)
              ≫= fun b => omap (wake_up_event h0) (array b))
         = Ret h'.
Proof.
  intros Hk Hmx Hbefore rem.
  induction rem as [|rem IH]; intros i h signalled Hi Hrem Hs; [lia|].
  cbn [wake_all_loop].
  destruct (decide (Z.to_nat i = k)) as [Heq|Hne].
  - rewrite (nth_instance_lookup arrs i a) by (try lia; rewrite Heq; exact Hk).
    cbn -[wake_all_loop].
    unfold sync_array_wake_threads_if_sema_free_low, sync_array_enter.
    simpl. rewrite Hmx. simpl.
    replace (k - Z.to_nat i)%nat with 0%nat by lia.
    rewrite take_0. simpl. rewrite app_nil_r.
    exists h. split; reflexivity.
  - destruct (lookup_lt_is_Some_2 arrs (Z.to_nat i)) as [b Hb].
    { apply lookup_lt_Some in Hk. lia. }
    destruct (Hbefore (Z.to_nat i) b ltac:(lia) Hb) as (Hinv & Hmxb & Htyped).
    destruct (sweep_low_from h0 b h Hinv Hmxb Htyped Hs) as (h1 & Hlow & Hset).
    rewrite (nth_instance_lookup arrs i b) by (try lia; exact Hb).
    cbn -[wake_all_loop sync_array_wake_threads_if_sema_free_low].
    rewrite Hlow. cbn -[wake_all_loop].
    rewrite (list_insert_id arrs _ b Hb).
    destruct (IH (i + 1) h1 (signalled ++ omap (wake_up_event h0) (array b)))
      as (h' & Hloop & Hset2); [lia|lia| |].
    { eapply same_locks_trans; [exact Hs|].
      eapply set_events_same_locks; exact Hset. }
    replace (Z.to_nat (i + 1)) with (S (Z.to_nat i)) in Hloop, Hset2 by lia.
    rewrite (take_drop_cons arrs (Z.to_nat i) k b Hb) by lia.
    rewrite bind_cons.
    exists h'. split.
    + rewrite Hloop, <- app_assoc. reflexivity.
    + eapply set_events_app; eauto.
Qed.

(** X18. The sweep over all instances waits for the mutex of each: when the
    mutex of one instance is held, as it is for good after a reservation
    that found no free cell, [sync_arr_wake_threads_if_sema_free] sweeps the
    instances before it, setting exactly the events of their cells that can
    be woken, and then hangs on that mutex; what only the instances at and
    behind it wait for is not signalled. *)
Theorem sweep_blocks_behind_held_mutex size arrs h k a :
  Z.of_nat (length arrs) = size ->
  arrs !! k = Some a -> os_mutex a = true ->
  (forall j b, (j < k)%nat -> arrs !! j = Some b ->
               sync_array_inv b /\ os_mutex b = false /\ cells_typed h b) ->
  exists h' signalled,
    sync_arr_wake_threads_if_sema_free size (Some arrs) h
    = (h', signalled, Blocked)
    /\ (forall ev,
          ev ∈ signalled <->
          exists j b i c,
            (j < k)%nat /\ arrs !! j = Some b /\ array b !! i = Some c
            /\ wait_object c <> NULL
            /\ sync_arr_cell_can_wake_up h c = Ret true
            /\ sync_cell_get_event h c = Ret ev)
    /\ (forall ev, ev ∈ signalled ->
                   exists v, event_load h' ev = Ret v /\ is_set v = true)
    /\ (forall ev, ev ∉ signalled -> event_load h' ev = event_load h ev)
    /\ same_locks h h'.
Proof.
  intros Hlen Hk Hmx Hbefore. unfold sync_arr_wake_threads_if_sema_free.
  destruct (wake_all_loop_blocked arrs h k a Hk Hmx Hbefore
              (Z.to_nat size) 0 h [])
    as (h' & Hloop & Hsets); [lia| |apply same_locks_refl|].
  { apply lookup_lt_Some in Hk. lia. }
  simpl in Hloop, Hsets. rewrite drop_0, Nat.sub_0_r in Hloop, Hsets.
  exists h', (take k arrs ≫= fun b => omap (wake_up_event h) (array b)).
  split; [exact Hloop|]. split; [|split; [|split]].
  - intros ev. rewrite list_elem_of_bind. split.
    + intros (b & Hev & Hb). apply elem_of_take in Hb as (j & Hj & Hlt).
      apply list_elem_of_omap in Hev as (c & Hc & Hw).
      apply list_elem_of_lookup in Hc as [i Hi].
      destruct (Hbefore j b Hlt Hj) as (_ & _ & Htyped).
      apply wake_up_event_source in Hw; [|intros Hres; eapply Htyped; eauto].
      exists j, b, i, c. tauto.
    + intros (j & b & i & c & Hlt & Hj & Hi & Hobj & Hcan & Hev).
      destruct (Hbefore j b Hlt Hj) as (_ & _ & Htyped).
      exists b. split; [|apply elem_of_take; eauto].
      apply list_elem_of_omap. exists c. split.
      * eapply list_elem_of_lookup_2. exact Hi.
      * apply wake_up_event_source; [intros Hres; eapply Htyped; eauto|].
        tauto.
  - intros ev Hin. eapply set_events_in; eauto.
  - intros ev Hnot. eapply set_events_not_in; eauto.
  - eapply set_events_same_locks. exact Hsets.
Qed.

(** *** The size of an array *)

(** X19. A wait array never grows or shrinks: in every state it can reach,
    [n_cells] is the number it was created with, the array has the cells
    that fit into the bytes [sync_array_create] asked for, which are that
    many when their size fits a [ulint] and fewer when it does not, and
    [n_reserved] lies between 0 and the number of cells the array has. *)
Theorem reachable_array_size n s :
  0 < n <= ULINT_MAX -> reachable n s ->
  n_cells (arr s) = n
  /\ Z.of_nat (length (array (arr s)))
     = ulint_wrap (Z.pos sizeof_sync_cell_t * n) / Z.pos sizeof_sync_cell_t
  /\ Z.of_nat (length (array (arr s))) <= n
  /\ 0 <= n_reserved (arr s) <= Z.of_nat (length (array (arr s)))
  /\ (Z.pos sizeof_sync_cell_t * n <= ULINT_MAX ->
      Z.of_nat (length (array (arr s))) = n
      /\ 0 <= n_reserved (arr s) <= n).
Proof.
  intros Hn Hreach.
  pose proof (counted_reachable n s Hn Hreach) as (_ & Hcount).
  destruct Hreach as (m & m' & a0 & h0 & sys & Hcreate & Hsteps & <-).
  destruct (steps_size _ _ Hsteps) as (Hcells & Hlen).
  apply create_ret in Hcreate as (_ & ->). simpl in Hcells, Hlen.
  destruct (items_of_size sizeof_sync_cell_t n) as (Hle & Heq); [lia|].
  rewrite length_replicate in Hlen.
  pose proof (count_reserved_nonneg (array (arr (shared sys)))).
  pose proof (count_reserved_le_length (array (arr (shared sys)))).
  assert (Hl : Z.of_nat (length (array (arr (shared sys))))
               = ulint_wrap (Z.pos sizeof_sync_cell_t * n)
                 / Z.pos sizeof_sync_cell_t)
    by (rewrite Hlen; lia).
  split; [exact Hcells|]. split; [exact Hl|]. split; [lia|].
  split; [lia|].
  intros Hmax. destruct (Heq Hmax) as (_ & Hn'). lia.
Qed.

End WaitArrayMore.

(** ** Reports of long semaphore waits *)

Section DiagnosticsFacts.
Context `{W : ulint_width} `{E : diagnostics_env}.

Lemma cell_waits_test c :
  (wait_object c =? NULL) || negb (waiting c) = false <-> cell_waits c.
Proof.
  unfold cell_waits, NULL.
  destruct (wait_object c =? 0) eqn:E1; destruct (waiting c); simpl;
    split; try discriminate; try lia; try tauto;
    intros (? & ?); try discriminate; lia.
Qed.


(** *** One round of the first loop *)




(** *** The first loop as a fold over the cells *)





(** *** The loops return *)


Lemma writer_chain_low_done fuel a h loop :
  writer_chain_low fuel a h ULINT_UNDEFINED loop = Some (Ret tt).
Proof.
  destruct fuel; simpl; rewrite Z.eqb_refl; reflexivity.
Qed.







(** *** The report over all instances *)





(** *** The loops that follow writers *)

Lemma writer_chain_low_total a h :
  100 < ULINT_MAX ->
  forall fuel reserver loop,
    0 <= loop <= 100 -> (Z.to_nat (101 - loop) <= fuel)%nat ->
    writer_chain_low fuel a h reserver loop <> None.
Proof.
  intros Hmax.
  induction fuel as [|fuel IH]; intros reserver loop Hloop Hfuel; [lia|].
  cbn [writer_chain_low].
  destruct (reserver =? ULINT_UNDEFINED); [discriminate|].
  assert (Hstop : (if 100 <? loop then Some (Ret tt)
                   else writer_chain_low fuel a h ULINT_UNDEFINED loop)
                  <> None).
  { destruct (100 <? loop); [discriminate|].
    rewrite writer_chain_low_done. discriminate. }
  destruct (sync_array_find_thread a reserver) as [[j|]| | |];
    cbn [obind]; try discriminate; [|exact Hstop].
  destruct (cell_at a j) as [c| | |]; cbn [obind]; try discriminate.
  destruct (negb (wait_object c =? NULL) && waiting c); [|exact Hstop].
  destruct (sync_array_cell_print h c ULINT_UNDEFINED) as [r1| | |];
    cbn [obind]; try discriminate.
  rewrite ulint_incr_small by lia.
  destruct (thread c =? r1);
    (destruct (100 <? loop + 1) eqn:E2; [discriminate|apply IH; lia]).
Qed.

Lemma semaphore_waits_loop_total a h :
  100 < ULINT_MAX ->
  forall rem i, semaphore_waits_loop 103 rem a h i <> None.
Proof.
  intros Hmax. induction rem as [|rem IH]; intros i; [discriminate|].
  cbn [semaphore_waits_loop].
  destruct (sync_array_get_nth_cell a i) as [c| | |]; cbn [obind];
    try discriminate.
  destruct ((wait_object c =? NULL) || negb (waiting c)); [apply IH|].
  destruct (sync_array_cell_print h c ULINT_UNDEFINED) as [r1| | |];
    cbn [obind]; try discriminate.
  pose proof (writer_chain_low_total a h Hmax 103 r1 0 ltac:(lia)
                ltac:(simpl; lia)) as Hchain.
  destruct (writer_chain_low 103 a h r1 0) as [[[]| | |]|];
    cbn [othen obind]; try discriminate; [apply IH|contradiction].
Qed.

Lemma writer_chain_innodb_cycle a h r1 r2 j1 j2 c1 c2 :
  r1 <> ULINT_UNDEFINED -> r2 <> ULINT_UNDEFINED ->
  sync_array_find_thread a r1 = Ret (Some j1) -> cell_at a j1 = Ret c1 ->
  cell_waits c1 ->
  (forall r, sync_array_cell_print h c1 r = Ret r2) -> thread c1 <> r2 ->
  sync_array_find_thread a r2 = Ret (Some j2) -> cell_at a j2 = Ret c2 ->
  cell_waits c2 ->
  (forall r, sync_array_cell_print h c2 r = Ret r1) -> thread c2 <> r1 ->
  forall fuel,
    writer_chain_innodb fuel a h r1 0 = None
    /\ writer_chain_innodb fuel a h r2 0 = None.
Proof.
  intros Hr1 Hr2 Hf1 Hc1 Hw1 Hp1 Ht1 Hf2 Hc2 Hw2 Hp2 Ht2.
  apply cell_waits_test in Hw1, Hw2.
  apply orb_false_iff in Hw1 as (Ho1 & Hwt1).
  apply orb_false_iff in Hw2 as (Ho2 & Hwt2).
  apply negb_false_iff in Hwt1, Hwt2.
  induction fuel as [|fuel (IH1 & IH2)]; cbn [writer_chain_innodb].
  - destruct (r1 =? ULINT_UNDEFINED) eqn:E1; [lia|].
    destruct (r2 =? ULINT_UNDEFINED) eqn:E2; [lia|]. auto.
  - destruct (r1 =? ULINT_UNDEFINED) eqn:E1; [lia|].
    destruct (r2 =? ULINT_UNDEFINED) eqn:E2; [lia|].
    rewrite Hf1, Hf2. cbn [obind]. rewrite Hc1, Hc2. cbn [obind].
    rewrite Ho1, Ho2, Hwt1, Hwt2. simpl negb. simpl andb.
    rewrite Hp1, Hp2. cbn [obind].
    destruct (thread c1 =? r2) eqn:E3; [lia|].
    destruct (thread c2 =? r1) eqn:E4; [lia|].
    simpl. auto.
Qed.

Lemma print_innodb_loop_none fuel a h i0 c0 r1 :
  sync_array_wf a ->
  array a !! i0 = Some c0 -> cell_waits c0 ->
  (forall k c, (k < i0)%nat -> array a !! k = Some c -> ~ cell_waits c) ->
  sync_array_cell_print h c0 ULINT_UNDEFINED = Ret r1 ->
  writer_chain_innodb fuel a h r1 0 = None ->
  forall rem i,
    0 <= i <= Z.of_nat i0 -> i + Z.of_nat rem = n_cells a ->
    print_innodb_loop fuel rem a h i = None.
Proof.
  intros Hwf Hc0 Hw0 Hbefore Hp0 Hchain.
  pose proof (lookup_lt_Some _ _ _ Hc0) as Hlt.
  induction rem as [|rem IH]; intros i Hi Hrem.
  - destruct Hwf as (Hlen & _). lia.
  - destruct (get_nth_cell_wf a i Hwf) as (c & Hlook & Hget); [lia|].
    cbn [print_innodb_loop]. rewrite Hget. cbn [obind].
    destruct (decide (Z.to_nat i = i0)) as [Heq|Hne].
    + rewrite Heq, Hc0 in Hlook. injection Hlook as <-.
      apply cell_waits_test in Hw0. rewrite Hw0.
      rewrite Hp0. cbn [obind]. rewrite Hchain. reflexivity.
    + destruct ((wait_object c =? NULL) || negb (waiting c)) eqn:Ht.
      * apply IH; lia.
      * apply cell_waits_test in Ht.
        destruct (Hbefore (Z.to_nat i) c ltac:(lia) Hlook Ht).
Qed.

(** X24. The loop of [sync_array_print_long_waits_low] that follows the
    writer of an rw-lock to the cell that writer waits in counts its rounds
    and stops after 101 of them, so the function always comes to an end.
    The same loop in [sync_array_print_innodb] tests the counter without
    ever incrementing it: when two threads wait for rw-locks of which the
    other is the writer, and the first waiting cell of the array leads to
    them, the function goes round and round and no budget is enough for
    it. *)
Theorem writer_loop_guard :
  (forall a h now threshold waiter sema noticed,
      100 < ULINT_MAX ->
      sync_array_print_long_waits_low_fuel 103 a h now threshold waiter sema
        noticed
      = Some (sync_array_print_long_waits_low a h now threshold waiter sema
                noticed))
  /\ (forall fuel (atomic : bool) size arrs count h a i0 c0 r1 r2 j1 j2 c1
             c2,
        0 < size -> Z.of_nat (length arrs) = size ->
        arrs !! Z.to_nat ((if atomic then ulint_incr count else count)
                          mod size) = Some a ->
        sync_array_wf a ->
        array a !! i0 = Some c0 -> cell_waits c0 ->
        (forall k c, (k < i0)%nat -> array a !! k = Some c ->
                     ~ cell_waits c) ->
        sync_array_cell_print h c0 ULINT_UNDEFINED = Ret r1 ->
        r1 <> ULINT_UNDEFINED -> r2 <> ULINT_UNDEFINED ->
        sync_array_find_thread a r1 = Ret (Some j1) ->
        cell_at a j1 = Ret c1 -> cell_waits c1 ->
        (forall r, sync_array_cell_print h c1 r = Ret r2) ->
        thread c1 <> r2 ->
        sync_array_find_thread a r2 = Ret (Some j2) ->
        cell_at a j2 = Ret c2 -> cell_waits c2 ->
        (forall r, sync_array_cell_print h c2 r = Ret r1) ->
        thread c2 <> r1 ->
        sync_array_print_innodb fuel atomic size (Some arrs) count h = None).
Proof.
  split.
  - intros a h now threshold waiter sema noticed Hmax.
    unfold sync_array_print_long_waits_low.
    assert (Hsome : sync_array_print_long_waits_low_fuel 103 a h now
                      threshold waiter sema noticed <> None).
    { unfold sync_array_print_long_waits_low_fuel.
      destruct (SRV_SEMAPHORE_WAIT_EXTENSION <? threshold); [discriminate|].
      destruct (long_waits_loop _ _ _ _ _ _ _) as [r| | |]; cbn [obind];
        try discriminate.
      destruct (lw_noticed r); [|discriminate].
      pose proof (semaphore_waits_loop_total a h Hmax
                    (Z.to_nat (n_cells a)) 0) as Hs.
      destruct (semaphore_waits_loop _ _ _ _ _) as [[[]| | |]|];
        cbn [othen obind]; try discriminate. contradiction. }
    destruct (sync_array_print_long_waits_low_fuel _ _ _ _ _ _ _ _);
      [reflexivity|contradiction].
  - intros fuel atomic size arrs count h a i0 c0 r1 r2 j1 j2 c1 c2
      Hsize Hlen Ha Hwf Hc0 Hw0 Hbefore Hp0 Hr1 Hr2 Hf1 Hc1 Hw1 Hp1 Ht1
      Hf2 Hc2 Hw2 Hp2 Ht2.
    unfold sync_array_print_innodb.
    rewrite (sync_array_get_ret atomic size arrs count Hsize Hlen).
    cbn [obind].
    set (k := _ mod size) in *.
    assert (Hk : 0 <= k < size) by (apply Z.mod_pos_bound; lia).
    rewrite (nth_instance_lookup arrs k a) by (try lia; exact Ha).
    cbn [obind].
    destruct (writer_chain_innodb_cycle a h r1 r2 j1 j2 c1 c2 Hr1 Hr2 Hf1
                Hc1 Hw1 Hp1 Ht1 Hf2 Hc2 Hw2 Hp2 Ht2 fuel) as (Hchain & _).
    rewrite (print_innodb_loop_none fuel a h i0 c0 r1 Hwf Hc0 Hw0 Hbefore
               Hp0 Hchain); [reflexivity|lia|].
    destruct Hwf as (? & ? & ?). lia.
Qed.

End DiagnosticsFacts.

(** ** Codes of the control-block states *)

Section BufStateFacts.
Import BufState.

(** X20. The eight control-block states are numbered 0 to 7, so each fits
    the [state] bit-field of BUF_PAGE_STATE_BITS bits and comes back from it
    unchanged, and two states never share a stored value.
    [buf_block_state_valid] accepts the five states from BUF_BLOCK_NOT_USED
    to BUF_BLOCK_REMOVE_HASH and rejects the watch sentinel and the two
    states of compressed-only pages.  MAX_BUFFER_POOLS is 64, and every pool
    index below it fits the 6 bits of [buf_pool_index]. *)
Theorem buf_page_state_codes :
  (forall st, 0 <= buf_page_state_code st <= 7)
  /\ (forall st,
        bit_field_store BUF_PAGE_STATE_BITS (buf_page_state_code st)
        = buf_page_state_code st)
  /\ (forall st st',
        bit_field_store BUF_PAGE_STATE_BITS (buf_page_state_code st)
        = bit_field_store BUF_PAGE_STATE_BITS (buf_page_state_code st') ->
        st = st')
  /\ (forall st,
        buf_block_state_valid st = true
        <-> st <> BUF_BLOCK_POOL_WATCH /\ st <> BUF_BLOCK_ZIP_PAGE
            /\ st <> BUF_BLOCK_ZIP_DIRTY)
  /\ MAX_BUFFER_POOLS = 64
  /\ (forall i, 0 <= i < MAX_BUFFER_POOLS ->
                bit_field_store MAX_BUFFER_POOLS_BITS i = i).
Proof.
  split; [intros []; simpl; lia|].
  split; [intros []; reflexivity|].
  split; [intros [] []; vm_compute; congruence|].
  split.
  - intros [];
      (split;
       [intros H; vm_compute in H; try discriminate H;
        repeat split; discriminate
       |intros (H1 & H2 & H3); try reflexivity; congruence]).
  - split; [reflexivity|]. intros i Hi. unfold bit_field_store.
    apply Z.mod_small. exact Hi.
Qed.

End BufStateFacts.

(** ** More examples on a 64-bit target *)

Section MoreExamples.

#[local] Existing Instance lp64.
#[local] Existing Instance demo_allocator.

Lemma demo_fresh_wf : sync_array_wf (arr demo_fresh).
Proof. split; [reflexivity|split; [reflexivity|]]. vm_compute. discriminate. Qed.

Lemma demo_reserved_wf : sync_array_wf (arr demo_reserved).
Proof. split; [reflexivity|split; [reflexivity|]]. vm_compute. discriminate. Qed.

Lemma sweep_state_inv : sync_array_inv (arr sweep_state).
Proof.
  split; [split; [reflexivity|split; [reflexivity|]]|reflexivity].
  vm_compute. discriminate.
Qed.

Lemma sweep_state_typed : cells_typed (objects sweep_state) (arr sweep_state).
Proof.
  intros k c Hk Hres.
  destruct k as [|[|[|[|k]]]]; simpl in Hk; try discriminate;
    injection Hk as <-; try discriminate;
    eexists; vm_compute; reflexivity.
Qed.

(** X1 on the array in which thread 7 holds cell 0. *)
Lemma find_thread_first_reserved_witness :
  sync_array_wf (arr demo_reserved)
  /\ sync_array_find_thread (arr demo_reserved) 7 = Ret (Some 0)
  /\ exists r,
       sync_array_find_thread (arr demo_reserved) 8 = Ret r
       /\ match r with
          | Some i =>
              0 <= i < n_cells (arr demo_reserved)
              /\ (exists c, array (arr demo_reserved) !! Z.to_nat i = Some c
                            /\ wait_object c <> NULL /\ thread c = 8)
              /\ (forall k c, 0 <= k < i ->
                              array (arr demo_reserved) !! Z.to_nat k = Some c ->
                              wait_object c = NULL \/ thread c <> 8)
          | None =>
              forall k c, array (arr demo_reserved) !! k = Some c ->
                          wait_object c = NULL \/ thread c <> 8
          end.
Proof.
  split; [exact demo_reserved_wf|]. split; [vm_compute; reflexivity|].
  destruct (find_thread_first_reserved (arr demo_reserved) 8 demo_reserved_wf)
    as (r & Hr & _ & Hspec).
  exists r. split; [exact Hr|exact Hspec].
Defined.

(** X2: thread 7 reserves cell 0 of the new array and is found there. *)
Lemma reserve_then_find_thread_witness :
  sync_array_wf (arr demo_fresh)
  /\ sync_array_find_thread (arr demo_fresh) 7 = Ret None
  /\ sync_array_reserve_cell demo_fresh 16 SYNC_MUTEX 11 12 7 100
     = Ret (demo_reserved, Some 0)
  /\ sync_array_find_thread (arr demo_reserved) 7 = Ret (Some 0).
Proof.
  split; [exact demo_fresh_wf|]. split; [vm_compute; reflexivity|].
  split; [exact demo_reserve|].
  exact (reserve_then_find_thread demo_fresh 16 SYNC_MUTEX 11 12 7 100
           demo_reserved 0 demo_fresh_wf eq_refl demo_reserve).
Defined.

(** X3: once thread 7 has freed cell 0, the cell still names thread 7 and is
    not found. *)
Lemma freed_cell_not_found_witness :
  sync_array_wf (arr demo_reserved)
  /\ exists s',
       sync_array_free_cell demo_reserved 0 = Ret s'
       /\ (exists c', array (arr s') !! Z.to_nat 0 = Some c' /\ thread c' = 7)
       /\ sync_array_find_thread (arr s') 7 <> Ret (Some 0).
Proof.
  assert (Hfree : exists s', sync_array_free_cell demo_reserved 0 = Ret s')
    by (eexists; vm_compute; reflexivity).
  destruct Hfree as [s' Hfree].
  split; [exact demo_reserved_wf|]. exists s'. split; [exact Hfree|].
  destruct (freed_cell_not_found demo_reserved 0 s' 7 demo_reserved_wf Hfree)
    as ((c & c' & Hc & Hc' & Hthr & _) & Hnot).
  split; [|exact Hnot].
  exists c'. split; [exact Hc'|]. rewrite Hthr.
  simpl in Hc. injection Hc as <-. reflexivity.
Defined.

(** X4: the array with one reservation validates; the one whose count is
    off does not. *)
Lemma validate_checks_reserved_count_witness :
  sync_array_wf (arr demo_reserved)
  /\ sync_array_wf (arr miscounted_state)
  /\ sync_array_validate (arr demo_reserved) = Ret (arr demo_reserved)
  /\ sync_array_validate (arr miscounted_state) = Abort.
Proof.
  assert (Hwf : sync_array_wf (arr miscounted_state)).
  { split; [reflexivity|split; [reflexivity|]]. vm_compute. discriminate. }
  split; [exact demo_reserved_wf|]. split; [exact Hwf|]. split.
  - exact (proj1 (proj2 (validate_checks_reserved_count (arr demo_reserved)
                           demo_reserved_wf)) eq_refl eq_refl).
  - apply (proj2 (proj2 (validate_checks_reserved_count
                           (arr miscounted_state) Hwf)) eq_refl).
    vm_compute. discriminate.
Defined.

(** X5: the new array can be given back, the one with a reservation
    cannot. *)
Lemma sync_array_free_needs_free_cells_witness :
  sync_array_wf (arr demo_fresh) /\ os_mutex (arr demo_fresh) = false
  /\ sync_array_wf (arr demo_reserved) /\ os_mutex (arr demo_reserved) = false
  /\ (forall c, c ∈ array (arr demo_fresh) -> wait_object c = NULL)
  /\ sync_array_free (arr demo_reserved) = Abort.
Proof.
  split; [exact demo_fresh_wf|]. split; [reflexivity|].
  split; [exact demo_reserved_wf|]. split; [reflexivity|]. split.
  - apply (proj1 (proj1 (sync_array_free_needs_free_cells (arr demo_fresh)
                           demo_fresh_wf eq_refl))).
    vm_compute. reflexivity.
  - apply (proj2 (sync_array_free_needs_free_cells (arr demo_reserved)
                    demo_reserved_wf eq_refl)).
    vm_compute. discriminate.
Defined.

(** X6: two instances, thread 7 still holds a cell of the second. *)
Lemma sync_array_close_needs_free_cells_witness :
  Z.of_nat (length [arr demo_fresh; arr demo_reserved]) = 2
  /\ (forall a, a ∈ [arr demo_fresh; arr demo_reserved] ->
                sync_array_wf a /\ os_mutex a = false)
  /\ sync_array_close 2 (Some [arr demo_fresh; arr demo_reserved]) = Abort.
Proof.
  assert (Hall : forall a, a ∈ [arr demo_fresh; arr demo_reserved] ->
                           sync_array_wf a /\ os_mutex a = false).
  { intros a Ha. apply elem_of_cons in Ha as [->|Ha];
      [split; [exact demo_fresh_wf|reflexivity]|].
    apply elem_of_cons in Ha as [->|Ha];
      [split; [exact demo_reserved_wf|reflexivity]|].
    apply elem_of_nil in Ha. contradiction. }
  split; [reflexivity|]. split; [exact Hall|].
  apply (proj2 (sync_array_close_needs_free_cells 2
                  [arr demo_fresh; arr demo_reserved] eq_refl Hall)).
  vm_compute. discriminate.
Defined.

(** X7 for 33 threads on 32 instances. *)
Lemma init_close_round_trip_witness :
  0 < 33 <= ULINT_MAX /\ 0 < 32
  /\ Z.pos sizeof_pointer * 32 <= ULINT_MAX
  /\ Z.pos sizeof_sync_cell_t * (1 + (33 - 1) / 32) <= ULINT_MAX
  /\ is_ret (ut_malloc_all demo_memory (init_requests 32 (1 + (33 - 1) / 32)))
     = true
  /\ exists m' arrs,
       sync_array_init demo_memory None 32 33 = Ret (m', arrs)
       /\ sync_array_close 32 (Some arrs) = Ret None
       /\ forall m2, sync_array_init m2 (Some arrs) 32 33 = Abort.
Proof.
  assert (H33 : 0 < 33 <= ULINT_MAX)
    by (split; [reflexivity|vm_compute; discriminate]).
  assert (H32 : 0 < 32) by reflexivity.
  assert (Htable : Z.pos sizeof_pointer * 32 <= ULINT_MAX)
    by (vm_compute; discriminate).
  assert (Hcells : Z.pos sizeof_sync_cell_t * (1 + (33 - 1) / 32)
                   <= ULINT_MAX)
    by (vm_compute; discriminate).
  assert (Hgrant : is_ret (ut_malloc_all demo_memory
                             (init_requests 32 (1 + (33 - 1) / 32))) = true)
    by (vm_compute; reflexivity).
  split; [exact H33|]. split; [exact H32|]. split; [exact Htable|].
  split; [exact Hcells|]. split; [exact Hgrant|].
  exact (init_close_round_trip demo_memory 33 32 H33 H32 Htable Hcells
           Hgrant).
Defined.

(** X8 on three instances: the calls return instances 1, 2 and 0. *)
Lemma sync_array_get_round_robin_witness :
  0 < 3 /\ Z.of_nat (length (replicate 3 (arr demo_fresh))) = 3
  /\ 0 <= 0 /\ 0 + 3 <= ULINT_MAX
  /\ sync_array_get_calls true 3 (Some (replicate 3 (arr demo_fresh)))
       (Z.to_nat 3) 0
     = Ret (3, [1; 2; 0])
  /\ exists ks,
       sync_array_get_calls true 3 (Some (replicate 3 (arr demo_fresh)))
         (Z.to_nat 3) 0
       = Ret (0 + 3, ks)
       /\ NoDup ks /\ (forall k, k ∈ ks <-> 0 <= k < 3).
Proof.
  assert (Hmax : 0 + 3 <= ULINT_MAX) by (vm_compute; discriminate).
  split; [reflexivity|]. split; [reflexivity|]. split; [reflexivity|].
  split; [exact Hmax|]. split; [vm_compute; reflexivity|].
  destruct (sync_array_get_round_robin true 3 (replicate 3 (arr demo_fresh)) 0
              eq_refl eq_refl ltac:(discriminate) Hmax)
    as (ks & Hks & _ & Hnd & Hin).
  exists ks. split; [exact Hks|]. split; [exact Hnd|exact Hin].
Defined.

(** X9 on one instance of four cells, the first of which is waiting. *)
Lemma sync_arr_get_item_bounds_witness :
  0 < 1 /\ Z.of_nat (length [arr sweep_state]) = 1
  /\ (forall a, a ∈ [arr sweep_state] -> sync_array_wf a /\ n_cells a = 4)
  /\ sync_arr_get_n_items false 1 (Some [arr sweep_state]) 0
     = Ret (ulint_incr 0, 4)
  /\ sync_arr_get_item false 1 (Some [arr sweep_state]) 0 0
     = Ret (1, Some (0, 0))
  /\ sync_arr_get_item false 1 (Some [arr sweep_state]) 0 1 = Ret (1, None)
  /\ sync_arr_get_item false 1 (Some [arr sweep_state]) 0 4 = Abort.
Proof.
  assert (Hall : forall a, a ∈ [arr sweep_state] ->
                           sync_array_wf a /\ n_cells a = 4).
  { intros a Ha. apply elem_of_cons in Ha as [->|Ha];
      [split; [exact (proj1 sweep_state_inv)|reflexivity]|].
    apply elem_of_nil in Ha. contradiction. }
  split; [reflexivity|]. split; [reflexivity|]. split; [exact Hall|].
  split; [|split; [vm_compute; reflexivity|split; [vm_compute; reflexivity|]]].
  - exact (proj1 (sync_arr_get_item_bounds false 1 [arr sweep_state] 0 4 0
                    eq_refl eq_refl Hall ltac:(discriminate))).
  - apply (proj2 (proj2 (sync_arr_get_item_bounds false 1 [arr sweep_state]
                           0 4 4 eq_refl eq_refl Hall ltac:(discriminate)))).
    discriminate.
Defined.

(** X10 on the four-cell array as the only instance. *)
Lemma wake_threads_all_instances_witness :
  Z.of_nat (length [arr sweep_state]) = 1
  /\ (forall a, a ∈ [arr sweep_state] ->
                sync_array_inv a /\ os_mutex a = false
                /\ cells_typed (objects sweep_state) a)
  /\ exists h' signalled,
       sync_arr_wake_threads_if_sema_free 1 (Some [arr sweep_state])
         (objects sweep_state)
       = (h', signalled, Ret (Some [arr sweep_state]))
       /\ signalled = [(16, MUTEX_EVENT); (32, RW_WAIT_EX_EVENT)]
       /\ same_locks (objects sweep_state) h'.
Proof.
  assert (Hall : forall a, a ∈ [arr sweep_state] ->
                           sync_array_inv a /\ os_mutex a = false
                           /\ cells_typed (objects sweep_state) a).
  { intros a Ha. apply elem_of_cons in Ha as [->|Ha];
      [split; [exact sweep_state_inv|split;
                                      [reflexivity|exact sweep_state_typed]]|].
    apply elem_of_nil in Ha. contradiction. }
  split; [reflexivity|]. split; [exact Hall|].
  destruct (wake_threads_all_instances 1 [arr sweep_state]
              (objects sweep_state) eq_refl Hall)
    as (h' & signalled & Hret & _ & Hsame).
  exists h', signalled. split; [exact Hret|]. split; [|exact Hsame].
  assert (Hrun : exists h1,
             sync_arr_wake_threads_if_sema_free 1 (Some [arr sweep_state])
               (objects sweep_state)
             = (h1, [(16, MUTEX_EVENT); (32, RW_WAIT_EX_EVENT)],
                Ret (Some [arr sweep_state])))
    by (eexists; vm_compute; reflexivity).
  destruct Hrun as [h1 Hrun].
  rewrite Hrun in Hret. injection Hret as _ <-. reflexivity.
Defined.

(** X11: thread 7 reserves cell 0 of the new array and frees it again. *)
Lemma reserve_free_round_trip_witness :
  sync_array_inv (arr demo_fresh)
  /\ sync_array_reserve_cell demo_fresh 16 SYNC_MUTEX 11 12 7 100
     = Ret (demo_reserved, Some 0)
  /\ exists s2,
       sync_array_free_cell demo_reserved 0 = Ret s2
       /\ n_reserved (arr s2) = n_reserved (arr demo_fresh)
       /\ cell_reserved <$> array (arr s2)
          = cell_reserved <$> array (arr demo_fresh)
       /\ res_count (arr s2) = ulint_incr (res_count (arr demo_fresh)).
Proof.
  split; [exact demo_fresh_inv|]. split; [exact demo_reserve|].
  destruct (reserve_free_round_trip demo_fresh 16 SYNC_MUTEX 11 12 7 100
              demo_reserved 0 demo_fresh_inv demo_reserve)
    as (s2 & Hfree & Hn & Hres & _ & _ & _ & Hcount & _).
  exists s2. split; [exact Hfree|]. split; [exact Hn|].
  split; [exact Hres|exact Hcount].
Defined.

(** X12 on the full one-cell array: thread 8 finds no free cell and
    returns with the mutex held; thread 7, which had reserved the cell and
    was about to write its reservation time, still writes it, and that is
    all that changes. *)
Lemma failed_reserve_keeps_mutex_witness :
  exists s' s2,
    sync_array_reserve_cell (held_state 1) 16 SYNC_MUTEX 0 0 8 0
    = Ret (s', None)
    /\ os_mutex (arr s') = true
    /\ sync_array_free_cell s' 0 = Blocked
    /\ sync_array_validate (arr s') = Blocked
    /\ reserve_cell_reservation_time s' 0 555 = Ret s2
    /\ arr s2 <> arr s'
    /\ locked_part (arr s2) = locked_part (arr s')
    /\ sync_array_free_cell s2 0 = Blocked.
Proof.
  set (s' := mk_state
               (mk_array 1 1 [mk_cell 16 16 0 SYNC_MUTEX 0 0 7 false 0 0]
                  true 2) wrap_heap).
  set (s2 := mk_state
               (mk_array 1 1 [mk_cell 16 16 0 SYNC_MUTEX 0 0 7 false 0 555]
                  true 2) wrap_heap).
  assert (Hret : sync_array_reserve_cell (held_state 1) 16 SYNC_MUTEX 0 0 8 0
                 = Ret (s', None))
    by (vm_compute; reflexivity).
  assert (Hstamp : reserve_cell_reservation_time s' 0 555 = Ret s2)
    by (vm_compute; reflexivity).
  destruct (failed_reserve_keeps_mutex (held_state 1) 16 SYNC_MUTEX 0 0 8 0
              s' Hret) as (Hmx & Hlater).
  destruct (Hlater ∅ (mk_system s' ∅) (rtc_refl _ _))
    as (_ & _ & Hfree & _ & _ & Hval & _).
  destruct (Hlater {[ 7 := (0, STAMP_RESERVATION_TIME) ]}
              (mk_system s2
                 (<[7 := (0, STAMP_THREAD)]>
                    {[ 7 := (0, STAMP_RESERVATION_TIME) ]})))
    as (_ & _ & Hfree2 & _ & _ & _ & Hpart & _).
  { apply rtc_once.
    exact (step_reserve_reservation_time
             (mk_system s' {[ 7 := (0, STAMP_RESERVATION_TIME) ]})
             7 0 555 s2 (lookup_singleton_eq _ _) Hstamp). }
  exists s', s2. split; [exact Hret|]. split; [exact Hmx|].
  split; [exact (Hfree 0)|]. split; [exact Hval|].
  split; [exact Hstamp|]. split; [discriminate|].
  split; [exact Hpart|exact (Hfree2 0)].
Defined.

(** X13: thread 7 waits on cell 0 while the event of the mutex is not set;
    once it is set, the thread frees the cell. *)
Lemma wait_event_frees_cell_witness :
  exists s1,
    sync_array_wait_event_enter RELEASE demo_reserved 0 7
    = Ret (s1, (16, MUTEX_EVENT))
    /\ wait_event_signal_count s1 0 = Ret 5
    /\ sync_array_wait_event RELEASE demo_reserved 0 7 = Blocked
    /\ exists s3,
         sync_array_wait_event_wake
           (mk_state (arr s1) (objects demo_signalled)) 0 (16, MUTEX_EVENT) 5
         = Ret s3
         /\ n_reserved (arr s3) = 0
         /\ sync_array_free_cell s3 0 = Abort.
Proof.
  set (s1 := mk_state
               (mk_array 1 2
                  [mk_cell 16 16 0 SYNC_MUTEX 11 12 7 true 5 100; zero_cell]
                  false 1)
               (objects demo_reserved)).
  assert (Henter : sync_array_wait_event_enter RELEASE demo_reserved 0 7
                   = Ret (s1, (16, MUTEX_EVENT)))
    by (vm_compute; reflexivity).
  destruct (wait_event_frees_cell RELEASE demo_reserved 0 7 s1
              (16, MUTEX_EVENT) Henter)
    as (c & Hc & Hc1 & _ & Hsig & Hn & Hmx & _ & Hblocked & _ & Hgo
        & Hfreed).
  assert (Hcell : c = mk_cell 16 16 0 SYNC_MUTEX 11 12 7 false 5 100)
    by (simpl in Hc; injection Hc as <-; reflexivity).
  subst c.
  exists s1. split; [exact Henter|]. split; [exact Hsig|]. split.
  - apply Hblocked. vm_compute. reflexivity.
  - set (s2 := mk_state (arr s1) (objects demo_signalled)).
    pose proof (Hgo s2 _ ltac:(vm_compute; reflexivity) Hmx
                  ltac:(simpl; lia) Hc1 ltac:(discriminate)
                  ltac:(simpl; lia)) as Hret.
    change (signal_count (mk_cell 16 16 0 SYNC_MUTEX 11 12 7 false 5 100))
      with 5 in Hret, Hfreed.
    destruct (sync_array_wait_event_wake s2 0 (16, MUTEX_EVENT) 5)
      as [s3| | |] eqn:Hwake; try discriminate.
    exists s3. split; [reflexivity|].
    destruct (Hfreed s2 _ s3 Hc1 Hwake) as (_ & _ & Hn3 & _ & Habort & _).
    split; [|exact Habort].
    rewrite Hn3. vm_compute. reflexivity.
Defined.

(** X14 on the array whose count is off. *)
Lemma sweep_stops_on_overstated_count_witness :
  sync_array_wf (arr miscounted_state)
  /\ os_mutex (arr miscounted_state) = false
  /\ cells_typed (objects miscounted_state) (arr miscounted_state)
  /\ count_reserved (array (arr miscounted_state))
     < n_reserved (arr miscounted_state)
  /\ sync_array_wake_threads_if_sema_free_low miscounted_state = Abort.
Proof.
  assert (Hwf : sync_array_wf (arr miscounted_state)).
  { split; [reflexivity|split; [reflexivity|]]. vm_compute. discriminate. }
  assert (Htyped : cells_typed (objects miscounted_state)
                     (arr miscounted_state)).
  { intros k c Hk Hres.
    destruct k as [|[|k]]; simpl in Hk; try discriminate;
      injection Hk as <-; try discriminate;
      eexists; vm_compute; reflexivity. }
  split; [exact Hwf|]. split; [reflexivity|]. split; [exact Htyped|].
  split; [reflexivity|].
  exact (sweep_stops_on_overstated_count miscounted_state Hwf eq_refl Htyped
           eq_refl).
Defined.

(** X15 for 33 threads on 32 instances: 64 cells. *)
Lemma sync_array_init_capacity_witness :
  0 < 33 <= ULINT_MAX /\ 0 < 32
  /\ Z.pos sizeof_pointer * 32 <= ULINT_MAX
  /\ Z.pos sizeof_sync_cell_t * (1 + (33 - 1) / 32) <= ULINT_MAX
  /\ is_ret (ut_malloc_all demo_memory (init_requests 32 (1 + (33 - 1) / 32)))
     = true
  /\ exists m' arrs,
       sync_array_init demo_memory None 32 33 = Ret (m', arrs)
       /\ 33 <= total_cells arrs < 33 + 32.
Proof.
  assert (H33 : 0 < 33 <= ULINT_MAX)
    by (split; [reflexivity|vm_compute; discriminate]).
  assert (H32 : 0 < 32) by reflexivity.
  assert (Htable : Z.pos sizeof_pointer * 32 <= ULINT_MAX)
    by (vm_compute; discriminate).
  assert (Hcells : Z.pos sizeof_sync_cell_t * (1 + (33 - 1) / 32)
                   <= ULINT_MAX)
    by (vm_compute; discriminate).
  assert (Hgrant : is_ret (ut_malloc_all demo_memory
                             (init_requests 32 (1 + (33 - 1) / 32))) = true)
    by (vm_compute; reflexivity).
  split; [exact H33|]. split; [exact H32|]. split; [exact Htable|].
  split; [exact Hcells|]. split; [exact Hgrant|].
  destruct (sync_array_init_capacity demo_memory 33 32 H33 H32 Htable Hcells
              Hgrant) as (m' & arrs & Hret & _ & Hcap).
  exists m', arrs. split; [exact Hret|exact Hcap].
Defined.

Ltac chain_hop :=
  lazymatch goal with
  | |- mutex_path ?s ?start (S ?k) ?cell =>
      let i := eval vm_compute in (Z.to_nat cell) in
      apply (path_hop s start k cell (chain_cell true i) (chain_mutex i)
               (Z.of_nat i + 1));
      [vm_compute; reflexivity|reflexivity|reflexivity|reflexivity
      |vm_compute; reflexivity|discriminate|vm_compute; reflexivity
      |discriminate|]
  end.

Lemma chain_state_path : mutex_path (chain_state 51) 0 50 0.
Proof.
  do 50 chain_hop.
  apply (path_end _ _ _ (chain_cell true 50)). vm_compute. reflexivity.
Qed.

Lemma chain_entry_path :
  mutex_path
    (mk_state
       (store_cell (set_os_mutex (arr (chain_entry 51)) true) 0
          (set_waiting (chain_cell false 0)))
       (objects (chain_entry 51)))
    0 50 0.
Proof.
  do 50 chain_hop.
  apply (path_end _ _ _ (chain_cell true 50)). vm_compute. reflexivity.
Qed.

(** X16 on 51 threads that wait in a row: no deadlock, and the search of
    the first thread stops at the 51st cell. *)
Lemma deadlock_search_depth_limit_witness :
  mutex_path (chain_state 51) 0 50 0
  /\ sync_array_detect_deadlock (chain_state 51) 1 0 0 0 = Abort
  /\ sync_array_wait_event_enter SYNC_DEBUG (chain_entry 51) 0 1 = Abort
  /\ is_ret (sync_array_wait_event_enter DEBUG (chain_entry 51) 0 1) = true.
Proof.
  split; [exact chain_state_path|]. split; [|split].
  - apply (proj1 deadlock_search_depth_limit (chain_state 51) 1 0
             (chain_cell true 0) 0 50%nat 0);
      [vm_compute; reflexivity|reflexivity|exact chain_state_path|lia].
  - apply (proj2 deadlock_search_depth_limit (chain_entry 51) 0 1
             (chain_cell false 0));
      [reflexivity|split; [lia|reflexivity]|reflexivity|discriminate
      |reflexivity|reflexivity|vm_compute; reflexivity
      |exact chain_entry_path].
  - vm_compute. reflexivity.
Defined.

(** X17 for a new array of two cells and the mutex at 16, and for the
    first number of cells whose size wraps: 64 bytes are asked for, which
    hold no cell. *)
Lemma create_then_reserve_witness :
  0 < 2 /\ Z.pos sizeof_sync_cell_t * 2 <= ULINT_MAX
  /\ is_ret (ut_malloc_all demo_memory
               [Z.pos sizeof_sync_array_t; Z.pos sizeof_sync_cell_t * 2])
     = true
  /\ 16 <> NULL /\ object_typed demo_heap 16 SYNC_MUTEX
  /\ (exists m' a0 s',
        sync_array_create demo_memory 2 = Ret (m', a0)
        /\ sync_array_validate a0 = Ret a0
        /\ sync_array_reserve_cell (mk_state a0 demo_heap) 16 SYNC_MUTEX
             11 12 7 100
           = Ret (s', Some 0)
        /\ n_reserved (arr s') = 1 /\ res_count (arr s') = 1)
  /\ sync_array_create demo_memory 0 = Abort
  /\ sync_array_validate
       (mk_array 0 230584300921369396 [] false 0) = Fault.
Proof.
  assert (H2 : 0 < 2) by reflexivity.
  assert (Hmax : Z.pos sizeof_sync_cell_t * 2 <= ULINT_MAX)
    by (vm_compute; discriminate).
  assert (Hgrant : is_ret (ut_malloc_all demo_memory
                             [Z.pos sizeof_sync_array_t;
                              Z.pos sizeof_sync_cell_t * 2]) = true)
    by (vm_compute; reflexivity).
  assert (Htyped : object_typed demo_heap 16 SYNC_MUTEX)
    by (eexists; vm_compute; reflexivity).
  split; [exact H2|]. split; [exact Hmax|]. split; [exact Hgrant|].
  split; [discriminate|]. split; [exact Htyped|].
  destruct (create_then_reserve demo_memory 2 demo_heap 16 SYNC_MUTEX 11 12
              7 100 H2 Hmax Hgrant ltac:(discriminate) Htyped)
    as (Hnew & Hzero & Hwrap).
  split; [exact Hnew|]. split; [exact (Hzero demo_memory)|].
  refine (proj2 (proj2 (Hwrap demo_memory 230584300921369396
                          (demo_memory - 96 - 64) _ _ _ _))).
  - split; [reflexivity|vm_compute; discriminate].
  - vm_compute. reflexivity.
  - vm_compute. reflexivity.
Defined.

(** X18: the second of two instances is locked; the two events of the
    first are set before the sweep hangs. *)
Lemma sweep_blocks_behind_held_mutex_witness :
  Z.of_nat (length [arr sweep_state; arr upgrade_state]) = 2
  /\ [arr sweep_state; arr upgrade_state] !! 1%nat = Some (arr upgrade_state)
  /\ os_mutex (arr upgrade_state) = true
  /\ exists h' signalled,
       sync_arr_wake_threads_if_sema_free 2
         (Some [arr sweep_state; arr upgrade_state]) (objects sweep_state)
       = (h', signalled, Blocked)
       /\ signalled = [(16, MUTEX_EVENT); (32, RW_WAIT_EX_EVENT)]
       /\ same_locks (objects sweep_state) h'.
Proof.
  split; [reflexivity|]. split; [reflexivity|]. split; [reflexivity|].
  destruct (sweep_blocks_behind_held_mutex 2
              [arr sweep_state; arr upgrade_state]
              (objects sweep_state) 1 (arr upgrade_state) eq_refl eq_refl
              eq_refl)
    as (h' & signalled & Hret & _ & _ & _ & Hsame).
  { intros j b Hj Hb. destruct j as [|j]; [|lia].
    simpl in Hb. injection Hb as <-.
    split; [exact sweep_state_inv|].
    split; [reflexivity|exact sweep_state_typed]. }
  exists h', signalled. split; [exact Hret|]. split; [|exact Hsame].
  assert (Hrun : exists h1,
             sync_arr_wake_threads_if_sema_free 2
               (Some [arr sweep_state; arr upgrade_state])
               (objects sweep_state)
             = (h1, [(16, MUTEX_EVENT); (32, RW_WAIT_EX_EVENT)], Blocked))
    by (eexists; vm_compute; reflexivity).
  destruct Hrun as [h1 Hrun].
  rewrite Hrun in Hret. injection Hret as _ <-. reflexivity.
Defined.

(** X19 on the state in which thread 7 holds cell 0 of two. *)
Lemma reachable_array_size_witness :
  0 < 2 <= ULINT_MAX /\ reachable 2 demo_reserved
  /\ n_cells (arr demo_reserved) = 2
  /\ Z.of_nat (length (array (arr demo_reserved))) = 2
  /\ 0 <= n_reserved (arr demo_reserved) <= 2.
Proof.
  assert (H2 : 0 < 2 <= ULINT_MAX)
    by (split; [reflexivity|vm_compute; discriminate]).
  split; [exact H2|]. split; [exact demo_reserved_reachable|].
  destruct (reachable_array_size 2 demo_reserved H2 demo_reserved_reachable)
    as (Hcells & _ & _ & _ & Hfit).
  split; [exact Hcells|].
  apply Hfit. vm_compute. discriminate.
Defined.

#[local] Existing Instance demo_env.




Lemma ulint_max_above_100 : 100 < ULINT_MAX.
Proof. vm_compute. reflexivity. Qed.




(** X24 on the two threads that wait for each other's rw-lock: the report
    of long waits comes to an end, [sync_array_print_innodb] does not. *)
Lemma writer_loop_guard_witness :
  100 < ULINT_MAX
  /\ sync_array_print_long_waits_low (arr deadlock_state)
       (objects deadlock_state) 400 600 0 0 false
     = Ret (mk_long_waits false 400 1 48 true)
  /\ sync_array_print_long_waits_low_fuel 103 (arr deadlock_state)
       (objects deadlock_state) 400 600 0 0 false
     = Some (sync_array_print_long_waits_low (arr deadlock_state)
               (objects deadlock_state) 400 600 0 0 false)
  /\ forall fuel,
       sync_array_print_innodb fuel false 1 (Some [arr deadlock_state]) 0
         (objects deadlock_state)
       = None.
Proof.
  split; [exact ulint_max_above_100|]. split; [vm_compute; reflexivity|].
  split.
  - exact (proj1 writer_loop_guard (arr deadlock_state)
             (objects deadlock_state) 400 600 0 0 false ulint_max_above_100).
  - intros fuel.
    apply (proj2 writer_loop_guard fuel false 1 [arr deadlock_state] 0
             (objects deadlock_state) (arr deadlock_state) 0%nat
             (mk_cell 48 0 48 RW_LOCK_SHARED 0 0 1 true 0 0) 2 1 1 0
             (mk_cell 32 0 32 RW_LOCK_EX 0 0 2 true 0 0)
             (mk_cell 48 0 48 RW_LOCK_SHARED 0 0 1 true 0 0));
      first [vm_compute; reflexivity
            |discriminate
            |split; [discriminate|reflexivity]
            |split; [reflexivity|split; [reflexivity|]];
             vm_compute; discriminate
            |intros k c Hk; lia].
Defined.

End MoreExamples.
